(** * KumaoniTrans: the rule-based Hinglish/Kumaoni engine

    A shallow embedding of the deterministic core of the repository:
    - [src/chatbot.py]: [KumaoniChatbot.detect_language], [detect_intent],
      [translate_word], [translate_phrase], [translate], [learn_new_word],
      [learn_new_phrase], [save_conversation_history],
      [set_language_preference];
    - [src/training_module.py]: [TrainingModule.add_word], [add_phrase],
      [add_idiom], [add_example], [add_grammar_rule], [bulk_import],
      [export_data], [search];
    - [src/pattern_recognizer.py]: [PatternRecognizer.extract_idioms],
      [extract_expressions], [extract_collocations], [recognize_patterns].

    Python [str] values are [string]s whose characters are the code points
    below 256 (romanised Hinglish and Kumaoni are ASCII).  A Python [dict]
    keeps its keys in insertion order and the code iterates over it, so a
    dict is an association list in that order. *)

From Stdlib Require Import String Ascii List Arith Bool Lia.
From Stdlib Require PrimFloat Uint63 ZArith.
Import ListNotations.
Open Scope string_scope.
Open Scope nat_scope.

(** ** Python string built-ins used by the sources *)

Module PyStr.

(** [c.isspace()] for a code point below 256. *)
Definition isspace (c : ascii) : bool :=
  let n := nat_of_ascii c in
  ((9 <=? n) && (n <=? 13)) || ((28 <=? n) && (n <=? 32))
  || (n =? 133) || (n =? 160).

(** [c.lower()] for a code point below 256: A-Z and the Latin-1 capitals
    (all of 192..222 but the multiplication sign 215) move up by 32. *)
Definition lower_char (c : ascii) : ascii :=
  let n := nat_of_ascii c in
  if ((65 <=? n) && (n <=? 90))
     || ((192 <=? n) && (n <=? 222) && negb (n =? 215))
  then ascii_of_nat (n + 32) else c.

(** [s.lower()] *)
Fixpoint lower (s : string) : string :=
  match s with
  | EmptyString => EmptyString
  | String c r => String (lower_char c) (lower r)
  end.

(** [c in chars] for a single character [c]. *)
Fixpoint char_in (c : ascii) (chars : string) : bool :=
  match chars with
  | EmptyString => false
  | String d r => Ascii.eqb c d || char_in c r
  end.

(** [s.lstrip(...)]: drop the longest prefix made of characters in [P]. *)
Fixpoint lstrip (P : ascii -> bool) (s : string) : string :=
  match s with
  | EmptyString => EmptyString
  | String c r => if P c then lstrip P r else s
  end.

(** [s.rstrip(...)]: drop the longest suffix made of characters in [P]. *)
Fixpoint rstrip (P : ascii -> bool) (s : string) : string :=
  match s with
  | EmptyString => EmptyString
  | String c r =>
      match rstrip P r with
      | EmptyString => if P c then EmptyString else String c EmptyString
      | r' => String c r'
      end
  end.

(** [s.strip(chars)] *)
Definition strip_chars (chars : string) (s : string) : string :=
  rstrip (fun c => char_in c chars) (lstrip (fun c => char_in c chars) s).

(** [s.strip()] *)
Definition strip (s : string) : string := rstrip isspace (lstrip isspace s).

(** [s.split()]: the maximal runs of non-whitespace characters. [cur] is
    the run being read. *)
Fixpoint split_from (cur : string) (s : string) : list string :=
  match s with
  | EmptyString => match cur with EmptyString => [] | _ => [cur] end
  | String c r =>
      if isspace c
      then match cur with
           | EmptyString => split_from EmptyString r
           | _ => cur :: split_from EmptyString r
           end
      else split_from (cur ++ String c EmptyString) r
  end.

Definition split (s : string) : list string := split_from EmptyString s.

(** [sep.join(l)] *)
Definition join (sep : string) (l : list string) : string := String.concat sep l.

(** [s.startswith(p)] *)
Definition startswith (s p : string) : bool := String.prefix p s.

(** [s.endswith(e)] *)
Definition endswith (s e : string) : bool :=
  (String.length e <=? String.length s)
  && String.eqb (String.substring (String.length s - String.length e)
                                  (String.length e) s) e.

(** [sub in s] *)
Fixpoint contains (sub s : string) : bool :=
  String.prefix sub s
  || match s with
     | EmptyString => false
     | String _ r => contains sub r
     end.

(** [s[:-n]] for [n >= 0].  Python reads [-0] as [0], so [s[:-0]] is
    [s[:0]], the empty string. *)
Definition slice_to_minus (s : string) (n : nat) : string :=
  match n with
  | 0 => EmptyString
  | S _ => String.substring 0 (String.length s - n) s
  end.

(** [s.replace(old, new)] for a non-empty [old]: scan left to right; at an
    occurrence emit [new] and skip the occurrence ([skip] counts the
    characters of it still to pass), so the occurrences replaced do not
    overlap. *)
Fixpoint replace_scan (old new : string) (skip : nat) (s : string) : string :=
  match s with
  | EmptyString => EmptyString
  | String c r =>
      match skip with
      | S k => replace_scan old new k r
      | 0 =>
          if String.prefix old s
          then new ++ replace_scan old new (String.length old - 1) r
          else String c (replace_scan old new 0 r)
      end
  end.

(** [s.replace(old, new)] for the empty [old]: [new] goes before every
    character and at the end. *)
Fixpoint replace_empty (new : string) (s : string) : string :=
  new ++ match s with
         | EmptyString => EmptyString
         | String c r => String c (replace_empty new r)
         end.

Definition replace (s old new : string) : string :=
  match old with
  | EmptyString => replace_empty new s
  | _ => replace_scan old new 0 s
  end.

End PyStr.

(** ** Python dicts, in insertion order *)

Module PyDict.

Definition dict (V : Type) : Type := list (string * V).

(** [d.get(k)]; [d[k]] when the key is known to be present. *)
Fixpoint get {V} (d : dict V) (k : string) : option V :=
  match d with
  | [] => None
  | (k', v) :: rest => if String.eqb k k' then Some v else get rest k
  end.

(** [k in d] *)
Definition mem {V} (d : dict V) (k : string) : bool :=
  match get d k with Some _ => true | None => false end.

(** [d[k] = v]: an existing key keeps its place, a new key goes last. *)
Fixpoint set {V} (d : dict V) (k : string) (v : V) : dict V :=
  match d with
  | [] => [(k, v)]
  | (k', v') :: rest =>
      if String.eqb k k' then (k', v) :: rest else (k', v') :: set rest k v
  end.

(** [d.keys()], [d.values()] *)
Definition keys {V} (d : dict V) : list string := map fst d.
Definition values {V} (d : dict V) : list V := map snd d.

(** A dict has each key once. *)
Definition wf {V} (d : dict V) : Prop := NoDup (keys d).

End PyDict.

(** ** [src/chatbot.py]: [KumaoniChatbot] *)

Module Chatbot.
Import PyStr PyDict.

(** [self.data["grammar"]]: the four categories the chatbot reads. *)
Record grammar_rules : Type := {
  verb_endings : dict string;
  postpositions : dict string;
  pronouns : dict string;
  question_words : dict string
}.

(** The stores of [self.data] that translation and detection read. *)
Record data : Type := {
  vocab : dict string;
  phrases : dict string;
  grammar : grammar_rules
}.

(** One entry of [conversation_context["exchanges"]]. *)
Record exchange : Type := {
  user : string;
  language : string;
  intent : string;
  timestamp : string;
  bot : option string;
  bot_language : option string
}.

(** [self.conversation_context] *)
Record conversation_context : Type := {
  session_id : string;
  exchanges : list exchange;
  current_topic : option string;
  user_name : option string;
  language_preference : string
}.

(** [default_grammar_rules] *)
Definition default_grammar_rules : grammar_rules := {|
  verb_endings :=
    [("na", "no"); ("ta", "to"); ("te", "ta"); ("ti", "ti"); ("ya", "yo");
     ("a", "o"); ("e", "a"); ("i", "i"); ("o", "o"); ("u", "u")];
  postpositions :=
    [("ka", "ko"); ("ke", "ka"); ("ki", "ki"); ("ko", "ku"); ("se", "le");
     ("me", "ma"); ("par", "par"); ("tak", "tak")];
  pronouns :=
    [("main", "ma"); ("mujhe", "mik"); ("mera", "mero"); ("meri", "meri");
     ("hum", "hami"); ("hamara", "hamro"); ("tu", "tu"); ("tum", "tum");
     ("tumhara", "tumro"); ("aap", "tum"); ("aapka", "tumar"); ("woh", "u");
     ("uska", "usko"); ("uski", "uski"); ("ye", "yo"); ("iska", "isko");
     ("iski", "iski")];
  question_words :=
    [("kya", "ke"); ("kaun", "ko"); ("kahan", "kakh"); ("kaise", "kas");
     ("kyun", "kya"); ("kitna", "kati"); ("kitne", "kati"); ("kitni", "kati");
     ("kab", "kab")]
|}.

(** The argument of [strip] in [detect_language] and [translate_word]:
    full stop, comma, question mark, exclamation mark, double quote
    (code point 34) and apostrophe. *)
Definition punctuation : string :=
  ".,?!" ++ String (ascii_of_nat 34) "'".

(** The loop over [verb_endings.items()] of [translate_word]: the first
    entry, in stored order, with [word_lower.endswith(ending)] and
    [len(word_lower) > len(ending)] returns
    [word_lower[:-len(ending)] + replacement]. *)
Fixpoint apply_verb_endings (endings : dict string) (word_lower : string)
  : option string :=
  match endings with
  | [] => None
  | (ending, replacement) :: rest =>
      if endswith word_lower ending
         && (String.length ending <? String.length word_lower)
      then Some (slice_to_minus word_lower (String.length ending) ++ replacement)
      else apply_verb_endings rest word_lower
  end.

(** The reverse loops of [translate_word]: the first entry whose value,
    lowercased, equals [word_lower] returns its key. *)
Fixpoint reverse_lookup (d : dict string) (word_lower : string)
  : option string :=
  match d with
  | [] => None
  | (hinglish, kumaoni) :: rest =>
      if String.eqb (lower kumaoni) word_lower
      then Some hinglish
      else reverse_lookup rest word_lower
  end.

(** [translate_word(word, direction)] *)
Definition translate_word (d : data) (word : string) (direction : string)
  : string :=
  let word_lower := strip_chars punctuation (lower word) in
  if String.eqb direction "hinglish_to_kumaoni" then
    match get (pronouns (grammar d)) word_lower with
    | Some k => k
    | None =>
    match get (question_words (grammar d)) word_lower with
    | Some k => k
    | None =>
    match get (postpositions (grammar d)) word_lower with
    | Some k => k
    | None =>
    match get (vocab d) word_lower with
    | Some k => k
    | None =>
    match apply_verb_endings (verb_endings (grammar d)) word_lower with
    | Some k => k
    | None => word
    end end end end end
  else
    match reverse_lookup (vocab d) word_lower with
    | Some h => h
    | None =>
    match reverse_lookup (pronouns (grammar d)) word_lower with
    | Some h => h
    | None =>
    match reverse_lookup (question_words (grammar d)) word_lower with
    | Some h => h
    | None =>
    match reverse_lookup (postpositions (grammar d)) word_lower with
    | Some h => h
    | None => word
    end end end end.

(** One turn of the forward phrase loop of [translate]:
    [if phrase.lower() in text.lower():
       text = text.lower().replace(phrase.lower(), phrases[phrase])].
    The entry carries [phrases[phrase]] with its key. *)
Definition phrase_step_forward (text : string) (entry : string * string)
  : string :=
  let (phrase, kumaoni) := entry in
  if contains (lower phrase) (lower text)
  then replace (lower text) (lower phrase) kumaoni
  else text.

(** One turn of the reverse phrase loop of [translate]. *)
Definition phrase_step_reverse (text : string) (entry : string * string)
  : string :=
  let (hinglish, kumaoni) := entry in
  if contains (lower kumaoni) (lower text)
  then replace (lower text) (lower kumaoni) hinglish
  else text.

(** The phrase loop of [translate], each turn reading the text the turns
    before it left. *)
Definition phrase_pass (d : data) (text : string) (direction : string)
  : string :=
  if String.eqb direction "hinglish_to_kumaoni"
  then fold_left phrase_step_forward (phrases d) text
  else fold_left phrase_step_reverse (phrases d) text.

(** [translate(text, direction)] *)
Definition translate (d : data) (text : string) (direction : string)
  : string :=
  let text := phrase_pass d text direction in
  let words := split text in
  let translated_words := map (fun word => translate_word d word direction) words in
  join " " translated_words.

(** The body of the word loop of [detect_language], on the counters
    [(hinglish_count, kumaoni_count)]. *)
Definition count_word (d : data) (counts : nat * nat) (word : string)
  : nat * nat :=
  let (hinglish_count, kumaoni_count) := counts in
  let word := strip_chars punctuation word in
  if mem (vocab d) word then (hinglish_count + 1, kumaoni_count)
  else if existsb (String.eqb word) (values (vocab d))
       then (hinglish_count, kumaoni_count + 1)
       else (hinglish_count, kumaoni_count).

(** The two phrase loops of [detect_language]. *)
Definition count_phrase_key (text : string) (hinglish_count : nat)
  (phrase : string) : nat :=
  if contains phrase (lower text) then hinglish_count + 3 else hinglish_count.

Definition count_phrase_value (text : string) (kumaoni_count : nat)
  (kumaoni_phrase : string) : nat :=
  if contains kumaoni_phrase (lower text) then kumaoni_count + 3
  else kumaoni_count.

(** The counters of [detect_language] when its loops are done. *)
Definition language_counts (d : data) (text : string) : nat * nat :=
  let words := split (lower text) in
  let (hinglish_count, kumaoni_count) := fold_left (count_word d) words (0, 0) in
  let hinglish_count :=
    fold_left (count_phrase_key text) (keys (phrases d)) hinglish_count in
  let kumaoni_count :=
    fold_left (count_phrase_value text) (values (phrases d)) kumaoni_count in
  (hinglish_count, kumaoni_count).

(** [detect_language(text)] *)
Definition detect_language (d : data) (text : string) : string :=
  let (hinglish_count, kumaoni_count) := language_counts d text in
  if hinglish_count <? kumaoni_count then "kumaoni" else "hinglish".

(** [set_language_preference(preference)]: the returned message and the
    context after the call. *)
Definition set_language_preference (ctx : conversation_context)
  (preference : string) : string * conversation_context :=
  if existsb (String.eqb preference) ["kumaoni"; "hinglish"; "mixed"]
  then ("Language preference set to " ++ preference,
        {| session_id := session_id ctx;
           exchanges := exchanges ctx;
           current_topic := current_topic ctx;
           user_name := user_name ctx;
           language_preference := preference |})
  else ("Invalid language preference. Use 'kumaoni', 'hinglish', or 'mixed'.",
        ctx).

(** The keyword lists of [detect_intent]. *)
Definition greeting_words : list string :=
  ["namaste"; "namaskar"; "hello"; "hi"; "hey"; "good morning";
   "good evening"; "kaise ho"; "kas cha"].

Definition weather_words : list string :=
  ["mausam"; "barish"; "dhoop"; "garmi"; "sardi"; "barf"].

Definition food_words : list string :=
  ["khana"; "khano"; "bhojan"; "vyanjan"; "pakwan"; "recipe"; "swad"].

Definition culture_words : list string :=
  ["sanskriti"; "tyohar"; "parv"; "lok"; "geet"; "nritya"; "parampara"].

(** [for word in words: if word in text_lower: return ...]: whether the
    loop returns. *)
Definition any_in (words : list string) (text_lower : string) : bool :=
  existsb (fun word => contains word text_lower) words.

(** [detect_intent(text)] *)
Definition detect_intent (text : string) : string :=
  let text_lower := lower text in
  if any_in greeting_words text_lower then "greeting"
  else if (contains "kaun" text_lower || contains "kya" text_lower
           || contains "ke" text_lower)
          && (contains "tum" text_lower || contains "aap" text_lower
              || contains "tu" text_lower)
  then "introduction"
  else if any_in weather_words text_lower then "weather"
  else if any_in food_words text_lower then "food"
  else if any_in culture_words text_lower then "culture"
  else "unknown".

(** [translate_phrase(phrase, direction)]: the whole phrase as a key
    (forward) or as a value (reverse, the first entry whose lowercased value
    is the lowercased phrase); on a miss, word by word. *)
Definition translate_phrase (d : data) (phrase : string) (direction : string)
  : string :=
  let direct :=
    if String.eqb direction "hinglish_to_kumaoni"
    then get (phrases d) (lower phrase)
    else reverse_lookup (phrases d) (lower phrase) in
  match direct with
  | Some translation => translation
  | None =>
      let words := split phrase in
      let translated_words :=
        map (fun word => translate_word d word direction) words in
      join " " translated_words
  end.

(** One element of [self.data["history"]["sessions"]]. *)
Record session : Type := {
  saved_session_id : string;
  start_time : string;
  saved_exchanges : list exchange
}.

(** The documents the chatbot writes with [save_json]: the vocabulary,
    the phrases and the conversation history.  A write that raises is
    caught in [save_json] and its result is ignored by the callers;
    [can_write] says whether writes succeed. *)
Record documents : Type := {
  vocab_document : option (dict string);
  phrases_document : option (dict string);
  history_document : option (list session);
  can_write : bool
}.

(** [learn_new_word(hinglish, kumaoni)]: the stores and the documents after
    the call.  The returned text only renders the pair (with an arrow that
    is no character of [string]) and is left out. *)
Definition learn_new_word (d : data) (docs : documents)
  (hinglish kumaoni : string) : data * documents :=
  let hinglish := strip (lower hinglish) in
  let vocab' := set (vocab d) hinglish kumaoni in
  ({| vocab := vocab'; phrases := phrases d; grammar := grammar d |},
   if can_write docs
   then {| vocab_document := Some vocab';
           phrases_document := phrases_document docs;
           history_document := history_document docs;
           can_write := can_write docs |}
   else docs).

(** [learn_new_phrase(hinglish, kumaoni)], likewise. *)
Definition learn_new_phrase (d : data) (docs : documents)
  (hinglish kumaoni : string) : data * documents :=
  let hinglish := strip (lower hinglish) in
  let phrases' := set (phrases d) hinglish kumaoni in
  ({| vocab := vocab d; phrases := phrases'; grammar := grammar d |},
   if can_write docs
   then {| vocab_document := vocab_document docs;
           phrases_document := Some phrases';
           history_document := history_document docs;
           can_write := can_write docs |}
   else docs).

(** The loop of [save_conversation_history] that stops at the first
    session with the id and gives it the current exchanges. *)
Fixpoint update_first_session (sessions : list session) (id : string)
  (current : list exchange) : list session :=
  match sessions with
  | [] => []
  | s :: rest =>
      if String.eqb (saved_session_id s) id
      then {| saved_session_id := saved_session_id s;
              start_time := start_time s;
              saved_exchanges := current |} :: rest
      else s :: update_first_session rest id current
  end.

(** [save_conversation_history()]: the sessions of [self.data["history"]]
    and the documents after the call.  [self_session_id] is
    [self.session_id] and [now] the reading of the clock, used as the start
    time of a session saved before any exchange.  A saved session holds the
    very list of the context, which later exchanges extend in place; the
    sessions here are what the call leaves and writes, and every later call
    overwrites that list again before anything reads it. *)
Definition save_conversation_history (sessions : list session)
  (ctx : conversation_context) (self_session_id now : string)
  (docs : documents) : list session * documents :=
  let sessions' :=
    if existsb (String.eqb self_session_id) (map saved_session_id sessions)
    then update_first_session sessions self_session_id (exchanges ctx)
    else (sessions
          ++ [{| saved_session_id := self_session_id;
                 start_time :=
                   match exchanges ctx with
                   | first :: _ => timestamp first
                   | [] => now
                   end;
                 saved_exchanges := exchanges ctx |}])%list in
  (sessions',
   if can_write docs
   then {| vocab_document := vocab_document docs;
           phrases_document := phrases_document docs;
           history_document := Some sessions';
           can_write := can_write docs |}
   else docs).

End Chatbot.

(** ** [src/training_module.py]: [TrainingModule] *)

Module Training.
Import PyStr PyDict.

(** One record of [corrections["words"][key]]. *)
Record correction : Type := {
  old : string;
  new : string;
  timestamp : string
}.

(** [self.data["corrections"]]: the lists of records under ["words"] and
    ["phrases"], per key. *)
Record corrections_log : Type := {
  words : dict (list correction);
  phrases_corrections : dict (list correction)
}.

(** One entry of [self.session_log["entries"]] written by [add_word]. *)
Record log_entry : Type := {
  entry_type : string;
  entry_hinglish : string;
  entry_kumaoni : string;
  entry_timestamp : string
}.

(** The two documents [add_word] writes with [save_json].  A write that
    raises is caught inside [save_json], which then returns [False]; the
    callers ignore that result.  [writable] says whether writes succeed. *)
Record disk : Type := {
  vocab_json : option (dict string);
  corrections_json : option corrections_log;
  writable : bool
}.

(** The state [add_word] reads and writes. *)
Record TrainingModule : Type := {
  vocab : dict string;
  corrections : corrections_log;
  session_entries : list log_entry;
  files : disk
}.

Definition save_vocab (f : disk) (v : dict string) : disk :=
  if writable f
  then {| vocab_json := Some v;
          corrections_json := corrections_json f;
          writable := writable f |}
  else f.

Definition save_corrections (f : disk) (c : corrections_log) : disk :=
  if writable f
  then {| vocab_json := vocab_json f;
          corrections_json := Some c;
          writable := writable f |}
  else f.

(** The [else] branch of [add_word]: [corrections["words"][hinglish]] is
    created empty when absent, then the record is appended to it. *)
Definition record_correction (c : corrections_log) (hinglish : string)
  (r : correction) : corrections_log :=
  let earlier :=
    match get (words c) hinglish with Some l => l | None => [] end in
  {| words := set (words c) hinglish (earlier ++ [r])%list;
     phrases_corrections := phrases_corrections c |}.

(** [add_word(hinglish, kumaoni)]: the returned boolean and the state after
    the call.  [now_correction] and [now_entry] are the readings of
    [datetime.datetime.now().isoformat()] for the correction record and for
    the session log entry. *)
Definition add_word (tm : TrainingModule) (hinglish kumaoni : string)
  (now_correction now_entry : string) : bool * TrainingModule :=
  let hinglish := strip (lower hinglish) in
  let kumaoni := strip kumaoni in
  let existing := get (vocab tm) hinglish in
  match existing with
  | Some e => if String.eqb e kumaoni then (false, tm) else
      let corrections' :=
        record_correction (corrections tm) hinglish
          {| old := e; new := kumaoni; timestamp := now_correction |} in
      let vocab' := set (vocab tm) hinglish kumaoni in
      let files' := save_vocab (files tm) vocab' in
      let files' :=
        match words corrections' with
        | [] => files'
        | _ => save_corrections files' corrections'
        end in
      (true,
       {| vocab := vocab';
          corrections := corrections';
          session_entries :=
            (session_entries tm
             ++ [{| entry_type := "word"; entry_hinglish := hinglish;
                    entry_kumaoni := kumaoni; entry_timestamp := now_entry |}])%list;
          files := files' |})
  | None =>
      let vocab' := set (vocab tm) hinglish kumaoni in
      let files' := save_vocab (files tm) vocab' in
      let files' :=
        match words (corrections tm) with
        | [] => files'
        | _ => save_corrections files' (corrections tm)
        end in
      (true,
       {| vocab := vocab';
          corrections := corrections tm;
          session_entries :=
            (session_entries tm
             ++ [{| entry_type := "word"; entry_hinglish := hinglish;
                    entry_kumaoni := kumaoni; entry_timestamp := now_entry |}])%list;
          files := files' |})
  end.

End Training.

(** ** The ratio test of [extract_idioms] on binary64 *)

Module Binary64.
Import PrimFloat.

(** [float(n)] for an int below 2^63. *)
Definition float_of_nat (n : nat) : float :=
  of_uint63 (Uint63.of_Z (BinInt.Z.of_nat n)).

(** [count / total >= 0.7] with the true division of Python and the
    binary64 written [0.7], which is 0x1.6666666666666p-1. *)
Definition ratio_test (count total : nat) : bool :=
  leb 0x1.6666666666666p-1%float (div (float_of_nat count) (float_of_nat total)).

End Binary64.

(** ** [src/pattern_recognizer.py]: [PatternRecognizer.extract_idioms] *)

Module PatternRecognizer.
Import PyStr PyDict.

(** One aligned pair of [self.dataset]. *)
Record item : Type := {
  hinglish : string;
  kumaoni : string
}.

(** [kumaoni_phrases[phrase].append(hinglish)] on the [defaultdict(list)]. *)
Definition append_to (d : dict (list string)) (phrase hinglish : string)
  : dict (list string) :=
  set d phrase
    (match get d phrase with
     | Some l => (l ++ [hinglish])%list
     | None => [hinglish]
     end).

(** [" ".join(kumaoni_words[i:i+n])] *)
Definition ngram (kumaoni_words : list string) (i n : nat) : string :=
  join " " (firstn n (skipn i kumaoni_words)).

(** The loop [for i in range(len(kumaoni_words) - n + 1)] under
    [if len(kumaoni_words) >= n]. *)
Definition collect_ngrams (hinglish : string) (kumaoni_words : list string)
  (d : dict (list string)) (n : nat) : dict (list string) :=
  if n <=? List.length kumaoni_words
  then fold_left
         (fun d i => append_to d (ngram kumaoni_words i n) hinglish)
         (seq 0 (List.length kumaoni_words - n + 1)) d
  else d.

(** The body of [for item in self.dataset], with [for n in range(2, 5)]. *)
Definition collect_item (d : dict (list string)) (it : item)
  : dict (list string) :=
  fold_left (collect_ngrams (hinglish it) (split (kumaoni it))) (seq 2 3) d.

(** [kumaoni_phrases] after the first loop. *)
Definition kumaoni_phrases (dataset : list item) : dict (list string) :=
  fold_left collect_item dataset [].

(** [Counter(translations)]: counts per sentence, keyed in order of first
    appearance. *)
Definition Counter (translations : list string) : dict nat :=
  fold_left
    (fun c x => set c x (match get c x with Some k => k + 1 | None => 1 end))
    translations [].

(** [counter.most_common(1)]: [heapq.nlargest(1, items, key=count)], that
    is [max] by count, which keeps the first of equal maxima. *)
Fixpoint most_common_1 (c : dict nat) : option (string * nat) :=
  match c with
  | [] => None
  | (x, k) :: rest =>
      match most_common_1 rest with
      | Some (y, m) => if m <=? k then Some (x, k) else Some (y, m)
      | None => Some (x, k)
      end
  end.

(** [most_common[1] / len(translations) >= 0.7].  The quotient of two ints
    is the binary64 nearest to the exact ratio and [0.7] is the binary64
    nearest to 7/10; rounding is monotone and 7/10 itself rounds to [0.7],
    so the test holds exactly when [count / total >= 7/10] for every total
    below 2^50 (a ratio under 7/10 is under it by at least 1/(10*total)).
    It is modelled by that exact comparison; [Binary64.ratio_test] is the
    test on binary64 itself. *)
Definition ratio_test (count total : nat) : bool :=
  7 * total <=? 10 * count.

(** The body of the second loop. *)
Definition keep_idiom (idioms : dict string)
  (entry : string * list string) : dict string :=
  let (phrase, translations) := entry in
  if 3 <=? List.length translations
  then match most_common_1 (Counter translations) with
       | Some most_common =>
           if ratio_test (snd most_common) (List.length translations)
           then set idioms phrase (fst most_common)
           else idioms
       | None => idioms
       end
  else idioms.

(** [extract_idioms()]: the returned [idioms] (the same dict is written to
    the idioms document with [save_json]). *)
Definition extract_idioms (dataset : list item) : dict string :=
  fold_left keep_idiom (kumaoni_phrases dataset) [].

(** The keyword lists of [extract_expressions]. *)
Definition greeting_words : list string :=
  ["namaste"; "namaskar"; "hello"; "hi"; "kaise"; "kas"; "shubh"].

Definition farewell_words : list string :=
  ["alvida"; "phir"; "milenge"; "bhetula"; "shubh"; "ratri"; "rati"].

Definition thanks_words : list string := ["dhanyavaad"; "shukriya"; "thanks"].

Definition apology_words : list string := ["maaf"; "maph"; "sorry"; "kshama"].

Definition question_words : list string :=
  ["kya"; "kaun"; "kahan"; "kaise"; "kyun"; "kitna"; "kitne"; "kitni"; "kab";
   "ke"; "ko"; "kakh"; "kas"; "kya"; "kati"].

Definition affirmation_words : list string :=
  ["haan"; "ho"; "yes"; "theek"; "thik"; "sahi"].

Definition negation_words : list string := ["nahi"; "na"; "no"; "mat"].

(** [any(word in hinglish_lower for word in words)
     or any(word in kumaoni_lower for word in words)] *)
Definition mentions (words : list string) (hinglish_lower kumaoni_lower : string)
  : bool :=
  existsb (fun word => contains word hinglish_lower) words
  || existsb (fun word => contains word kumaoni_lower) words.

(** The [if]/[elif] chain of [extract_expressions]: the category a pair is
    appended to, if any. *)
Definition category_of (it : item) : option string :=
  let hinglish_lower := lower (hinglish it) in
  let kumaoni_lower := lower (kumaoni it) in
  if mentions greeting_words hinglish_lower kumaoni_lower
  then Some "greetings"
  else if mentions farewell_words hinglish_lower kumaoni_lower
  then Some "farewells"
  else if mentions thanks_words hinglish_lower kumaoni_lower
  then Some "thanks"
  else if mentions apology_words hinglish_lower kumaoni_lower
  then Some "apologies"
  else if mentions question_words hinglish_lower kumaoni_lower
          || endswith hinglish_lower "?"
  then Some "questions"
  else if mentions affirmation_words hinglish_lower kumaoni_lower
  then Some "affirmations"
  else if mentions negation_words hinglish_lower kumaoni_lower
  then Some "negations"
  else None.

(** [expressions] as [extract_expressions] creates it. *)
Definition no_expressions : dict (list item) :=
  [("greetings", []); ("farewells", []); ("thanks", []); ("apologies", []);
   ("questions", []); ("affirmations", []); ("negations", [])].

(** [expressions[category].append(...)]; each category the chain names is
    a key from the start. *)
Definition file_under (expressions : dict (list item)) (category : string)
  (it : item) : dict (list item) :=
  match get expressions category with
  | Some l => set expressions category (l ++ [it])%list
  | None => expressions
  end.

(** [extract_expressions()]: the returned [expressions] (also written to
    the expressions document). *)
Definition extract_expressions (dataset : list item) : dict (list item) :=
  fold_left
    (fun expressions it =>
       match category_of it with
       | Some category => file_under expressions category it
       | None => expressions
       end)
    dataset no_expressions.

(** [collocations[word][next_word] += 1] on the [defaultdict(Counter)]. *)
Definition bump (collocations : dict (dict nat)) (word next_word : string)
  : dict (dict nat) :=
  let co_words :=
    match get collocations word with Some c => c | None => [] end in
  set collocations word
    (set co_words next_word
       (match get co_words next_word with Some k => k + 1 | None => 1 end)).

(** The body of the first loop of [extract_collocations]. *)
Definition collect_pairs (collocations : dict (dict nat)) (it : item)
  : dict (dict nat) :=
  let kumaoni_words := split (lower (kumaoni it)) in
  if 2 <=? List.length kumaoni_words
  then fold_left
         (fun collocations i =>
            bump collocations
                 (nth i kumaoni_words EmptyString)
                 (nth (i + 1) kumaoni_words EmptyString))
         (seq 0 (List.length kumaoni_words - 1)) collocations
  else collocations.

(** [sorted(items, key=count, reverse=True)], which keeps entries of equal
    count in their stored order: an entry goes before the first entry
    whose count is not larger. *)
Fixpoint insert_by_count (x : string * nat) (l : list (string * nat))
  : list (string * nat) :=
  match l with
  | [] => [x]
  | y :: rest =>
      if snd y <=? snd x then x :: y :: rest
      else y :: insert_by_count x rest
  end.

Definition sorted_by_count (c : dict nat) : list (string * nat) :=
  fold_right insert_by_count [] c.

(** [counter.most_common(n)] for a given [n]: [heapq.nlargest(n, ...)],
    the first [n] of the entries sorted as above. *)
Definition most_common (n : nat) (c : dict nat) : list (string * nat) :=
  firstn n (sorted_by_count c).

(** The body of the second loop of [extract_collocations]; an entry of a
    list is the pair of its ["word"] and its ["count"]. *)
Definition keep_collocations (result : dict (list (string * nat)))
  (entry : string * dict nat) : dict (list (string * nat)) :=
  let (word, co_words) := entry in
  if 2 <=? List.length co_words
  then set result word
         (filter (fun wc => 2 <=? snd wc) (most_common 3 co_words))
  else result.

(** [extract_collocations()]: the returned [result] (also written to the
    collocations document). *)
Definition extract_collocations (dataset : list item)
  : dict (list (string * nat)) :=
  let collocations := fold_left collect_pairs dataset [] in
  let result := fold_left keep_collocations collocations [] in
  filter (fun entry => match snd entry with [] => false | _ => true end) result.

(** What a [PatternRecognizer] has loaded. *)
Record recognizer : Type := {
  idioms : dict string;
  expressions : dict (list item);
  collocations : dict (list (string * nat))
}.

Record idiom_hit : Type := { idiom : string; meaning : string }.

Record expression_hit : Type := {
  expression : string;
  expression_hinglish : string;
  category : string
}.

Record collocation_hit : Type := { word : string; collocate : string }.

(** The [results] of [recognize_patterns]. *)
Record recognized : Type := {
  found_idioms : list idiom_hit;
  found_expressions : list expression_hit;
  found_collocations : list collocation_hit
}.

(** The test of the third loop of [recognize_patterns]. *)
Definition is_collocation (r : recognizer) (word next_word : string) : bool :=
  match get (collocations r) word with
  | Some l => existsb (fun wc => String.eqb (fst wc) next_word) l
  | None => false
  end.

(** [recognize_patterns(text)] *)
Definition recognize_patterns (r : recognizer) (text : string) : recognized :=
  let words := split (lower text) in
  {| found_idioms :=
       flat_map
         (fun entry =>
            if contains (lower (fst entry)) (lower text)
            then [{| idiom := fst entry; meaning := snd entry |}]
            else [])
         (idioms r);
     found_expressions :=
       flat_map
         (fun entry =>
            flat_map
              (fun e =>
                 if contains (lower (kumaoni e)) (lower text)
                 then [{| expression := kumaoni e;
                          expression_hinglish := hinglish e;
                          category := fst entry |}]
                 else [])
              (snd entry))
         (expressions r);
     found_collocations :=
       flat_map
         (fun i =>
            let word := nth i words EmptyString in
            let next_word := nth (i + 1) words EmptyString in
            if is_collocation r word next_word
            then [{| word := word; collocate := next_word |}]
            else [])
         (seq 0 (List.length words - 1)) |}.

End PatternRecognizer.

(** ** [src/training_module.py]: the other teaching operations *)

Module Trainer.
Import PyStr PyDict.

(** One entry of [self.session_log["entries"]]: words, phrases and
    examples are logged with a type, the pair and a timestamp; idioms and
    grammar rules with fields of their own. *)
Inductive entry : Type :=
| pair_entry (e : Training.log_entry)
| idiom_entry (kumaoni meaning timestamp : string)
| grammar_entry (category hinglish kumaoni timestamp : string).

(** The documents the operations write: those of [add_word], and the
    phrases, idioms, grammar rules and dataset.  Writes succeed or fail
    together, as [Training.writable] of the first says. *)
Record documents : Type := {
  word_documents : Training.disk;
  phrases_json : option (dict string);
  idioms_json : option (dict string);
  grammar_json : option (dict (dict string));
  dataset_json : option (list PatternRecognizer.item)
}.

(** [self.data] and the session log, as the operations below use them. *)
Record state : Type := {
  vocab : dict string;
  phrases : dict string;
  grammar : dict (dict string);
  idioms : dict string;
  corrections : Training.corrections_log;
  dataset : list PatternRecognizer.item;
  entries : list entry;
  files : documents
}.

Definition can_write (f : documents) : bool :=
  Training.writable (word_documents f).

Definition save_phrases (f : documents) (v : dict string) : documents :=
  if can_write f
  then {| word_documents := word_documents f; phrases_json := Some v;
          idioms_json := idioms_json f; grammar_json := grammar_json f;
          dataset_json := dataset_json f |}
  else f.

Definition save_idioms (f : documents) (v : dict string) : documents :=
  if can_write f
  then {| word_documents := word_documents f; phrases_json := phrases_json f;
          idioms_json := Some v; grammar_json := grammar_json f;
          dataset_json := dataset_json f |}
  else f.

Definition save_grammar (f : documents) (v : dict (dict string)) : documents :=
  if can_write f
  then {| word_documents := word_documents f; phrases_json := phrases_json f;
          idioms_json := idioms_json f; grammar_json := Some v;
          dataset_json := dataset_json f |}
  else f.

Definition save_dataset (f : documents) (v : list PatternRecognizer.item)
  : documents :=
  if can_write f
  then {| word_documents := word_documents f; phrases_json := phrases_json f;
          idioms_json := idioms_json f; grammar_json := grammar_json f;
          dataset_json := Some v |}
  else f.

Definition save_corrections (f : documents) (c : Training.corrections_log)
  : documents :=
  {| word_documents := Training.save_corrections (word_documents f) c;
     phrases_json := phrases_json f; idioms_json := idioms_json f;
     grammar_json := grammar_json f; dataset_json := dataset_json f |}.

(** What [Training.add_word] reads of the state; its log starts empty and
    comes back with the entries the call adds. *)
Definition words_view (st : state) : Training.TrainingModule :=
  {| Training.vocab := vocab st;
     Training.corrections := corrections st;
     Training.session_entries := [];
     Training.files := word_documents (files st) |}.

(** [add_word(hinglish, kumaoni)] on the whole state. *)
Definition add_word (st : state) (hinglish kumaoni : string)
  (now_correction now_entry : string) : bool * state :=
  let (written, tm) :=
    Training.add_word (words_view st) hinglish kumaoni
      now_correction now_entry in
  (written,
   {| vocab := Training.vocab tm;
      phrases := phrases st;
      grammar := grammar st;
      idioms := idioms st;
      corrections := Training.corrections tm;
      dataset := dataset st;
      entries := (entries st ++ map pair_entry (Training.session_entries tm))%list;
      files :=
        {| word_documents := Training.files tm;
           phrases_json := phrases_json (files st);
           idioms_json := idioms_json (files st);
           grammar_json := grammar_json (files st);
           dataset_json := dataset_json (files st) |} |}).

(** The [else] branch of [add_phrase]. *)
Definition record_phrase_correction (c : Training.corrections_log)
  (hinglish : string) (r : Training.correction) : Training.corrections_log :=
  let earlier :=
    match get (Training.phrases_corrections c) hinglish with
    | Some l => l
    | None => []
    end in
  {| Training.words := Training.words c;
     Training.phrases_corrections :=
       set (Training.phrases_corrections c) hinglish (earlier ++ [r])%list |}.

(** [add_phrase] from the assignment to [self.data["phrases"]] on, with
    the normalised pair and the corrections as the branch left them. *)
Definition store_phrase (st : state) (hinglish kumaoni : string)
  (corrections' : Training.corrections_log) (now_entry : string) : state :=
  let phrases' := set (phrases st) hinglish kumaoni in
  let files' := save_phrases (files st) phrases' in
  let files' :=
    match Training.phrases_corrections corrections' with
    | [] => files'
    | _ => save_corrections files' corrections'
    end in
  {| vocab := vocab st;
     phrases := phrases';
     grammar := grammar st;
     idioms := idioms st;
     corrections := corrections';
     dataset := dataset st;
     entries :=
       (entries st
        ++ [pair_entry
              {| Training.entry_type := "phrase";
                 Training.entry_hinglish := hinglish;
                 Training.entry_kumaoni := kumaoni;
                 Training.entry_timestamp := now_entry |}])%list;
     files := files' |}.

(** [add_phrase(hinglish, kumaoni)] *)
Definition add_phrase (st : state) (hinglish kumaoni : string)
  (now_correction now_entry : string) : bool * state :=
  let hinglish := strip (lower hinglish) in
  let kumaoni := strip kumaoni in
  match get (phrases st) hinglish with
  | Some existing =>
      if String.eqb existing kumaoni then (false, st)
      else
        (true,
         store_phrase st hinglish kumaoni
           (record_phrase_correction (corrections st) hinglish
              {| Training.old := existing; Training.new := kumaoni;
                 Training.timestamp := now_correction |})
           now_entry)
  | None => (true, store_phrase st hinglish kumaoni (corrections st) now_entry)
  end.

(** [add_idiom(kumaoni, meaning)] *)
Definition add_idiom (st : state) (kumaoni meaning : string) (now : string)
  : bool * state :=
  let kumaoni := strip kumaoni in
  let meaning := strip meaning in
  let idioms' := set (idioms st) kumaoni meaning in
  (true,
   {| vocab := vocab st;
      phrases := phrases st;
      grammar := grammar st;
      idioms := idioms';
      corrections := corrections st;
      dataset := dataset st;
      entries := (entries st ++ [idiom_entry kumaoni meaning now])%list;
      files := save_idioms (files st) idioms' |}).

(** The loop of [add_example]: some item of the dataset is the pair. *)
Definition has_example (dataset : list PatternRecognizer.item)
  (hinglish kumaoni : string) : bool :=
  existsb
    (fun item =>
       String.eqb (PatternRecognizer.hinglish item) hinglish
       && String.eqb (PatternRecognizer.kumaoni item) kumaoni)
    dataset.

(** [add_example(hinglish, kumaoni)] *)
Definition add_example (st : state) (hinglish kumaoni : string) (now : string)
  : bool * state :=
  let hinglish := strip hinglish in
  let kumaoni := strip kumaoni in
  if has_example (dataset st) hinglish kumaoni then (false, st)
  else
    let dataset' :=
      (dataset st
       ++ [{| PatternRecognizer.hinglish := hinglish;
              PatternRecognizer.kumaoni := kumaoni |}])%list in
    (true,
     {| vocab := vocab st;
        phrases := phrases st;
        grammar := grammar st;
        idioms := idioms st;
        corrections := corrections st;
        dataset := dataset';
        entries :=
          (entries st
           ++ [pair_entry
                 {| Training.entry_type := "example";
                    Training.entry_hinglish := hinglish;
                    Training.entry_kumaoni := kumaoni;
                    Training.entry_timestamp := now |}])%list;
        files := save_dataset (files st) dataset' |}).

(** [add_grammar_rule(category, hinglish, kumaoni)]: a category that is
    not there yet is created empty, at the end. *)
Definition add_grammar_rule (st : state) (category hinglish kumaoni : string)
  (now : string) : bool * state :=
  let hinglish := strip (lower hinglish) in
  let kumaoni := strip kumaoni in
  let rules :=
    match get (grammar st) category with Some rules => rules | None => [] end in
  let grammar' := set (grammar st) category (set rules hinglish kumaoni) in
  (true,
   {| vocab := vocab st;
      phrases := phrases st;
      grammar := grammar';
      idioms := idioms st;
      corrections := corrections st;
      dataset := dataset st;
      entries :=
        (entries st ++ [grammar_entry category hinglish kumaoni now])%list;
      files := save_grammar (files st) grammar' |}).

(** The entries of a store that [search] reports: the query occurs in the
    lowercased key or in the lowercased value. *)
Definition matching (query : string) (d : dict string) : list (string * string) :=
  filter
    (fun e => contains query (lower (fst e)) || contains query (lower (snd e)))
    d.

(** The [results] of [search]. *)
Record search_results : Type := {
  found_words : list (string * string);
  found_phrases : list (string * string);
  found_idioms : list (string * string)
}.

(** [search(query)] *)
Definition search (st : state) (query : string) : search_results :=
  let query := strip (lower query) in
  {| found_words := matching query (vocab st);
     found_phrases := matching query (phrases st);
     found_idioms := matching query (idioms st) |}.

(** A field of the JSON documents [export_data] writes and [bulk_import]
    reads, as far as the two tell values apart: an object of strings, a
    list of objects of strings, an object of objects of strings.  Fields
    of other kinds are outside the model. *)
Inductive field : Type :=
| strings_field (d : dict string)
| objects_field (l : list (dict string))
| rules_field (g : dict (dict string)).

Definition document : Type := dict field.

(** An item of the dataset as a JSON object. *)
Definition item_object (it : PatternRecognizer.item) : dict string :=
  [("hinglish", PatternRecognizer.hinglish it);
   ("kumaoni", PatternRecognizer.kumaoni it)].

(** [export_data(file_path)]: the object [export_data] that is dumped,
    which the file holds when the write succeeds. *)
Definition export_data (st : state) : document :=
  [("vocab", strings_field (vocab st));
   ("phrases", strings_field (phrases st));
   ("grammar", rules_field (grammar st));
   ("idioms", strings_field (idioms st));
   ("dataset", objects_field (map item_object (dataset st)))].

(** A loop of [bulk_import] over the entries of an object of strings;
    [add] is [add_word] or [add_phrase].  The loop carries the state, the
    number of calls that returned [True] and the number of readings of the
    clock taken so far: the call for an entry has two readings. *)
Definition import_pairs
  (add : state -> string -> string -> string -> string -> bool * state)
  (clock : nat -> string) (pairs : dict string) (start : state * nat * nat)
  : state * nat * nat :=
  fold_left
    (fun progress entry =>
       let '(st, added, tick) := progress in
       let (written, st') :=
         add st (fst entry) (snd entry) (clock tick) (clock (S tick)) in
       (st', (if written then S added else added), tick + 2))
    pairs start.

(** The loop over the examples: an object without one of the two names
    is passed over. *)
Definition import_examples (clock : nat -> string)
  (examples : list (dict string)) (start : state * nat * nat)
  : state * nat * nat :=
  fold_left
    (fun progress example =>
       let '(st, added, tick) := progress in
       match get example "hinglish", get example "kumaoni" with
       | Some hinglish, Some kumaoni =>
           let (written, st') := add_example st hinglish kumaoni (clock tick) in
           (st', (if written then S added else added), tick + 1)
       | _, _ => progress
       end)
    examples start.

(** The words or the phrases of the document.  [None] stands for an
    exception, which nothing stored precedes: a list has no [items()], and
    for an entry whose value is an object [kumaoni.strip()] raises at the
    top of [add_word] and of [add_phrase]. *)
Definition import_strings
  (add : state -> string -> string -> string -> string -> bool * state)
  (clock : nat -> string) (f : option field) (start : state * nat * nat)
  : option (state * nat * nat) :=
  match f with
  | None => Some start
  | Some (strings_field d) => Some (import_pairs add clock d start)
  | Some (objects_field _) => None
  | Some (rules_field []) => Some start
  | Some (rules_field (_ :: _)) => None
  end.

(** The test that an example has the names hinglish and kumaoni, when
    the example is a string, as it is when the examples are an object,
    whose iteration gives its names: both words occur in the string. *)
Definition both_names (example : string) : bool :=
  contains "hinglish" example && contains "kumaoni" example.

(** The examples of the document.  Over an object the loop passes over
    the names that lack one of the two words and raises at the first that
    has both, where the string is indexed by a name. *)
Definition import_objects (clock : nat -> string) (f : option field)
  (start : state * nat * nat) : option (state * nat * nat) :=
  match f with
  | None => Some start
  | Some (objects_field l) => Some (import_examples clock l start)
  | Some (strings_field d) =>
      if existsb both_names (keys d) then None else Some start
  | Some (rules_field g) =>
      if existsb both_names (keys g) then None else Some start
  end.

(** What [bulk_import] leaves: [completed] when it returns [True], with
    the three numbers it prints; [failed] when an exception is caught and
    it returns [False]: what was stored before stays. *)
Inductive import_result : Type :=
| completed (st : state) (words_added phrases_added examples_added : nat)
| failed (st : state).

(** [bulk_import(file_path)] from [import_data], the document the file
    holds, on; [clock] gives the readings of the clock in order. *)
Definition bulk_import (st : state) (import_data : document)
  (clock : nat -> string) : import_result :=
  match import_strings add_word clock (get import_data "words") (st, 0, 0) with
  | None => failed st
  | Some (st1, words_added, tick1) =>
      match import_strings add_phrase clock (get import_data "phrases")
              (st1, 0, tick1) with
      | None => failed st1
      | Some (st2, phrases_added, tick2) =>
          match import_objects clock (get import_data "examples")
                  (st2, 0, tick2) with
          | None => failed st2
          | Some (st3, examples_added, _) =>
              completed st3 words_added phrases_added examples_added
          end
      end
  end.

End Trainer.

(** ** Notions the properties are stated with *)

Module Props.
Import PyStr PyDict.

(** The token [translate_word] and [detect_language] look up: lowercased,
    then stripped of the punctuation at both ends. *)
Definition clean (word : string) : string :=
  strip_chars Chatbot.punctuation (lower word).

(** The key [add_word] stores a word under. *)
Definition normal_key (hinglish : string) : string := strip (lower hinglish).

(** The two directions the specification names. *)
Definition recognized_direction (direction : string) : bool :=
  existsb (String.eqb direction) ["hinglish_to_kumaoni"; "kumaoni_to_hinglish"].

(** The message of a rejected preference. *)
Definition invalid_preference : string :=
  "Invalid language preference. Use 'kumaoni', 'hinglish', or 'mixed'.".

(** The tokens [detect_language] votes on. *)
Definition tokens (text : string) : list string :=
  map (strip_chars Chatbot.punctuation) (split (lower text)).

Definition is_key (d : Chatbot.data) (w : string) : bool :=
  mem (Chatbot.vocab d) w.

Definition is_value (d : Chatbot.data) (w : string) : bool :=
  existsb (String.eqb w) (values (Chatbot.vocab d)).

(** Three votes for every element of [l] that occurs in the lowercased
    text. *)
Definition phrase_votes (l : list string) (text : string) : nat :=
  3 * List.length (filter (fun p => contains p (lower text)) l).

(** The Hinglish total: one vote per token that is a vocabulary key, three
    per phrase key occurring in the text. *)
Definition hinglish_votes (d : Chatbot.data) (text : string) : nat :=
  List.length (filter (is_key d) (tokens text))
  + phrase_votes (keys (Chatbot.phrases d)) text.

(** The Kumaoni total as the specification words it: one vote per token
    found among the vocabulary values, three per phrase value occurring. *)
Definition kumaoni_votes_as_specified (d : Chatbot.data) (text : string) : nat :=
  List.length (filter (is_value d) (tokens text))
  + phrase_votes (values (Chatbot.phrases d)) text.

(** The Kumaoni total the code keeps: a token votes Kumaoni only when it is
    a vocabulary value and not a vocabulary key. *)
Definition kumaoni_votes (d : Chatbot.data) (text : string) : nat :=
  List.length (filter (fun w => negb (is_key d w) && is_value d w) (tokens text))
  + phrase_votes (values (Chatbot.phrases d)) text.

(** The n-gram of [n] words starting at word [i] of the sentence is [p]. *)
Definition occurs_at (kumaoni_words : list string) (p : string) (i n : nat)
  : bool :=
  (i + n <=? List.length kumaoni_words)
  && String.eqb (PatternRecognizer.ngram kumaoni_words i n) p.

(** How often [p] occurs in a sentence as an n-gram of [n] words. *)
Definition occurrences_of_length (kumaoni_words : list string) (p : string)
  (n : nat) : nat :=
  List.length (filter (fun i => occurs_at kumaoni_words p i n)
                      (seq 0 (List.length kumaoni_words))).

(** How often [p] occurs in a sentence as a 2-, 3- or 4-gram. *)
Definition occurrences (kumaoni_words : list string) (p : string) : nat :=
  occurrences_of_length kumaoni_words p 2
  + occurrences_of_length kumaoni_words p 3
  + occurrences_of_length kumaoni_words p 4.

(** The Hinglish sentences aligned with the occurrences of [p] across the
    corpus, one per occurrence, in corpus order. *)
Definition aligned (dataset : list PatternRecognizer.item) (p : string)
  : list string :=
  flat_map
    (fun it =>
       repeat (PatternRecognizer.hinglish it)
              (occurrences (split (PatternRecognizer.kumaoni it)) p))
    dataset.

(** How often the sentence [m] is among [l]. *)
Definition times (m : string) (l : list string) : nat :=
  count_occ string_dec l m.

(** The verb-ending rule for [ending] applies to a token: the token is a
    non-empty remainder followed by the ending. *)
Definition ending_applies (token ending : string) : Prop :=
  exists stem, stem <> EmptyString /\ token = stem ++ ending.

(** [old] occurs in [s] right after [pre], and nowhere further left. *)
Definition leftmost_at (pre old post s : string) : Prop :=
  s = pre ++ old ++ post
  /\ forall a b, s = a ++ old ++ b -> String.length pre <= String.length a.

(** [old] occurs somewhere in [s]. *)
Definition occurs_in (old s : string) : Prop :=
  exists a b, s = a ++ old ++ b.

(** The exact ratio test and the binary64 one agree for every count up to
    the total, for the totals 1 to [bound]. *)
Definition ratio_tests_agree (bound : nat) : bool :=
  forallb
    (fun total =>
       forallb
         (fun count =>
            Bool.eqb (Binary64.ratio_test count total)
                     (PatternRecognizer.ratio_test count total))
         (seq 0 (S total)))
    (seq 1 bound).

(** The list stored under a key of a dict of lists, empty when absent. *)
Definition stored {V} (d : dict (list V)) (k : string) : list V :=
  match get d k with Some l => l | None => [] end.

(** The count stored under a key of a [Counter], zero when absent. *)
Definition counted (c : dict nat) (x : string) : nat :=
  match get c x with Some k => k | None => 0 end.

(** What the second loop of [extract_idioms] decides for the sentences
    aligned with one n-gram: the meaning kept, if any. *)
Definition verdict (translations : list string) : option string :=
  if 3 <=? List.length translations
  then match PatternRecognizer.most_common_1
               (PatternRecognizer.Counter translations) with
       | Some most_common =>
           if PatternRecognizer.ratio_test (snd most_common)
                (List.length translations)
           then Some (fst most_common)
           else None
       | None => None
       end
  else None.

(** A dict of lists as [kumaoni_phrases] builds it: each key once, no
    empty list. *)
Definition kept_lists (d : dict (list string)) : Prop :=
  wf d /\ forall q l, get d q = Some l -> l <> [].

(** One step of [Counter]. *)
Definition count_one (c : dict nat) (x : string) : dict nat :=
  set c x (match get c x with Some k => k + 1 | None => 1 end).

(** A [Counter] as built: each key once, no zero count. *)
Definition kept_counts (c : dict nat) : Prop :=
  wf c /\ forall x k, get c x = Some k -> 1 <= k.

(** The grammar rules as the chatbot reads them from the document the
    training module writes: the four categories [translate_word] looks up,
    each of which must be there. *)
Definition chatbot_grammar (g : dict (dict string))
  : option Chatbot.grammar_rules :=
  match get g "verb_endings", get g "postpositions",
        get g "pronouns", get g "question_words" with
  | Some v, Some po, Some pr, Some q =>
      Some {| Chatbot.verb_endings := v; Chatbot.postpositions := po;
              Chatbot.pronouns := pr; Chatbot.question_words := q |}
  | _, _, _, _ => None
  end.

(** The first saved session with the id. *)
Definition find_session (sessions : list Chatbot.session) (id : string)
  : option Chatbot.session :=
  find (fun s => String.eqb (Chatbot.saved_session_id s) id) sessions.

(** The saved sessions of the other ids, in order. *)
Definition other_sessions (sessions : list Chatbot.session) (id : string)
  : list Chatbot.session :=
  filter (fun s => negb (String.eqb (Chatbot.saved_session_id s) id)) sessions.

(** The pairs of neighbouring words of a sentence, left to right. *)
Definition neighbours (words : list string) : list (string * string) :=
  combine words (tl words).

(** How often [next_word] comes right after [word] in the lowercased
    Kumaoni sentences of the corpus. *)
Definition follows (dataset : list PatternRecognizer.item)
  (word next_word : string) : nat :=
  list_sum
    (map
       (fun it =>
          List.length
            (filter
               (fun pair =>
                  String.eqb (fst pair) word && String.eqb (snd pair) next_word)
               (neighbours (split (lower (PatternRecognizer.kumaoni it))))))
       dataset).

(** Counts never rise along the list. *)
Fixpoint descending (l : list (string * nat)) : Prop :=
  match l with
  | [] => True
  | x :: rest => (forall y, In y rest -> snd y <= snd x) /\ descending rest
  end.

(** The pairs of the corpus that [extract_expressions] files under a
    category, in corpus order. *)
Definition filed_under (dataset : list PatternRecognizer.item)
  (category : string) : list PatternRecognizer.item :=
  filter
    (fun it =>
       match PatternRecognizer.category_of it with
       | Some c => String.eqb c category
       | None => false
       end)
    dataset.

(** The names of the seven categories of [extract_expressions]. *)
Definition expression_categories : list string :=
  ["greetings"; "farewells"; "thanks"; "apologies"; "questions";
   "affirmations"; "negations"].

(** The six answers of [detect_intent]. *)
Definition intents : list string :=
  ["greeting"; "introduction"; "weather"; "food"; "culture"; "unknown"].

(** A dict of dicts as [extract_collocations] builds it: each word once,
    and under it a [Counter] as built. *)
Definition kept_pairs (c : dict (dict nat)) : Prop :=
  wf c /\ forall w co, get c w = Some co -> kept_counts co.

(** The count of a pair in a dict of counters, zero when absent. *)
Definition pair_count (c : dict (dict nat)) (w n : string) : nat :=
  match get c w with Some co => counted co n | None => 0 end.

(** What the second loop of [extract_collocations] decides for one word. *)
Definition ranked (co_words : dict nat) : option (list (string * nat)) :=
  if 2 <=? List.length co_words
  then Some (filter (fun wc => 2 <=? snd wc)
                    (PatternRecognizer.most_common 3 co_words))
  else None.

(** The Kumaoni form a grammar document gives for a Hinglish form of a
    category, if any. *)
Definition grammar_rule (g : dict (dict string)) (category form : string)
  : option string :=
  match get g category with
  | Some rules => get rules form
  | None => None
  end.

(** The names of an object of strings differ once normalised, as the
    keys [add_word] and [add_phrase] store them under. *)
Definition normal_keys_once (f : option Trainer.field) : Prop :=
  match f with
  | Some (Trainer.strings_field d) => NoDup (map normal_key (keys d))
  | _ => True
  end.

(** Every entry of an object of strings is stored, normalised, in a
    dict. *)
Definition all_stored (pairs store : dict string) : Prop :=
  forall h k, In (h, k) pairs -> get store (normal_key h) = Some (strip k).

(** Every object of the list that has both names is in the dataset, as
    the pair [add_example] stores for it. *)
Definition examples_stored (examples : list (dict string))
  (dataset : list PatternRecognizer.item) : Prop :=
  forall example h k,
    In example examples ->
    get example "hinglish" = Some h -> get example "kumaoni" = Some k ->
    In {| PatternRecognizer.hinglish := strip h;
          PatternRecognizer.kumaoni := strip k |} dataset.

(** The pair [add_example] stores for its arguments. *)
Definition example_of (hinglish kumaoni : string) : PatternRecognizer.item :=
  {| PatternRecognizer.hinglish := strip hinglish;
     PatternRecognizer.kumaoni := strip kumaoni |}.

End Props.

(** ** Stores the properties are tried on *)

Module Examples.
Import PyStr PyDict.

Definition no_grammar : Chatbot.grammar_rules := {|
  Chatbot.verb_endings := [];
  Chatbot.postpositions := [];
  Chatbot.pronouns := [];
  Chatbot.question_words := []
|}.

(** The pronoun main and the verb ending na, nothing else. *)
Definition store_main_na : Chatbot.data := {|
  Chatbot.vocab := [];
  Chatbot.phrases := [];
  Chatbot.grammar := {|
    Chatbot.verb_endings := [("na", "no")];
    Chatbot.postpositions := [];
    Chatbot.pronouns := [("main", "ma")];
    Chatbot.question_words := []
  |}
|}.

(** A verb-ending table whose only rule has the empty suffix, as
    [add_grammar_rule] stores it when the Hinglish form is left blank. *)
Definition store_blank_ending : Chatbot.data := {|
  Chatbot.vocab := [];
  Chatbot.phrases := [];
  Chatbot.grammar := {|
    Chatbot.verb_endings := [(EmptyString, "o")];
    Chatbot.postpositions := [];
    Chatbot.pronouns := [];
    Chatbot.question_words := []
  |}
|}.

(** The built-in grammar rules with the phrase kaise ho. *)
Definition store_kaise_ho : Chatbot.data := {|
  Chatbot.vocab := [];
  Chatbot.phrases := [("kaise ho", "kas cha")];
  Chatbot.grammar := Chatbot.default_grammar_rules
|}.

(** The phrase kaise ho and the word kaise, no other rule. *)
Definition store_kaise_only : Chatbot.data := {|
  Chatbot.vocab := [("kaise", "kas")];
  Chatbot.phrases := [("kaise ho", "kas cha")];
  Chatbot.grammar := no_grammar
|}.

(** Two phrases that overlap in the sentence kaise ho gaya. *)
Definition store_overlap : Chatbot.data := {|
  Chatbot.vocab := [];
  Chatbot.phrases := [("kaise ho", "kas cha"); ("ho gaya", "hai go")];
  Chatbot.grammar := no_grammar
|}.

(** The word ke is both a Hinglish key and a Kumaoni value. *)
Definition store_ke : Chatbot.data := {|
  Chatbot.vocab := [("kya", "ke"); ("ke", "ka")];
  Chatbot.phrases := [];
  Chatbot.grammar := no_grammar
|}.

(** Entries that do not survive the round trip, and one that does. *)
Definition store_round_trip : Chatbot.data := {|
  Chatbot.vocab :=
    [("haan", "ho!"); ("dr.", "daktar"); ("aaram", "ram"); ("ram", "Ram");
     ("ghar", "Kud")];
  Chatbot.phrases := [];
  Chatbot.grammar := Chatbot.default_grammar_rules
|}.

Definition context_mixed : Chatbot.conversation_context := {|
  Chatbot.session_id := "20240101120000";
  Chatbot.exchanges := [];
  Chatbot.current_topic := None;
  Chatbot.user_name := None;
  Chatbot.language_preference := "mixed"
|}.

Definition blank_disk : Training.disk := {|
  Training.vocab_json := None;
  Training.corrections_json := None;
  Training.writable := true
|}.

(** A training state that knows ghar as gher and has no corrections. *)
Definition training_ghar : Training.TrainingModule := {|
  Training.vocab := [("ghar", "gher")];
  Training.corrections :=
    {| Training.words := []; Training.phrases_corrections := [] |};
  Training.session_entries := [];
  Training.files := blank_disk
|}.

(** A corpus in which kas cha occurs three times, always with kaise ho,
    and bhal cha twice. *)
Definition corpus_kas_cha : list PatternRecognizer.item :=
  [ {| PatternRecognizer.hinglish := "kaise ho";
       PatternRecognizer.kumaoni := "kas cha" |};
    {| PatternRecognizer.hinglish := "kaise ho";
       PatternRecognizer.kumaoni := "kas cha" |};
    {| PatternRecognizer.hinglish := "kaise ho";
       PatternRecognizer.kumaoni := "kas cha" |};
    {| PatternRecognizer.hinglish := "achha hai";
       PatternRecognizer.kumaoni := "bhal cha" |};
    {| PatternRecognizer.hinglish := "achha hai";
       PatternRecognizer.kumaoni := "bhal cha" |} ].

Definition blank_documents : Chatbot.documents := {|
  Chatbot.vocab_document := None;
  Chatbot.phrases_document := None;
  Chatbot.history_document := None;
  Chatbot.can_write := true
|}.

(** A training state with nothing learnt yet. *)
Definition trainer_start : Trainer.state := {|
  Trainer.vocab := [];
  Trainer.phrases := [];
  Trainer.grammar := [];
  Trainer.idioms := [];
  Trainer.corrections :=
    {| Training.words := []; Training.phrases_corrections := [] |};
  Trainer.dataset := [];
  Trainer.entries := [];
  Trainer.files :=
    {| Trainer.word_documents := blank_disk;
       Trainer.phrases_json := None;
       Trainer.idioms_json := None;
       Trainer.grammar_json := None;
       Trainer.dataset_json := None |}
|}.

(** A training state that knows one phrase, one idiom and one example. *)
Definition trainer_taught : Trainer.state := {|
  Trainer.vocab := [("ghar", "gher"); ("pani", "paani")];
  Trainer.phrases := [("kaise ho", "kas cha")];
  Trainer.grammar :=
    [("verb_endings", [("na", "no")]); ("postpositions", [("ka", "ko")]);
     ("pronouns", [("main", "ma")]); ("question_words", [("kya", "ke")])];
  Trainer.idioms := [("bado balo", "very good")];
  Trainer.corrections :=
    {| Training.words := []; Training.phrases_corrections := [] |};
  Trainer.dataset :=
    [{| PatternRecognizer.hinglish := "kaise ho";
        PatternRecognizer.kumaoni := "kas cha" |}];
  Trainer.entries := [];
  Trainer.files :=
    {| Trainer.word_documents := blank_disk;
       Trainer.phrases_json := None;
       Trainer.idioms_json := None;
       Trainer.grammar_json := None;
       Trainer.dataset_json := None |}
|}.

(** A corpus in which cha follows kas three times and bhal twice, and
    balo follows bado once. *)
(** A document to import and the readings of two clocks. *)
Definition import_file : Trainer.document :=
  [("words", Trainer.strings_field [("Ghar", "ghar "); (" pani", "paani")]);
   ("phrases", Trainer.strings_field [("Kaise ho", "kas cha")]);
   ("examples",
    Trainer.objects_field
      [[("hinglish", "kaise ho"); ("kumaoni", "kas cha")];
       [("hinglish", "only one name")];
       [("hinglish", " kaise ho"); ("kumaoni", "kas cha ")]])].

Definition first_clock (tick : nat) : string :=
  if Nat.even tick then "monday" else "tuesday".

Definition later_clock (tick : nat) : string := "friday".

(** The state an import leaves, completed or not. *)
Definition after_import (r : Trainer.import_result) : Trainer.state :=
  match r with
  | Trainer.completed st _ _ _ => st
  | Trainer.failed st => st
  end.

(** A refusal: its Hinglish has the word nahi. *)
Definition refusal : PatternRecognizer.item :=
  {| PatternRecognizer.hinglish := "Main nahi aaunga";
     PatternRecognizer.kumaoni := "Mi ni aunl" |}.

Definition corpus_pairs : list PatternRecognizer.item :=
  [ {| PatternRecognizer.hinglish := "kaise ho";
       PatternRecognizer.kumaoni := "Kas cha" |};
    {| PatternRecognizer.hinglish := "tum kaise ho";
       PatternRecognizer.kumaoni := "tum kas cha" |};
    {| PatternRecognizer.hinglish := "kaise ho bhai";
       PatternRecognizer.kumaoni := "kas cha dajyu" |};
    {| PatternRecognizer.hinglish := "kaisa chal raha hai";
       PatternRecognizer.kumaoni := "kas chal cha" |};
    {| PatternRecognizer.hinglish := "kaisa chal raha";
       PatternRecognizer.kumaoni := "kas chal" |};
    {| PatternRecognizer.hinglish := "bahut achha";
       PatternRecognizer.kumaoni := "bado balo" |};
    {| PatternRecognizer.hinglish := "nahi";
       PatternRecognizer.kumaoni := "nai" |} ].

End Examples.

(** ** Facts about the built-ins *)

Import PyStr PyDict Props.

Section DictFacts.
Context {V : Type}.
Implicit Types (d : dict V) (k : string) (v : V).

Lemma get_set_same d k v : get (set d k v) k = Some v.
Proof.
  induction d as [|[k' v'] rest IH]; simpl.
  - now rewrite String.eqb_refl.
  - destruct (String.eqb k k') eqn:E; simpl; rewrite E; auto.
Qed.

Lemma get_set_other d k k' v : k' <> k -> get (set d k v) k' = get d k'.
Proof.
  intros N. induction d as [|[k0 v0] rest IH]; simpl.
  - apply String.eqb_neq in N. now rewrite N.
  - destruct (String.eqb k k0) eqn:E; simpl.
    + apply String.eqb_eq in E. subst k0.
      apply String.eqb_neq in N. now rewrite N.
    + now rewrite IH.
Qed.

Lemma keys_set_present d k v :
  mem d k = true -> keys (set d k v) = keys d.
Proof.
  unfold mem. induction d as [|[k0 v0] rest IH]; simpl; [discriminate|].
  destruct (String.eqb k k0) eqn:E; simpl; intros H; [reflexivity|].
  unfold keys in *. now rewrite IH.
Qed.

Lemma keys_set_absent d k v :
  mem d k = false -> keys (set d k v) = (keys d ++ [k])%list.
Proof.
  unfold mem. induction d as [|[k0 v0] rest IH]; simpl; [reflexivity|].
  destruct (String.eqb k k0) eqn:E; simpl; intros H; [discriminate|].
  unfold keys in *. now rewrite IH.
Qed.

Lemma get_none_not_key d k : get d k = None -> ~ In k (keys d).
Proof.
  induction d as [|[k0 v0] rest IH]; simpl; [tauto|].
  destruct (String.eqb k k0) eqn:E; [discriminate|].
  apply String.eqb_neq in E. intros H [A|A]; [congruence|]. now apply IH.
Qed.

Lemma not_key_get_none d k : ~ In k (keys d) -> get d k = None.
Proof.
  induction d as [|[k0 v0] rest IH]; simpl; [reflexivity|].
  intros H. destruct (String.eqb k k0) eqn:E.
  - apply String.eqb_eq in E. subst. tauto.
  - apply IH. tauto.
Qed.

Lemma wf_set d k v : wf d -> wf (set d k v).
Proof.
  unfold wf. intros W. destruct (mem d k) eqn:M.
  - now rewrite keys_set_present.
  - rewrite keys_set_absent by assumption.
    apply NoDup_app; [assumption | repeat constructor; simpl; tauto |].
    intros x Hx [E|[]]. subst x. unfold mem in M.
    destruct (get d k) eqn:G; [discriminate|].
    now apply get_none_not_key in G.
Qed.

Lemma get_some_in d k v : get d k = Some v -> In (k, v) d.
Proof.
  induction d as [|[k0 v0] rest IH]; simpl; [discriminate|].
  destruct (String.eqb k k0) eqn:E.
  - apply String.eqb_eq in E. intros [= ->]. subst. now left.
  - intros H. right. now apply IH.
Qed.

Lemma in_wf_get d k v : wf d -> In (k, v) d -> get d k = Some v.
Proof.
  unfold wf. induction d as [|[k0 v0] rest IH]; simpl; [tauto|].
  intros W [H|H].
  - injection H as -> ->. now rewrite String.eqb_refl.
  - inversion W as [|? ? N W']; subst.
    destruct (String.eqb k k0) eqn:E.
    + apply String.eqb_eq in E. subst. exfalso. apply N.
      unfold keys. change k0 with (fst (k0, v)). now apply in_map.
    + now apply IH.
Qed.
End DictFacts.

(** ** [add_word]: corrections and re-teaching *)

Section AddWord.
Import Training.
Variables (tm : TrainingModule) (hinglish kumaoni : string).
Variables (now_correction now_entry : string).

(** The early return: the stored value is the one taught. *)
Lemma add_word_known :
  get (vocab tm) (normal_key hinglish) = Some (strip kumaoni) ->
  add_word tm hinglish kumaoni now_correction now_entry = (false, tm).
Proof.
  unfold add_word, normal_key. intros ->. now rewrite String.eqb_refl.
Qed.

(** A call that does not return early stores the stripped value. *)
Lemma add_word_stores :
  get (vocab (snd (add_word tm hinglish kumaoni now_correction now_entry)))
      (normal_key hinglish) = Some (strip kumaoni).
Proof.
  unfold add_word, normal_key.
  destruct (get (vocab tm) (strip (lower hinglish))) as [e|] eqn:G.
  - destruct (String.eqb e (strip kumaoni)) eqn:E; simpl.
    + apply String.eqb_eq in E. now subst e.
    + apply get_set_same.
  - simpl. apply get_set_same.
Qed.

(** A call on a key stored with another value. *)
Lemma add_word_changed (existing : string) :
  get (vocab tm) (normal_key hinglish) = Some existing ->
  existing <> strip kumaoni ->
  exists f,
    add_word tm hinglish kumaoni now_correction now_entry
    = (true,
       {| vocab := set (vocab tm) (normal_key hinglish) (strip kumaoni);
          corrections :=
            record_correction (corrections tm) (normal_key hinglish)
              {| old := existing; new := strip kumaoni;
                 timestamp := now_correction |};
          session_entries :=
            (session_entries tm
             ++ [{| entry_type := "word";
                    entry_hinglish := normal_key hinglish;
                    entry_kumaoni := strip kumaoni;
                    entry_timestamp := now_entry |}])%list;
          files := f |}).
Proof.
  unfold add_word, normal_key. intros -> N.
  apply String.eqb_neq in N. rewrite N. eexists. reflexivity.
Qed.
End AddWord.

(** C3 (as amended).  [add_word] lowercases and trims the word and trims
    the translation.  When the normalised word is stored with a value
    other than the trimmed translation, the call returns [True], the
    vocabulary keeps the same keys in the same order with the trimmed
    translation under the word and every other entry as it was, and the
    corrections of the word grow by exactly one record, old value to
    trimmed translation, the corrections of other words and of phrases
    staying as they were.  From a store that knows neither ghar nor a
    correction of it, teaching ghar as ghar and then as gher leaves gher
    in the vocabulary and the single record ghar to gher. *)
Theorem add_word_conflict_records_one_correction :
  (forall tm hinglish kumaoni existing now_correction now_entry,
      get (Training.vocab tm) (normal_key hinglish) = Some existing ->
      existing <> strip kumaoni ->
      let key := normal_key hinglish in
      let result :=
        Training.add_word tm hinglish kumaoni now_correction now_entry in
      let tm' := snd result in
      fst result = true
      /\ get (Training.vocab tm') key = Some (strip kumaoni)
      /\ keys (Training.vocab tm') = keys (Training.vocab tm)
      /\ (forall other, other <> key ->
            get (Training.vocab tm') other = get (Training.vocab tm) other)
      /\ get (Training.words (Training.corrections tm')) key
         = Some (stored (Training.words (Training.corrections tm)) key
                 ++ [{| Training.old := existing;
                        Training.new := strip kumaoni;
                        Training.timestamp := now_correction |}])%list
      /\ (forall other, other <> key ->
            get (Training.words (Training.corrections tm')) other
            = get (Training.words (Training.corrections tm)) other)
      /\ Training.phrases_corrections (Training.corrections tm')
         = Training.phrases_corrections (Training.corrections tm))
  /\ (forall tm t1 t2 t3 t4,
        get (Training.vocab tm) "ghar" = None ->
        get (Training.words (Training.corrections tm)) "ghar" = None ->
        let tm1 := snd (Training.add_word tm "ghar" "ghar" t1 t2) in
        let tm2 := snd (Training.add_word tm1 "ghar" "gher" t3 t4) in
        get (Training.vocab tm2) "ghar" = Some "gher"
        /\ get (Training.words (Training.corrections tm2)) "ghar"
           = Some [{| Training.old := "ghar"; Training.new := "gher";
                      Training.timestamp := t3 |}]).
Proof.
  assert (General : forall tm hinglish kumaoni existing now_correction now_entry,
      get (Training.vocab tm) (normal_key hinglish) = Some existing ->
      existing <> strip kumaoni ->
      let key := normal_key hinglish in
      let result :=
        Training.add_word tm hinglish kumaoni now_correction now_entry in
      let tm' := snd result in
      fst result = true
      /\ get (Training.vocab tm') key = Some (strip kumaoni)
      /\ keys (Training.vocab tm') = keys (Training.vocab tm)
      /\ (forall other, other <> key ->
            get (Training.vocab tm') other = get (Training.vocab tm) other)
      /\ get (Training.words (Training.corrections tm')) key
         = Some (stored (Training.words (Training.corrections tm)) key
                 ++ [{| Training.old := existing;
                        Training.new := strip kumaoni;
                        Training.timestamp := now_correction |}])%list
      /\ (forall other, other <> key ->
            get (Training.words (Training.corrections tm')) other
            = get (Training.words (Training.corrections tm)) other)
      /\ Training.phrases_corrections (Training.corrections tm')
         = Training.phrases_corrections (Training.corrections tm)).
  { intros tm hinglish kumaoni existing t1 t2 G N key result tm'.
    destruct (add_word_changed tm hinglish kumaoni t1 t2 existing G N) as [f E].
    subst tm' result key. rewrite E. simpl.
    repeat split.
    - apply get_set_same.
    - apply keys_set_present. unfold mem. now rewrite G.
    - intros other D. now apply get_set_other.
    - unfold stored. apply get_set_same.
    - intros other D. now apply get_set_other. }
  split; [exact General|].
  intros tm t1 t2 t3 t4 V W tm1 tm2.
  assert (K : normal_key "ghar" = "ghar") by reflexivity.
  assert (S1 : strip "ghar" = "ghar") by reflexivity.
  assert (S2 : strip "gher" = "gher") by reflexivity.
  assert (E1 : Training.add_word tm "ghar" "ghar" t1 t2
               = (true,
                  {| Training.vocab := set (Training.vocab tm) "ghar" "ghar";
                     Training.corrections := Training.corrections tm;
                     Training.session_entries :=
                       Training.session_entries
                         (snd (Training.add_word tm "ghar" "ghar" t1 t2));
                     Training.files :=
                       Training.files
                         (snd (Training.add_word tm "ghar" "ghar" t1 t2)) |})).
  { unfold Training.add_word. change (strip (lower "ghar")) with "ghar".
    change (strip "ghar") with "ghar". rewrite V. reflexivity. }
  assert (G1 : get (Training.vocab tm1) (normal_key "ghar") = Some "ghar").
  { subst tm1. rewrite E1. simpl. rewrite K. apply get_set_same. }
  assert (N1 : "ghar" <> strip "gher") by (rewrite S2; discriminate).
  destruct (General tm1 "ghar" "gher" "ghar" t3 t4 G1 N1)
    as (_ & A & _ & _ & B & _).
  rewrite K, S2 in A, B. fold tm2 in A, B. split; [exact A|].
  rewrite B. unfold stored. subst tm1. rewrite E1. simpl. now rewrite W.
Qed.

(** C4.  Teaching the same pair twice: the second call returns [False]
    and leaves the whole state as the first call left it, the vocabulary
    and the corrections log in particular, so it adds no correction
    record.  When the word was not known before the first call, or was
    known with that value, the two calls together add no correction
    record either. *)
Theorem add_word_same_pair_twice :
  forall tm hinglish kumaoni t1 t2 t3 t4,
    let first := Training.add_word tm hinglish kumaoni t1 t2 in
    let second := Training.add_word (snd first) hinglish kumaoni t3 t4 in
    fst second = false
    /\ Training.vocab (snd second) = Training.vocab (snd first)
    /\ Training.corrections (snd second) = Training.corrections (snd first)
    /\ snd second = snd first
    /\ (get (Training.vocab tm) (normal_key hinglish) = None
        \/ get (Training.vocab tm) (normal_key hinglish) = Some (strip kumaoni) ->
        Training.corrections (snd second) = Training.corrections tm).
Proof.
  intros tm hinglish kumaoni t1 t2 t3 t4 first second.
  assert (E : second = (false, snd first)).
  { subst second. apply add_word_known. subst first. apply add_word_stores. }
  rewrite E. simpl. repeat (split; [reflexivity|]).
  subst first. unfold Training.add_word, normal_key.
  intros [G|G]; rewrite G; [reflexivity|].
  now rewrite String.eqb_refl.
Qed.

Lemma add_word_same_pair_twice_witness :
  get (Training.vocab Examples.training_ghar) (normal_key "Pani") = None
  /\ Training.corrections
       (snd (Training.add_word
               (snd (Training.add_word Examples.training_ghar
                       "Pani" "pani" "t1" "t2"))
               "Pani" "pani" "t3" "t4"))
     = Training.corrections Examples.training_ghar.
Proof.
  assert (G : get (Training.vocab Examples.training_ghar) (normal_key "Pani")
              = None) by reflexivity.
  split; [exact G|].
  exact (proj2 (proj2 (proj2 (proj2
           (add_word_same_pair_twice Examples.training_ghar
              "Pani" "pani" "t1" "t2" "t3" "t4"))))
           (or_introl G)).
Defined.

Lemma add_word_conflict_witness :
  get (Training.vocab Examples.training_ghar) (normal_key "Ghar ")
  = Some "gher"
  /\ "gher" <> strip " ghyar"
  /\ fst (Training.add_word Examples.training_ghar "Ghar " " ghyar" "t1" "t2")
     = true
  /\ get (Training.vocab
            (snd (Training.add_word Examples.training_ghar
                    "Ghar " " ghyar" "t1" "t2"))) "ghar"
     = Some "ghyar".
Proof.
  assert (G : get (Training.vocab Examples.training_ghar) (normal_key "Ghar ")
              = Some "gher") by reflexivity.
  assert (N : "gher" <> strip " ghyar") by (vm_compute; discriminate).
  pose proof (proj1 add_word_conflict_records_one_correction
                Examples.training_ghar "Ghar " " ghyar" "gher" "t1" "t2" G N)
    as (A & B & _).
  split; [exact G | split; [exact N | split; [exact A | exact B]]].
Defined.

(** C3 as worded fails: ghar is stored as gher and is taught a value
    that differs from it by a trailing blank.  The value is trimmed before
    the comparison, so the call returns [False] and records nothing. *)
Lemma add_word_untrimmed_value_not_recorded :
  get (Training.vocab Examples.training_ghar) "ghar" = Some "gher"
  /\ "gher" <> "gher "
  /\ Training.add_word Examples.training_ghar "ghar" "gher " "t1" "t2"
     = (false, Examples.training_ghar).
Proof.
  split; [reflexivity | split; [discriminate | reflexivity]].
Qed.

(** ** [detect_language]: the two counters *)

Section DetectLanguage.
Variable d : Chatbot.data.

Lemma count_word_key (hinglish_count kumaoni_count : nat) (word : string) :
  is_key d (strip_chars Chatbot.punctuation word) = true ->
  Chatbot.count_word d (hinglish_count, kumaoni_count) word
  = (hinglish_count + 1, kumaoni_count).
Proof.
  unfold Chatbot.count_word, is_key. now intros ->.
Qed.

Lemma word_loop_counts (words : list string) :
  forall hinglish_count kumaoni_count,
    fold_left (Chatbot.count_word d) words (hinglish_count, kumaoni_count)
    = (hinglish_count
       + List.length (filter (is_key d)
                        (map (strip_chars Chatbot.punctuation) words)),
       kumaoni_count
       + List.length (filter (fun w => negb (is_key d w) && is_value d w)
                        (map (strip_chars Chatbot.punctuation) words))).
Proof.
  induction words as [|w ws IH]; intros h k; [simpl; f_equal; lia|].
  cbn [fold_left map filter].
  assert (Step : Chatbot.count_word d (h, k) w
                 = if is_key d (strip_chars Chatbot.punctuation w)
                   then (h + 1, k)
                   else if is_value d (strip_chars Chatbot.punctuation w)
                        then (h, k + 1) else (h, k)) by reflexivity.
  rewrite Step.
  destruct (is_key d (strip_chars Chatbot.punctuation w));
    [|destruct (is_value d (strip_chars Chatbot.punctuation w))];
    rewrite IH; simpl; f_equal; lia.
Qed.

Lemma phrase_key_loop_counts (text : string) (l : list string) :
  forall hinglish_count,
    fold_left (Chatbot.count_phrase_key text) l hinglish_count
    = hinglish_count + phrase_votes l text.
Proof.
  unfold phrase_votes.
  induction l as [|p ps IH]; intros h; simpl; [lia|].
  rewrite IH. unfold Chatbot.count_phrase_key.
  destruct (contains p (lower text)); simpl; lia.
Qed.

Lemma phrase_value_loop_counts (text : string) (l : list string) :
  forall kumaoni_count,
    fold_left (Chatbot.count_phrase_value text) l kumaoni_count
    = kumaoni_count + phrase_votes l text.
Proof.
  unfold phrase_votes.
  induction l as [|p ps IH]; intros k; simpl; [lia|].
  rewrite IH. unfold Chatbot.count_phrase_value.
  destruct (contains p (lower text)); simpl; lia.
Qed.

(** The counters of the code are the two vote totals. *)
Lemma language_counts_votes (text : string) :
  Chatbot.language_counts d text = (hinglish_votes d text, kumaoni_votes d text).
Proof.
  unfold Chatbot.language_counts, hinglish_votes, kumaoni_votes, tokens.
  rewrite word_loop_counts.
  now rewrite phrase_key_loop_counts, phrase_value_loop_counts.
Qed.

Lemma detect_language_votes (text : string) :
  Chatbot.detect_language d text
  = if hinglish_votes d text <? kumaoni_votes d text
    then "kumaoni" else "hinglish".
Proof.
  unfold Chatbot.detect_language. now rewrite language_counts_votes.
Qed.
End DetectLanguage.

(** C7 (as amended).  A token votes Kumaoni when it is a vocabulary value
    and not a vocabulary key; with the Kumaoni total counted so (plus three
    per phrase value occurring in the lowercased text) and the Hinglish
    total as specified, [detect_language] answers kumaoni exactly when the
    Kumaoni total is strictly larger and hinglish otherwise, ties included;
    a text with no Kumaoni vote at all is hinglish. *)
Theorem detect_language_strict_majority :
  forall d text,
    (Chatbot.detect_language d text = "kumaoni"
     <-> hinglish_votes d text < kumaoni_votes d text)
    /\ (Chatbot.detect_language d text = "hinglish"
        <-> kumaoni_votes d text <= hinglish_votes d text)
    /\ (kumaoni_votes d text = 0 -> Chatbot.detect_language d text = "hinglish").
Proof.
  intros d text. rewrite detect_language_votes.
  destruct (hinglish_votes d text <? kumaoni_votes d text) eqn:E.
  - apply Nat.ltb_lt in E. repeat split; intros; try discriminate; try lia.
  - apply Nat.ltb_ge in E. repeat split; intros; try discriminate; try lia.
Qed.

Lemma detect_language_strict_majority_witness :
  kumaoni_votes Examples.store_ke "namaste dajyu" = 0
  /\ Chatbot.detect_language Examples.store_ke "namaste dajyu" = "hinglish".
Proof.
  assert (Z : kumaoni_votes Examples.store_ke "namaste dajyu" = 0)
    by reflexivity.
  split; [exact Z|].
  exact (proj2 (proj2 (detect_language_strict_majority
                         Examples.store_ke "namaste dajyu")) Z).
Defined.

(** C7 as worded fails: with kya taught as ke and ke taught as ka, the
    text ke ka has one token that is a key (ke) and two tokens found among
    the values (ke and ka).  The totals as the specification counts them are 1 for
    Hinglish and 2 for Kumaoni, yet the answer is hinglish: ke, being a
    key, never reaches the value check. *)
Lemma detect_language_value_votes_counterexample :
  hinglish_votes Examples.store_ke "ke ka" = 1
  /\ kumaoni_votes_as_specified Examples.store_ke "ke ka" = 2
  /\ Chatbot.detect_language Examples.store_ke "ke ka" = "hinglish".
Proof.
  split; [reflexivity | split; reflexivity].
Qed.

(** C10.  A token that is a vocabulary key adds one to the Hinglish
    counter and nothing to the Kumaoni counter, whether or not it is also
    a vocabulary value; so a text whose tokens are all both keys and values,
    and in whose lowercased form no phrase value occurs, is hinglish. *)
Theorem detect_language_ambiguous_tokens_hinglish :
  (forall d hinglish_count kumaoni_count word,
      is_key d (strip_chars Chatbot.punctuation word) = true ->
      Chatbot.count_word d (hinglish_count, kumaoni_count) word
      = (hinglish_count + 1, kumaoni_count))
  /\ (forall d text,
        (forall w, In w (tokens text) ->
                   is_key d w = true /\ is_value d w = true) ->
        (forall v, In v (values (Chatbot.phrases d)) ->
                   contains v (lower text) = false) ->
        Chatbot.detect_language d text = "hinglish").
Proof.
  split; [exact count_word_key|].
  intros d text T P. rewrite detect_language_votes.
  enough (Z : kumaoni_votes d text = 0) by now rewrite Z.
  unfold kumaoni_votes, phrase_votes.
  assert (A : filter (fun w => negb (is_key d w) && is_value d w) (tokens text)
              = []).
  { induction (tokens text) as [|w ws IH]; [reflexivity|]. simpl.
    destruct (T w (or_introl eq_refl)) as [K _]. rewrite K. simpl.
    apply IH. intros x Hx. apply T. now right. }
  assert (B : filter (fun p => contains p (lower text))
                (values (Chatbot.phrases d)) = []).
  { induction (values (Chatbot.phrases d)) as [|v vs IH]; [reflexivity|].
    simpl. rewrite (P v (or_introl eq_refl)).
    apply IH. intros x Hx. apply P. now right. }
  now rewrite A, B.
Qed.

Lemma detect_language_ambiguous_tokens_witness :
  (forall w, In w (tokens "Ke, ke!") ->
             is_key Examples.store_ke w = true
             /\ is_value Examples.store_ke w = true)
  /\ Chatbot.detect_language Examples.store_ke "Ke, ke!" = "hinglish".
Proof.
  assert (T : forall w, In w (tokens "Ke, ke!") ->
                        is_key Examples.store_ke w = true
                        /\ is_value Examples.store_ke w = true).
  { intros w H. vm_compute in H.
    destruct H as [H|[H|[]]]; subst w; split; reflexivity. }
  assert (P : forall v, In v (values (Chatbot.phrases Examples.store_ke)) ->
                        contains v (lower "Ke, ke!") = false).
  { intros v []. }
  split; [exact T|].
  exact (proj2 detect_language_ambiguous_tokens_hinglish
           Examples.store_ke "Ke, ke!" T P).
Defined.

(** ** Directions and preferences *)

Lemma translate_word_other_direction (d : Chatbot.data) (word direction : string) :
  direction <> "hinglish_to_kumaoni" ->
  Chatbot.translate_word d word direction
  = Chatbot.translate_word d word "kumaoni_to_hinglish".
Proof.
  intros N. apply String.eqb_neq in N.
  unfold Chatbot.translate_word. now rewrite N.
Qed.

Lemma translate_other_direction (d : Chatbot.data) (text direction : string) :
  direction <> "hinglish_to_kumaoni" ->
  Chatbot.translate d text direction
  = Chatbot.translate d text "kumaoni_to_hinglish".
Proof.
  intros N. unfold Chatbot.translate, Chatbot.phrase_pass.
  pose proof N as N'. apply String.eqb_neq in N'. rewrite N'. simpl.
  f_equal. apply map_ext. intros w.
  now apply translate_word_other_direction.
Qed.

(** C6 (as amended).  [set_language_preference] stores a preference that
    is kumaoni, hinglish or mixed and says so; any other string gets the
    invalid-preference message and leaves the context as it was.
    [translate] and [translate_word] reject no direction: every direction
    other than hinglish_to_kumaoni, recognized or not, is translated as
    kumaoni_to_hinglish.  Both are functions of the stores and write
    nothing. *)
Theorem preference_checked_direction_unchecked :
  (forall ctx preference,
      existsb (String.eqb preference) ["kumaoni"; "hinglish"; "mixed"] = false ->
      Chatbot.set_language_preference ctx preference
      = (invalid_preference, ctx))
  /\ (forall ctx preference,
        In preference ["kumaoni"; "hinglish"; "mixed"] ->
        let result := Chatbot.set_language_preference ctx preference in
        fst result = "Language preference set to " ++ preference
        /\ Chatbot.language_preference (snd result) = preference
        /\ Chatbot.session_id (snd result) = Chatbot.session_id ctx
        /\ Chatbot.exchanges (snd result) = Chatbot.exchanges ctx
        /\ Chatbot.current_topic (snd result) = Chatbot.current_topic ctx
        /\ Chatbot.user_name (snd result) = Chatbot.user_name ctx)
  /\ (forall d text direction,
        direction <> "hinglish_to_kumaoni" ->
        Chatbot.translate d text direction
        = Chatbot.translate d text "kumaoni_to_hinglish")
  /\ (forall d word direction,
        direction <> "hinglish_to_kumaoni" ->
        Chatbot.translate_word d word direction
        = Chatbot.translate_word d word "kumaoni_to_hinglish").
Proof.
  split; [|split; [|split]].
  - intros ctx preference H. unfold Chatbot.set_language_preference.
    now rewrite H.
  - intros ctx preference H result. subst result.
    unfold Chatbot.set_language_preference.
    assert (E : existsb (String.eqb preference) ["kumaoni"; "hinglish"; "mixed"]
                = true).
    { apply existsb_exists. exists preference. split; [exact H|].
      apply String.eqb_refl. }
    rewrite E. simpl. auto 7.
  - intros d text direction. apply translate_other_direction.
  - intros d word direction. apply translate_word_other_direction.
Qed.

Lemma preference_checked_direction_unchecked_witness :
  existsb (String.eqb "english") ["kumaoni"; "hinglish"; "mixed"] = false
  /\ Chatbot.set_language_preference Examples.context_mixed "english"
     = (invalid_preference, Examples.context_mixed)
  /\ "sideways" <> "hinglish_to_kumaoni"
  /\ Chatbot.translate Examples.store_kaise_ho "kas cha" "sideways"
     = Chatbot.translate Examples.store_kaise_ho "kas cha" "kumaoni_to_hinglish".
Proof.
  assert (H : existsb (String.eqb "english") ["kumaoni"; "hinglish"; "mixed"]
              = false) by reflexivity.
  assert (N : "sideways" <> "hinglish_to_kumaoni") by discriminate.
  split; [exact H|]. split.
  - exact (proj1 preference_checked_direction_unchecked
             Examples.context_mixed "english" H).
  - split; [exact N|].
    exact (proj1 (proj2 (proj2 preference_checked_direction_unchecked))
             Examples.store_kaise_ho "kas cha" "sideways" N).
Defined.

(** C6 as worded fails for directions: sideways is not one of the two
    directions, yet with the built-in grammar and the phrase kaise ho the
    word kas comes back as kaise and the text kas cha as kaise ho, the
    translations of the reverse direction; nothing is rejected. *)
Lemma unrecognized_direction_is_translated :
  recognized_direction "sideways" = false
  /\ Chatbot.translate_word Examples.store_kaise_ho "kas" "sideways" = "kaise"
  /\ Chatbot.translate Examples.store_kaise_ho "kas cha" "sideways" = "kaise ho".
Proof.
  split; [reflexivity|]. split; reflexivity.
Qed.

(** ** Facts about strings *)

Section StringFacts.
Implicit Types (s a b e stem : string).

Lemma length_append a b :
  String.length (a ++ b) = String.length a + String.length b.
Proof. induction a; simpl; auto. Qed.

Lemma append_empty_r s : s ++ EmptyString = s.
Proof. induction s; simpl; congruence. Qed.

Lemma append_assoc a b c : (a ++ b) ++ c = a ++ (b ++ c).
Proof. induction a; simpl; congruence. Qed.

Lemma append_nonempty a b : b <> EmptyString -> a ++ b <> EmptyString.
Proof. destruct a; simpl; [auto | discriminate]. Qed.

Lemma length_zero s : String.length s = 0 -> s = EmptyString.
Proof. destruct s; simpl; [reflexivity | discriminate]. Qed.

Lemma length_lower s : String.length (lower s) = String.length s.
Proof. induction s; simpl; auto. Qed.

Lemma substring_0_0 s : String.substring 0 0 s = EmptyString.
Proof. now destruct s. Qed.

Lemma substring_0_all s : String.substring 0 (String.length s) s = s.
Proof. induction s; simpl; congruence. Qed.

Lemma substring_0_append a b :
  String.substring 0 (String.length a) (a ++ b) = a.
Proof.
  induction a as [|c a IH]; simpl; [apply substring_0_0 | now rewrite IH].
Qed.

Lemma substring_skip_append a b n :
  String.substring (String.length a) n (a ++ b) = String.substring 0 n b.
Proof. induction a; simpl; auto. Qed.

(** A string is its first [n] characters followed by the rest. *)
Lemma substring_split s : forall n,
  n <= String.length s ->
  String.substring 0 n s ++ String.substring n (String.length s - n) s = s.
Proof.
  induction s as [|c s IH]; intros [|n] H; simpl in *;
    try reflexivity; try lia.
  - now rewrite substring_0_all.
  - rewrite IH by lia. reflexivity.
Qed.

Lemma prefix_append a b : String.prefix a (a ++ b) = true.
Proof.
  induction a as [|c a IH]; simpl; [now destruct b|].
  destruct (ascii_dec c c); [exact IH | congruence].
Qed.

Lemma prefix_split a : forall s,
  String.prefix a s = true -> exists rest, s = a ++ rest.
Proof.
  induction a as [|c a IH]; intros s H.
  - now exists s.
  - destruct s as [|c' s]; [discriminate|]. simpl in H.
    destruct (ascii_dec c c') as [<-|]; [|discriminate].
    destruct (IH s H) as [rest ->]. now exists rest.
Qed.

Lemma endswith_append stem e : endswith (stem ++ e) e = true.
Proof.
  unfold endswith. rewrite length_append.
  replace (String.length stem + String.length e - String.length e)
    with (String.length stem) by lia.
  rewrite substring_skip_append, substring_0_all, String.eqb_refl.
  apply andb_true_iff. split; [apply Nat.leb_le; lia | reflexivity].
Qed.

Lemma endswith_split s e :
  endswith s e = true ->
  s = String.substring 0 (String.length s - String.length e) s ++ e.
Proof.
  unfold endswith. intros H. apply andb_true_iff in H. destruct H as [L E].
  apply Nat.leb_le in L. apply String.eqb_eq in E.
  pose proof (substring_split s (String.length s - String.length e)) as S.
  replace (String.length s - (String.length s - String.length e))
    with (String.length e) in S by lia.
  rewrite E in S. symmetry. apply S. lia.
Qed.

Lemma slice_to_minus_append stem e :
  e <> EmptyString ->
  slice_to_minus (stem ++ e) (String.length e) = stem.
Proof.
  intros N. unfold slice_to_minus.
  destruct (String.length e) eqn:L; [now apply length_zero in L|].
  rewrite <- L, length_append.
  replace (String.length stem + String.length e - String.length e)
    with (String.length stem) by lia.
  apply substring_0_append.
Qed.

(** The verb-ending test of the code, [endswith] and a longer word, says
    that the word is a non-empty stem followed by the ending. *)
Lemma ending_applies_iff s e :
  endswith s e && (String.length e <? String.length s) = true
  <-> exists stem, stem <> EmptyString /\ s = stem ++ e.
Proof.
  split.
  - intros H. apply andb_true_iff in H. destruct H as [E L].
    apply Nat.ltb_lt in L. apply endswith_split in E.
    exists (String.substring 0 (String.length s - String.length e) s).
    split; [|exact E].
    intros Z. rewrite Z in E. simpl in E. subst s. lia.
  - intros (stem & N & ->). apply andb_true_iff. split.
    + apply endswith_append.
    + apply Nat.ltb_lt. rewrite length_append.
      destruct stem; [congruence | simpl; lia].
Qed.
End StringFacts.

(** ** [translate_word], Hinglish to Kumaoni *)

Section TranslateWordForward.
Variable d : Chatbot.data.

Lemma apply_verb_endings_none (endings : dict string) (w : string) :
  (forall e r, In (e, r) endings -> ~ ending_applies w e) ->
  Chatbot.apply_verb_endings endings w = None.
Proof.
  induction endings as [|[e r] rest IH]; intros H; simpl; [reflexivity|].
  destruct (endswith w e && (String.length e <? String.length w)) eqn:A.
  - exfalso. apply (H e r); [now left|]. now apply ending_applies_iff.
  - apply IH. intros e' r' I. apply (H e' r'). now right.
Qed.

(** The first rule, in stored order, that applies is the one used; with a
    non-empty ending the result is the remainder followed by the
    replacement. *)
Lemma apply_verb_endings_first
  (before after : dict string) (ending replacement w stem : string) :
  (forall e r, In (e, r) before -> ~ ending_applies w e) ->
  ending <> EmptyString -> stem <> EmptyString -> w = stem ++ ending ->
  Chatbot.apply_verb_endings (before ++ (ending, replacement) :: after)%list w
  = Some (stem ++ replacement).
Proof.
  intros B N S ->.
  induction before as [|[e r] rest IH]; simpl.
  - assert (A : endswith (stem ++ ending) ending
                && (String.length ending <? String.length (stem ++ ending))
                = true).
    { apply ending_applies_iff. now exists stem. }
    rewrite A. now rewrite slice_to_minus_append.
  - destruct (endswith (stem ++ ending) e
              && (String.length e <? String.length (stem ++ ending))) eqn:A.
    + exfalso. apply (B e r); [now left|]. now apply ending_applies_iff.
    + apply IH. intros e' r' I. apply (B e' r'). now right.
Qed.

(** The forward cascade: pronouns, question words, postpositions,
    vocabulary, in that order, on the cleaned token; then the first verb
    ending that applies; else the word as given. *)
Lemma translate_word_forward_cascade (word : string) :
  let w := clean word in
  let g := Chatbot.grammar d in
  let result := Chatbot.translate_word d word "hinglish_to_kumaoni" in
  (forall k, get (Chatbot.pronouns g) w = Some k -> result = k)
  /\ (get (Chatbot.pronouns g) w = None ->
      forall k, get (Chatbot.question_words g) w = Some k -> result = k)
  /\ (get (Chatbot.pronouns g) w = None ->
      get (Chatbot.question_words g) w = None ->
      forall k, get (Chatbot.postpositions g) w = Some k -> result = k)
  /\ (get (Chatbot.pronouns g) w = None ->
      get (Chatbot.question_words g) w = None ->
      get (Chatbot.postpositions g) w = None ->
      forall k, get (Chatbot.vocab d) w = Some k -> result = k)
  /\ (get (Chatbot.pronouns g) w = None ->
      get (Chatbot.question_words g) w = None ->
      get (Chatbot.postpositions g) w = None ->
      get (Chatbot.vocab d) w = None ->
      forall before ending replacement after stem,
        Chatbot.verb_endings g = (before ++ (ending, replacement) :: after)%list ->
        (forall e r, In (e, r) before -> ~ ending_applies w e) ->
        ending <> EmptyString -> stem <> EmptyString -> w = stem ++ ending ->
        result = stem ++ replacement)
  /\ (get (Chatbot.pronouns g) w = None ->
      get (Chatbot.question_words g) w = None ->
      get (Chatbot.postpositions g) w = None ->
      get (Chatbot.vocab d) w = None ->
      (forall e r, In (e, r) (Chatbot.verb_endings g) -> ~ ending_applies w e) ->
      result = word).
Proof.
  intros w g result. subst result. unfold Chatbot.translate_word.
  fold (clean word). fold w. fold g. simpl String.eqb. cbv iota.
  repeat split.
  - now intros k ->.
  - now intros -> k ->.
  - now intros -> -> k ->.
  - now intros -> -> -> k ->.
  - intros -> -> -> -> before ending replacement after stem E B N S W.
    rewrite E. now rewrite (apply_verb_endings_first _ _ _ _ _ stem B N S W).
  - intros -> -> -> -> B. now rewrite apply_verb_endings_none.
Qed.
End TranslateWordForward.

(** With the pronoun main and the verb ending na: main is a pronoun, so it
    becomes ma in any store holding that pronoun; khana, in no table,
    loses na and gains no. *)
Lemma translate_word_main_khana :
  (forall d, get (Chatbot.pronouns (Chatbot.grammar d)) "main" = Some "ma" ->
             Chatbot.translate_word d "main" "hinglish_to_kumaoni" = "ma")
  /\ Chatbot.translate_word Examples.store_main_na "main" "hinglish_to_kumaoni"
     = "ma"
  /\ Chatbot.translate_word Examples.store_main_na "khana" "hinglish_to_kumaoni"
     = "khano".
Proof.
  split; [|split; reflexivity].
  intros d H.
  exact (proj1 (translate_word_forward_cascade d "main") "ma" H).
Qed.

(** C1 on a rule with the empty ending.  The rule applies to kitab (the
    remainder kitab is not empty), and stripping the empty suffix and
    appending o would give kitabo; the slice [word_lower[:-0]] is empty,
    and the word comes back as o alone. *)
Theorem translate_word_blank_ending_drops_stem :
  ending_applies "kitab" EmptyString
  /\ Chatbot.apply_verb_endings
       (Chatbot.verb_endings (Chatbot.grammar Examples.store_blank_ending))
       "kitab" = Some "o"
  /\ Chatbot.translate_word Examples.store_blank_ending "kitab"
       "hinglish_to_kumaoni" = "o".
Proof.
  split; [|split; reflexivity].
  exists "kitab". split; [discriminate | reflexivity].
Qed.

(** ** [translate_word], Kumaoni to Hinglish, and the round trip *)

(** The reverse scan returns the key of the first entry whose lowercased
    value is the token. *)
Lemma reverse_lookup_unique (l : dict string) (w h : string) :
  (forall h' k', In (h', k') l -> lower k' = w -> h' = h) ->
  (exists k, In (h, k) l /\ lower k = w) ->
  Chatbot.reverse_lookup l w = Some h.
Proof.
  induction l as [|[h0 k0] rest IH]; intros U (k & I & E); simpl.
  - destruct I.
  - destruct (String.eqb (lower k0) w) eqn:Q.
    + apply String.eqb_eq in Q. f_equal. apply (U h0 k0); [now left | exact Q].
    + apply IH.
      * intros h' k' I' E'. apply (U h' k'); [now right | exact E'].
      * destruct I as [I|I].
        -- injection I as -> ->. apply String.eqb_neq in Q. contradiction.
        -- now exists k.
Qed.

(** C8 (as amended).  Let the word h be stored in the vocabulary with the
    value k, h being no key of pronouns, question words or postpositions.
    If h is in the form the lookup uses (lowercase, no punctuation of the
    stripped set at either end), k has none of that punctuation at either
    end, and no other vocabulary entry has a value equal to k when both are
    lowercased, then h translates forward to k and k translates back to
    h. *)
Theorem vocabulary_round_trip :
  forall d h k,
    get (Chatbot.vocab d) h = Some k ->
    get (Chatbot.pronouns (Chatbot.grammar d)) h = None ->
    get (Chatbot.question_words (Chatbot.grammar d)) h = None ->
    get (Chatbot.postpositions (Chatbot.grammar d)) h = None ->
    clean h = h ->
    clean k = lower k ->
    (forall h' k', In (h', k') (Chatbot.vocab d) -> lower k' = lower k -> h' = h) ->
    Chatbot.translate_word d h "hinglish_to_kumaoni" = k
    /\ Chatbot.translate_word d k "kumaoni_to_hinglish" = h.
Proof.
  intros d h k V P Q O Ch Ck U. split.
  - unfold Chatbot.translate_word. fold (clean h). rewrite Ch.
    simpl String.eqb. cbv iota. now rewrite P, Q, O, V.
  - unfold Chatbot.translate_word. fold (clean k). rewrite Ck.
    simpl String.eqb. cbv iota.
    rewrite (reverse_lookup_unique (Chatbot.vocab d) (lower k) h U);
      [reflexivity|].
    exists k. split; [now apply get_some_in | reflexivity].
Qed.

Lemma vocabulary_round_trip_witness :
  get (Chatbot.vocab Examples.store_round_trip) "ghar" = Some "Kud"
  /\ clean "ghar" = "ghar"
  /\ clean "Kud" = lower "Kud"
  /\ Chatbot.translate_word Examples.store_round_trip "ghar"
       "hinglish_to_kumaoni" = "Kud"
  /\ Chatbot.translate_word Examples.store_round_trip "Kud"
       "kumaoni_to_hinglish" = "ghar".
Proof.
  assert (U : forall h' k',
             In (h', k') (Chatbot.vocab Examples.store_round_trip) ->
             lower k' = lower "Kud" -> h' = "ghar").
  { intros h' k' I E. simpl in I.
    destruct I as [I|[I|[I|[I|[I|[]]]]]]; injection I as <- <-;
      solve [reflexivity | vm_compute in E; discriminate]. }
  pose proof (vocabulary_round_trip Examples.store_round_trip "ghar" "Kud"
                eq_refl eq_refl eq_refl eq_refl eq_refl eq_refl U) as [A B].
  split; [reflexivity|]. split; [reflexivity|]. split; [reflexivity|].
  split; [exact A | exact B].
Defined.

(** C8 as worded fails.  In one vocabulary, each word below a key of the
    vocabulary and of no grammar table, each value held by no other entry:
    haan is stored as ho followed by an exclamation mark, and that value
    comes back unchanged, since the token is stripped and the stored value
    is not; the key dr followed by a full stop is never found, since the
    token is stripped before the lookup; ram is stored as Ram, and Ram
    comes back as aaram, whose value ram equals it when lowercased. *)
Lemma vocabulary_round_trip_counterexample :
  let d := Examples.store_round_trip in
  (get (Chatbot.vocab d) "haan" = Some "ho!"
   /\ Chatbot.translate_word d "haan" "hinglish_to_kumaoni" = "ho!"
   /\ Chatbot.translate_word d "ho!" "kumaoni_to_hinglish" = "ho!")
  /\ (get (Chatbot.vocab d) "dr." = Some "daktar"
      /\ Chatbot.translate_word d "dr." "hinglish_to_kumaoni" = "dr.")
  /\ (get (Chatbot.vocab d) "ram" = Some "Ram"
      /\ Chatbot.translate_word d "ram" "hinglish_to_kumaoni" = "Ram"
      /\ Chatbot.translate_word d "Ram" "kumaoni_to_hinglish" = "aaram").
Proof.
  cbv zeta. split; [|split].
  - split; [reflexivity | split; reflexivity].
  - split; reflexivity.
  - split; [reflexivity | split; reflexivity].
Qed.

(** ** [translate]: phrases, then words *)

(** C9 on the built-in grammar.  The phrase pass turns aap kaise ho into
    aap kas cha; the word pass then translates every token of that text,
    the substituted ones too: aap is the pronoun tum, and cha ends in a,
    which the verb ending a to o rewrites.  The result is tum kas cho and
    does not contain kas cha. *)
Theorem translate_retranslates_phrase_output :
  let d := Examples.store_kaise_ho in
  get (Chatbot.phrases d) "kaise ho" = Some "kas cha"
  /\ Chatbot.translate_word d "kaise" "hinglish_to_kumaoni" = "kas"
  /\ Chatbot.phrase_pass d "aap kaise ho" "hinglish_to_kumaoni" = "aap kas cha"
  /\ Chatbot.translate_word d "cha" "hinglish_to_kumaoni" = "cho"
  /\ Chatbot.translate d "aap kaise ho" "hinglish_to_kumaoni" = "tum kas cho"
  /\ contains "kas cha"
       (Chatbot.translate d "aap kaise ho" "hinglish_to_kumaoni") = false.
Proof.
  cbv zeta. repeat (split; [reflexivity|]). reflexivity.
Qed.

(** Where the word pass has no rule for kas and cha, the phrase output
    survives it. *)
Lemma translate_phrase_kept_without_rules :
  Chatbot.translate Examples.store_kaise_only "aap kaise ho"
    "hinglish_to_kumaoni" = "aap kas cha".
Proof. reflexivity. Qed.

Section Replace.
Variables old new : string.

Lemma contains_unfold (s : string) :
  contains old s
  = String.prefix old s
    || match s with
       | EmptyString => false
       | String _ r => contains old r
       end.
Proof. now destruct s. Qed.

Lemma contains_occurs (s : string) :
  contains old s = true <-> occurs_in old s.
Proof.
  split.
  - induction s as [|c r IH]; rewrite contains_unfold; intros H;
      apply orb_true_iff in H; destruct H as [H|H]; try discriminate.
    + apply prefix_split in H. destruct H as [rest ->].
      now exists EmptyString, rest.
    + apply prefix_split in H. destruct H as [rest ->].
      now exists EmptyString, rest.
    + destruct (IH H) as (a & b & ->). now exists (String c a), b.
  - intros (a & b & ->). induction a as [|c a IH]; rewrite contains_unfold.
    + simpl. now rewrite prefix_append.
    + simpl. rewrite IH. apply orb_true_r.
Qed.

Lemma replace_scan_skip (x : string) : forall post,
  replace_scan old new (String.length x) (x ++ post)
  = replace_scan old new 0 post.
Proof. induction x as [|c x IH]; intros post; simpl; auto. Qed.

Hypothesis old_not_empty : old <> EmptyString.

Lemma replace_not_empty (s : string) :
  replace s old new = replace_scan old new 0 s.
Proof. unfold replace. destruct old; [congruence | reflexivity]. Qed.

(** Where [old] does not occur, [replace] changes nothing. *)
Lemma replace_absent (s : string) :
  ~ occurs_in old s -> replace s old new = s.
Proof.
  rewrite replace_not_empty.
  induction s as [|c r IH]; intros A; cbn [replace_scan]; [reflexivity|].
  destruct (String.prefix old (String c r)) eqn:P.
  - exfalso. apply A. apply prefix_split in P. destruct P as [rest E].
    exists EmptyString, rest. exact E.
  - f_equal. apply IH. intros (a & b & ->). apply A.
    now exists (String c a), b.
Qed.

Lemma replace_scan_leftmost (pre : string) : forall post s,
  leftmost_at pre old post s ->
  replace_scan old new 0 s = pre ++ new ++ replace_scan old new 0 post.
Proof.
  induction pre as [|c pre IH]; intros post s [E M]; subst s.
  - destruct old as [|c0 old'] eqn:O; [congruence|].
    assert (P : String.prefix (String c0 old') (String c0 (old' ++ post)) = true)
      by apply (prefix_append (String c0 old') post).
    simpl append. cbn [replace_scan]. rewrite P. f_equal.
    cbn [String.length]. rewrite Nat.sub_succ, Nat.sub_0_r.
    rewrite <- O. apply replace_scan_skip.
  - simpl append. cbn [replace_scan].
    destruct (String.prefix old (String c (pre ++ old ++ post))) eqn:P.
    + exfalso. apply prefix_split in P. destruct P as [rest E].
      specialize (M EmptyString rest E). simpl in M. lia.
    + f_equal. apply IH. split; [reflexivity|].
      intros a b E. specialize (M (String c a) b). simpl in M.
      rewrite E in M. specialize (M eq_refl). lia.
Qed.

(** The leftmost occurrence is replaced where it stands, and the scan
    goes on after it. *)
Lemma replace_leftmost (pre post s : string) :
  leftmost_at pre old post s ->
  replace s old new = pre ++ new ++ replace post old new.
Proof.
  rewrite !replace_not_empty. apply replace_scan_leftmost.
Qed.
End Replace.

Lemma lower_not_empty (s : string) : s <> EmptyString -> lower s <> EmptyString.
Proof. destruct s; simpl; [auto | discriminate]. Qed.

(** One turn of the forward phrase loop, by cases. *)
Lemma phrase_step_forward_absent (text phrase kumaoni : string) :
  ~ occurs_in (lower phrase) (lower text) ->
  Chatbot.phrase_step_forward text (phrase, kumaoni) = text.
Proof.
  intros A. unfold Chatbot.phrase_step_forward.
  destruct (contains (lower phrase) (lower text)) eqn:C; [|reflexivity].
  exfalso. apply A. now apply contains_occurs.
Qed.

Lemma phrase_step_forward_leftmost (text phrase kumaoni pre post : string) :
  phrase <> EmptyString ->
  leftmost_at pre (lower phrase) post (lower text) ->
  Chatbot.phrase_step_forward text (phrase, kumaoni)
  = pre ++ kumaoni ++ replace post (lower phrase) kumaoni.
Proof.
  intros N L. unfold Chatbot.phrase_step_forward.
  assert (C : contains (lower phrase) (lower text) = true).
  { apply contains_occurs. exists pre, post. exact (proj1 L). }
  rewrite C. apply replace_leftmost; [now apply lower_not_empty | exact L].
Qed.

(** C2 (as amended).  The phrases are tried in stored order, each against
    the text as the phrases before it left it.  A phrase whose lowercased
    text does not occur in the lowercased current text leaves the current
    text alone.  When a non-empty phrase occurs, the current text is
    lowercased and the occurrences are replaced by the translation where
    they stand, from the leftmost on, wherever they begin and end (inside
    a word too).  The whole pass is done before the text is split for the
    word pass: [translate] reads its input only through the text the phrase
    pass leaves. *)
Theorem phrase_pass_in_stored_order :
  forall d text before phrase kumaoni after,
    Chatbot.phrases d = (before ++ (phrase, kumaoni) :: after)%list ->
    let forward := "hinglish_to_kumaoni" in
    let current := fold_left Chatbot.phrase_step_forward before text in
    let next := Chatbot.phrase_step_forward current (phrase, kumaoni) in
    (~ occurs_in (lower phrase) (lower current) -> next = current)
    /\ (phrase <> EmptyString ->
        forall pre post,
          leftmost_at pre (lower phrase) post (lower current) ->
          next = pre ++ kumaoni ++ replace post (lower phrase) kumaoni)
    /\ Chatbot.phrase_pass d text forward
       = fold_left Chatbot.phrase_step_forward after next
    /\ (forall text',
          Chatbot.phrase_pass d text' forward = Chatbot.phrase_pass d text forward ->
          Chatbot.translate d text' forward = Chatbot.translate d text forward).
Proof.
  intros d text before phrase kumaoni after E forward current next.
  split; [|split; [|split]].
  - apply phrase_step_forward_absent.
  - intros N pre post. now apply phrase_step_forward_leftmost.
  - unfold Chatbot.phrase_pass. subst forward. simpl String.eqb. cbv iota.
    rewrite E, fold_left_app. reflexivity.
  - intros text' P. unfold Chatbot.translate. now rewrite P.
Qed.

Lemma phrase_pass_in_stored_order_witness :
  leftmost_at "aap " (lower "kaise ho") " gaya" (lower "Aap KAISE ho gaya")
  /\ Chatbot.phrase_step_forward "Aap KAISE ho gaya" ("kaise ho", "kas cha")
     = "aap " ++ "kas cha" ++ replace " gaya" (lower "kaise ho") "kas cha".
Proof.
  assert (L : leftmost_at "aap " (lower "kaise ho") " gaya"
                (lower "Aap KAISE ho gaya")).
  { split; [reflexivity|]. intros a b E. vm_compute in E.
    destruct a as [|c0 [|c1 [|c2 [|c3 a]]]]; simpl in E; try discriminate E.
    simpl. lia. }
  assert (N : "kaise ho" <> EmptyString) by discriminate.
  split; [exact L|].
  exact (proj1 (proj2 (phrase_pass_in_stored_order Examples.store_overlap
                         "Aap KAISE ho gaya" [] "kaise ho" "kas cha"
                         [("ho gaya", "hai go")] eq_refl))
           N "aap " " gaya" L).
Defined.

(** C2 as worded fails: ho gaya is a registered phrase and occurs in the
    input kaise ho gaya, but kaise ho, stored before it, is replaced
    first; ho gaya no longer occurs in the text that leaves, and its
    translation hai go appears nowhere in the result of the phrase pass. *)
Lemma phrase_pass_overlap_counterexample :
  let d := Examples.store_overlap in
  let forward := "hinglish_to_kumaoni" in
  get (Chatbot.phrases d) "ho gaya" = Some "hai go"
  /\ contains (lower "ho gaya") (lower "kaise ho gaya") = true
  /\ Chatbot.phrase_pass d "kaise ho gaya" forward = "kas cha gaya"
  /\ contains "hai go" (Chatbot.phrase_pass d "kaise ho gaya" forward) = false.
Proof.
  cbv zeta. repeat (split; [reflexivity|]). reflexivity.
Qed.

(** A phrase matches inside a larger word; every occurrence is replaced
    and the rest of the text is lowercased with it. *)
Lemma phrase_pass_inside_words :
  Chatbot.phrase_pass Examples.store_overlap "Kaise hoga? KAISE HO!"
    "hinglish_to_kumaoni" = "kas chaga? kas cha!".
Proof. reflexivity. Qed.

(** ** [extract_idioms]: what is collected *)

Lemma fold_left_invariant {A B : Type} (P : A -> Prop) (f : A -> B -> A)
  (l : list B) :
  (forall a x, P a -> P (f a x)) -> forall a, P a -> P (fold_left f l a).
Proof.
  intros Step. induction l as [|x l IH]; intros a H; simpl; auto.
Qed.

Lemma filter_all_false {A : Type} (f : A -> bool) (l : list A) :
  (forall x, In x l -> f x = false) -> filter f l = [].
Proof.
  induction l as [|x l IH]; intros H; simpl; [reflexivity|].
  rewrite (H x (or_introl eq_refl)). apply IH. intros y I. apply H. now right.
Qed.

Section Collect.
Import PatternRecognizer.

Lemma stored_append_to (d : dict (list string)) (p h q : string) :
  stored (append_to d p h) q
  = (stored d q ++ (if String.eqb p q then [h] else []))%list.
Proof.
  unfold stored, append_to. destruct (String.eqb p q) eqn:E.
  - apply String.eqb_eq in E. subst q. rewrite get_set_same.
    now destruct (get d p).
  - apply String.eqb_neq in E. rewrite get_set_other by congruence.
    now rewrite app_nil_r.
Qed.

Lemma kept_lists_append_to (d : dict (list string)) (p h : string) :
  kept_lists d -> kept_lists (append_to d p h).
Proof.
  intros [W N]. split; [now apply wf_set|].
  intros q l. unfold append_to. destruct (String.eqb_spec q p) as [->|D].
  - rewrite get_set_same. intros [= <-].
    destruct (get d p) as [l0|]; [|discriminate].
    destruct l0; discriminate.
  - rewrite get_set_other by exact D. apply N.
Qed.

(** The loop over the start positions: one sentence more for every
    position whose n-gram is [q]. *)
Lemma stored_positions (h : string) (w : list string) (n : nat) (q : string)
  (positions : list nat) : forall d,
  stored (fold_left (fun d i => append_to d (ngram w i n) h) positions d) q
  = (stored d q
     ++ repeat h (List.length
                    (filter (fun i => String.eqb (ngram w i n) q) positions)))%list.
Proof.
  induction positions as [|i rest IH]; intros d; simpl.
  - now rewrite app_nil_r.
  - rewrite IH, stored_append_to.
    destruct (String.eqb (ngram w i n) q); simpl.
    + now rewrite <- app_assoc.
    + now rewrite app_nil_r.
Qed.

(** The range of start positions of the code holds exactly the positions
    at which an n-gram of [n] words fits. *)
Lemma positions_that_fit (f : nat -> bool) (len n : nat) :
  1 <= n ->
  filter (fun i => (i + n <=? len) && f i) (seq 0 len)
  = if n <=? len then filter f (seq 0 (len - n + 1)) else [].
Proof.
  intros N. destruct (n <=? len) eqn:L.
  - apply Nat.leb_le in L.
    assert (E : seq 0 len
                = (seq 0 (len - n + 1) ++ seq (len - n + 1) (n - 1))%list).
    { change (seq (len - n + 1) (n - 1))
        with (seq (0 + (len - n + 1)) (n - 1)).
      rewrite <- seq_app. f_equal. lia. }
    rewrite E, filter_app.
    rewrite (filter_all_false _ (seq (len - n + 1) (n - 1))).
    + rewrite app_nil_r. apply filter_ext_in. intros i I.
      apply in_seq in I.
      replace (i + n <=? len) with true; [reflexivity|].
      symmetry. apply Nat.leb_le. lia.
    + intros i I. apply in_seq in I.
      replace (i + n <=? len) with false; [reflexivity|].
      symmetry. apply Nat.leb_gt. lia.
  - apply Nat.leb_gt in L. apply filter_all_false. intros i I.
    apply in_seq in I.
    replace (i + n <=? len) with false; [reflexivity|].
    symmetry. apply Nat.leb_gt. lia.
Qed.

Lemma stored_collect_ngrams (h : string) (w : list string)
  (d : dict (list string)) (n : nat) (q : string) :
  1 <= n ->
  stored (collect_ngrams h w d n) q
  = (stored d q ++ repeat h (occurrences_of_length w q n))%list.
Proof.
  intros N. unfold collect_ngrams, occurrences_of_length, occurs_at.
  rewrite (positions_that_fit (fun i => String.eqb (ngram w i n) q)) by exact N.
  destruct (n <=? List.length w).
  - apply stored_positions.
  - simpl. now rewrite app_nil_r.
Qed.

Lemma stored_collect_item (d : dict (list string)) (it : item) (q : string) :
  stored (collect_item d it) q
  = (stored d q
     ++ repeat (hinglish it) (occurrences (split (kumaoni it)) q))%list.
Proof.
  unfold collect_item, occurrences. simpl.
  rewrite !stored_collect_ngrams by lia.
  rewrite !repeat_app. now rewrite <- !app_assoc.
Qed.

Lemma stored_collect_all (dataset : list item) (q : string) : forall d,
  stored (fold_left collect_item dataset d) q
  = (stored d q ++ aligned dataset q)%list.
Proof.
  induction dataset as [|it rest IH]; intros d; simpl.
  - now rewrite app_nil_r.
  - rewrite IH, stored_collect_item. now rewrite <- app_assoc.
Qed.

Lemma kept_lists_kumaoni_phrases (dataset : list item) :
  kept_lists (kumaoni_phrases dataset).
Proof.
  unfold kumaoni_phrases. apply fold_left_invariant.
  - intros d it K. unfold collect_item. apply fold_left_invariant; [|exact K].
    intros d' n K'. unfold collect_ngrams.
    destruct (n <=? List.length (split (kumaoni it))); [|exact K'].
    apply fold_left_invariant; [|exact K'].
    intros d'' i K''. now apply kept_lists_append_to.
  - split; [constructor | discriminate].
Qed.

(** [kumaoni_phrases] holds, for an n-gram that occurs, the sentences
    aligned with its occurrences, and nothing for any other string. *)
Lemma kumaoni_phrases_aligned (dataset : list item) (q : string) :
  get (kumaoni_phrases dataset) q
  = match aligned dataset q with
    | [] => None
    | l => Some l
    end.
Proof.
  pose proof (stored_collect_all dataset q []) as S.
  fold (kumaoni_phrases dataset) in S. simpl in S.
  destruct (kept_lists_kumaoni_phrases dataset) as [_ N].
  unfold stored in S.
  destruct (get (kumaoni_phrases dataset) q) as [l|] eqn:G.
  - rewrite <- S. specialize (N q l G). now destruct l.
  - now rewrite <- S.
Qed.
End Collect.

(** ** [extract_idioms]: what is kept *)

Section Keep.
Import PatternRecognizer.

Lemma times_cons (x y : string) (l : list string) :
  times x (y :: l) = (if String.eqb y x then 1 else 0) + times x l.
Proof.
  unfold times. simpl. destruct (string_dec y x) as [->|D].
  - now rewrite String.eqb_refl.
  - apply String.eqb_neq in D. now rewrite D.
Qed.

Lemma times_bound (x : string) (l : list string) : times x l <= List.length l.
Proof.
  induction l as [|y l IH]; [apply Nat.le_refl|].
  rewrite times_cons. simpl. destruct (String.eqb y x); simpl; lia.
Qed.

(** Two different sentences share the occurrences. *)
Lemma times_two (x y : string) (l : list string) :
  x <> y -> times x l + times y l <= List.length l.
Proof.
  intros D. induction l as [|z l IH]; [apply Nat.le_refl|].
  rewrite !times_cons. simpl.
  destruct (String.eqb z x) eqn:Ex; destruct (String.eqb z y) eqn:Ey;
    try lia.
  apply String.eqb_eq in Ex, Ey. congruence.
Qed.

Lemma times_repeat (x : string) (n : nat) : times x (repeat x n) = n.
Proof.
  induction n as [|n IH]; [reflexivity|].
  simpl repeat. rewrite times_cons, String.eqb_refl, IH. reflexivity.
Qed.

Lemma counted_count_one (c : dict nat) (y x : string) :
  counted (count_one c y) x
  = counted c x + (if String.eqb y x then 1 else 0).
Proof.
  unfold counted, count_one. destruct (String.eqb_spec y x) as [->|D].
  - rewrite get_set_same. destruct (get c x); lia.
  - rewrite get_set_other by congruence. lia.
Qed.

Lemma kept_counts_count_one (c : dict nat) (y : string) :
  kept_counts c -> kept_counts (count_one c y).
Proof.
  intros [W P]. split; [now apply wf_set|].
  intros x k. unfold count_one. destruct (String.eqb_spec x y) as [->|D].
  - rewrite get_set_same. intros [= <-]. destruct (get c y); lia.
  - rewrite get_set_other by exact D. apply P.
Qed.

Lemma counted_fold (l : list string) (x : string) : forall c,
  counted (fold_left count_one l c) x = counted c x + times x l.
Proof.
  induction l as [|y l IH]; intros c; cbn [fold_left].
  - unfold times. simpl. lia.
  - rewrite IH, counted_count_one, times_cons. lia.
Qed.

Lemma Counter_kept (l : list string) : kept_counts (Counter l).
Proof.
  unfold Counter. apply (fold_left_invariant kept_counts count_one).
  - intros c y. apply kept_counts_count_one.
  - split; [constructor | discriminate].
Qed.

(** [Counter] counts: a sentence is a key exactly when it is in the list,
    and its count is the number of times it is there. *)
Lemma Counter_get (l : list string) (x : string) :
  get (Counter l) x
  = match times x l with 0 => None | S k => Some (S k) end.
Proof.
  pose proof (counted_fold l x []) as C. fold count_one in C.
  change (fold_left count_one l []) with (Counter l) in C.
  destruct (Counter_kept l) as [_ P].
  unfold counted in C. simpl in C.
  destruct (get (Counter l) x) as [k|] eqn:G.
  - specialize (P x k G). rewrite <- C. destruct k; [lia | reflexivity].
  - now rewrite <- C.
Qed.

(** [most_common_1] returns an entry whose count no entry exceeds. *)
Lemma most_common_1_max (c : dict nat) : forall m k,
  most_common_1 c = Some (m, k) ->
  In (m, k) c /\ forall x j, In (x, j) c -> j <= k.
Proof.
  induction c as [|[x0 k0] rest IH]; intros m k H; simpl in H; [discriminate|].
  destruct (most_common_1 rest) as [[y j]|] eqn:R.
  - destruct (IH y j eq_refl) as [I M].
    destruct (j <=? k0) eqn:L; injection H as <- <-.
    + apply Nat.leb_le in L. split; [now left|].
      intros x i [E|E]; [injection E as <- <-; lia|].
      specialize (M x i E). lia.
    + apply Nat.leb_gt in L. split; [now right|].
      intros x i [E|E]; [injection E as <- <-; lia|].
      exact (M x i E).
  - injection H as <- <-. split; [now left|].
    intros x i [E|E]; [injection E as <- <-; lia|].
    destruct rest as [|[y j] rest']; [destruct E|]. simpl in R.
    destruct (most_common_1 rest') as [[? ?]|]; [|discriminate].
    destruct (_ <=? _); discriminate.
Qed.

Lemma most_common_1_some (c : dict nat) :
  c <> [] -> exists m k, most_common_1 c = Some (m, k).
Proof.
  destruct c as [|[x k] rest]; [congruence|]. intros _. simpl.
  destruct (most_common_1 rest) as [[y j]|]; [|now exists x, k].
  destruct (j <=? k); [now exists x, k | now exists y, j].
Qed.

(** The decision for one n-gram: a meaning is kept exactly when the
    n-gram has three aligned sentences or more and that meaning is seven
    tenths of them or more. *)
Lemma verdict_iff (translations : list string) (m : string) :
  verdict translations = Some m
  <-> 3 <= List.length translations
      /\ 7 * List.length translations <= 10 * times m translations.
Proof.
  unfold verdict, ratio_test. split.
  - destruct (3 <=? List.length translations) eqn:L; [|discriminate].
    apply Nat.leb_le in L.
    destruct (most_common_1 (Counter translations)) as [[m' k]|] eqn:M;
      [|discriminate].
    cbn [fst snd]. destruct (7 * List.length translations <=? 10 * k) eqn:R;
      [|discriminate].
    intros [= <-]. apply Nat.leb_le in R.
    destruct (most_common_1_max _ _ _ M) as [I _].
    apply (in_wf_get _ _ _ (proj1 (Counter_kept translations))) in I.
    rewrite Counter_get in I.
    destruct (times m' translations) eqn:T; [discriminate|].
    injection I as <-. split; [exact L | exact R].
  - intros [L R].
    assert (L' : (3 <=? List.length translations) = true)
      by now apply Nat.leb_le.
    rewrite L'.
    assert (G : get (Counter translations) m = Some (times m translations)).
    { rewrite Counter_get. destruct (times m translations); [lia | reflexivity]. }
    assert (NE : Counter translations <> []).
    { intros Z. rewrite Z in G. discriminate. }
    destruct (most_common_1_some _ NE) as (m' & k & M). rewrite M.
    cbn [fst snd].
    destruct (most_common_1_max _ _ _ M) as [I Max].
    pose proof (Max m _ (get_some_in _ _ _ G)) as Le.
    apply (in_wf_get _ _ _ (proj1 (Counter_kept translations))) in I.
    rewrite Counter_get in I.
    destruct (times m' translations) eqn:T; [discriminate|].
    injection I as <-.
    assert (R' : (7 * List.length translations <=? 10 * S n) = true)
      by (apply Nat.leb_le; lia).
    rewrite R'. f_equal.
    destruct (string_dec m' m) as [E|D]; [exact E|].
    pose proof (times_two m' m translations D) as Two. lia.
Qed.

(** The second loop keeps, under each n-gram collected once, what
    [verdict] decides. *)
Lemma keep_idiom_verdict (idioms : dict string) (p : string)
  (translations : list string) :
  keep_idiom idioms (p, translations)
  = match verdict translations with
    | Some m => set idioms p m
    | None => idioms
    end.
Proof.
  unfold keep_idiom, verdict.
  destruct (3 <=? List.length translations); [|reflexivity].
  destruct (most_common_1 (Counter translations)) as [[m k]|]; [|reflexivity].
  cbn [fst snd]. now destruct (ratio_test k (List.length translations)).
Qed.

Lemma get_keep_idioms (entries : dict (list string)) :
  wf entries ->
  forall idioms q,
    get (fold_left keep_idiom entries idioms) q
    = match get entries q with
      | Some translations =>
          match verdict translations with
          | Some m => Some m
          | None => get idioms q
          end
      | None => get idioms q
      end.
Proof.
  unfold wf.
  induction entries as [|[p tr] rest IH]; intros W idioms q; [reflexivity|].
  simpl in W. inversion W as [|? ? Fresh W']; subst.
  cbn [fold_left]. rewrite (IH W'). rewrite keep_idiom_verdict. cbn [get].
  destruct (String.eqb_spec q p) as [->|D].
  - rewrite (not_key_get_none _ _ Fresh).
    destruct (verdict tr); [apply get_set_same | reflexivity].
  - destruct (get rest q) as [tr'|]; [destruct (verdict tr'); [reflexivity|]|];
      (destruct (verdict tr); [now apply get_set_other | reflexivity]).
Qed.

(** [extract_idioms] keeps under [p] what [verdict] decides for the
    sentences aligned with [p]. *)
Lemma extract_idioms_verdict (dataset : list item) (p : string) :
  get (extract_idioms dataset) p = verdict (aligned dataset p).
Proof.
  unfold extract_idioms.
  rewrite (get_keep_idioms _ (proj1 (kept_lists_kumaoni_phrases dataset))).
  rewrite kumaoni_phrases_aligned. simpl.
  destruct (aligned dataset p) as [|h l] eqn:A; [reflexivity|].
  now destruct (verdict (h :: l)).
Qed.
End Keep.

Lemma ratio_tests_agree_to_200 : ratio_tests_agree 200 = true.
Proof. vm_compute. reflexivity. Qed.

Lemma ratio_tests_agree_sound (bound count total : nat) :
  ratio_tests_agree bound = true ->
  1 <= total <= bound -> count <= total ->
  PatternRecognizer.ratio_test count total = Binary64.ratio_test count total.
Proof.
  unfold ratio_tests_agree. intros A T C.
  apply forallb_forall with (x := total) in A; [|apply in_seq; lia].
  apply forallb_forall with (x := count) in A; [|apply in_seq; lia].
  symmetry. now apply Bool.eqb_prop.
Qed.

(** On every list of up to 200 aligned sentences the comparison of the
    model decides as the binary64 comparison of the code does. *)
Lemma ratio_test_as_binary64 (count total : nat) :
  1 <= total <= 200 -> count <= total ->
  PatternRecognizer.ratio_test count total = Binary64.ratio_test count total.
Proof.
  apply ratio_tests_agree_sound. exact ratio_tests_agree_to_200.
Qed.

Lemma filter_nonempty_witness {A : Type} (f : A -> bool) (l : list A) :
  0 < List.length (filter f l) -> exists x, In x l /\ f x = true.
Proof.
  destruct (filter f l) as [|x rest] eqn:F; simpl; [lia|]. intros _.
  assert (I : In x (filter f l)) by (rewrite F; now left).
  apply filter_In in I. now exists x.
Qed.

(** A string with an aligned sentence is an n-gram of two, three or four
    words of some Kumaoni sentence of the corpus. *)
Lemma aligned_is_ngram (dataset : list PatternRecognizer.item) (p : string) :
  aligned dataset p <> [] ->
  exists it i n,
    In it dataset /\ In n [2; 3; 4]
    /\ occurs_at (split (PatternRecognizer.kumaoni it)) p i n = true.
Proof.
  induction dataset as [|it rest IH]; simpl; [congruence|].
  destruct (occurrences (split (PatternRecognizer.kumaoni it)) p) eqn:O.
  - simpl. intros N. destruct (IH N) as (it' & i & n & I & R).
    exists it', i, n. split; [now right | exact R].
  - intros _. unfold occurrences in O.
    assert (C : 0 < occurrences_of_length (split (PatternRecognizer.kumaoni it)) p 2
                \/ 0 < occurrences_of_length (split (PatternRecognizer.kumaoni it)) p 3
                \/ 0 < occurrences_of_length (split (PatternRecognizer.kumaoni it)) p 4)
      by lia.
    unfold occurrences_of_length in C.
    destruct C as [C|[C|C]]; apply filter_nonempty_witness in C;
      destruct C as (i & _ & C).
    + exists it, i, 2. split; [now left | split; [simpl; tauto | exact C]].
    + exists it, i, 3. split; [now left | split; [simpl; tauto | exact C]].
    + exists it, i, 4. split; [now left | split; [simpl; tauto | exact C]].
Qed.

(** C5.  [extract_idioms] keeps the string [p] with the meaning [m]
    exactly when [p] occurs three times or more across the corpus as an
    n-gram and [m] is aligned with seven tenths of its occurrences or
    more.  What is kept is an n-gram of two, three or four words of a
    Kumaoni sentence, and its meaning is aligned with it more often than
    any other sentence.  So an n-gram that occurs three times, each time
    with the same sentence, is kept with that sentence, and an n-gram that
    occurs twice is not kept. *)
Theorem extract_idioms_thresholds :
  forall dataset p,
    (forall m,
        get (PatternRecognizer.extract_idioms dataset) p = Some m
        <-> 3 <= List.length (aligned dataset p)
            /\ 7 * List.length (aligned dataset p)
               <= 10 * times m (aligned dataset p))
    /\ (forall m,
          get (PatternRecognizer.extract_idioms dataset) p = Some m ->
          (forall x, x <> m ->
                     times x (aligned dataset p) < times m (aligned dataset p))
          /\ exists it i n,
               In it dataset /\ In n [2; 3; 4]
               /\ occurs_at (split (PatternRecognizer.kumaoni it)) p i n = true)
    /\ (forall h,
          aligned dataset p = [h; h; h] ->
          get (PatternRecognizer.extract_idioms dataset) p = Some h)
    /\ (List.length (aligned dataset p) = 2 ->
        get (PatternRecognizer.extract_idioms dataset) p = None).
Proof.
  intros dataset p. rewrite extract_idioms_verdict.
  split; [|split; [|split]].
  - intros m. apply verdict_iff.
  - intros m V. apply verdict_iff in V. destruct V as [L R]. split.
    + intros x D. pose proof (times_two x m (aligned dataset p) D). lia.
    + apply aligned_is_ngram. intros Z. rewrite Z in L. simpl in L. lia.
  - intros h A. apply verdict_iff. rewrite A.
    change [h; h; h] with (repeat h 3). rewrite times_repeat. simpl. lia.
  - intros L. destruct (verdict (aligned dataset p)) as [m|] eqn:V;
      [|reflexivity].
    apply verdict_iff in V. lia.
Qed.

Lemma extract_idioms_thresholds_witness :
  aligned Examples.corpus_kas_cha "kas cha" = ["kaise ho"; "kaise ho"; "kaise ho"]
  /\ get (PatternRecognizer.extract_idioms Examples.corpus_kas_cha) "kas cha"
     = Some "kaise ho"
  /\ List.length (aligned Examples.corpus_kas_cha "bhal cha") = 2
  /\ get (PatternRecognizer.extract_idioms Examples.corpus_kas_cha) "bhal cha"
     = None.
Proof.
  assert (A : aligned Examples.corpus_kas_cha "kas cha"
              = ["kaise ho"; "kaise ho"; "kaise ho"]) by reflexivity.
  assert (B : List.length (aligned Examples.corpus_kas_cha "bhal cha") = 2)
    by reflexivity.
  split; [exact A|]. split.
  - exact (proj1 (proj2 (proj2 (extract_idioms_thresholds
                                  Examples.corpus_kas_cha "kas cha")))
             "kaise ho" A).
  - split; [exact B|].
    exact (proj2 (proj2 (proj2 (extract_idioms_thresholds
                                  Examples.corpus_kas_cha "bhal cha"))) B).
Defined.

(** ** More facts about strings and dicts *)

Lemma lower_char_idempotent (c : ascii) :
  lower_char (lower_char c) = lower_char c.
Proof. destruct c as [[] [] [] [] [] [] [] []]; reflexivity. Qed.

Lemma lower_idempotent (s : string) : lower (lower s) = lower s.
Proof.
  induction s as [|c s IH]; simpl; [reflexivity|].
  now rewrite lower_char_idempotent, IH.
Qed.

Lemma occurs_in_refl (s : string) : occurs_in s s.
Proof. exists EmptyString, EmptyString. simpl. now rewrite append_empty_r. Qed.

Lemma occurs_in_trans (a b s : string) :
  occurs_in a b -> occurs_in b s -> occurs_in a s.
Proof.
  intros (x & y & ->) (u & v & ->). exists (u ++ x), (y ++ v).
  now rewrite !append_assoc.
Qed.

Lemma contains_empty (s : string) : contains EmptyString s = true.
Proof. apply contains_occurs. now exists EmptyString, s. Qed.

Lemma set_absent {V : Type} (d : dict V) (k : string) (v : V) :
  get d k = None -> set d k v = (d ++ [(k, v)])%list.
Proof.
  induction d as [|[k0 v0] rest IH]; simpl; [reflexivity|].
  destruct (String.eqb k k0); [discriminate|]. intros G. now rewrite IH.
Qed.

Lemma any_in_occurs (words : list string) (text_lower w : string) :
  In w words -> occurs_in w text_lower ->
  Chatbot.any_in words text_lower = true.
Proof.
  intros I O. apply existsb_exists. exists w. split; [exact I|].
  now apply contains_occurs.
Qed.

Lemma reverse_lookup_none (l : dict string) (w : string) :
  (forall h k, In (h, k) l -> lower k <> w) ->
  Chatbot.reverse_lookup l w = None.
Proof.
  induction l as [|[h k] rest IH]; intros N; simpl; [reflexivity|].
  destruct (String.eqb_spec (lower k) w) as [E|_].
  - exfalso. apply (N h k); [now left | exact E].
  - apply IH. intros h' k' I. apply (N h' k'). now right.
Qed.

(** ** Words and phrases no rule knows *)

(** X1.  A word no rule applies to comes back exactly as it was given,
    capitals and punctuation included.  Forward: the cleaned token is no
    key of the four tables and no verb ending applies to it.  In any other
    direction: no value of the four tables, lowercased, is the cleaned
    token. *)
Theorem translate_word_unknown_unchanged :
  forall d word direction,
    let w := clean word in
    let g := Chatbot.grammar d in
    (direction = "hinglish_to_kumaoni" ->
     get (Chatbot.pronouns g) w = None ->
     get (Chatbot.question_words g) w = None ->
     get (Chatbot.postpositions g) w = None ->
     get (Chatbot.vocab d) w = None ->
     (forall e r, In (e, r) (Chatbot.verb_endings g) -> ~ ending_applies w e) ->
     Chatbot.translate_word d word direction = word)
    /\ (direction <> "hinglish_to_kumaoni" ->
        (forall h k,
            In (h, k) (Chatbot.vocab d ++ Chatbot.pronouns g
                       ++ Chatbot.question_words g ++ Chatbot.postpositions g)%list ->
            lower k <> w) ->
        Chatbot.translate_word d word direction = word).
Proof.
  intros d word direction w g. split.
  - intros -> P Q O V E. unfold Chatbot.translate_word.
    fold (clean word). fold w. fold g. simpl String.eqb. cbv iota.
    rewrite P, Q, O, V. now rewrite apply_verb_endings_none.
  - intros N A. apply String.eqb_neq in N. unfold Chatbot.translate_word.
    fold (clean word). fold w. fold g. rewrite N.
    rewrite !reverse_lookup_none; [reflexivity| | | |];
      intros h k I; apply (A h k); rewrite !in_app_iff; auto.
Qed.

Lemma translate_word_unknown_unchanged_witness :
  Chatbot.translate_word Examples.store_main_na "Pahad!" "hinglish_to_kumaoni"
  = "Pahad!"
  /\ Chatbot.translate_word Examples.store_main_na "Pahad!" "kumaoni_to_hinglish"
     = "Pahad!".
Proof.
  split.
  - apply (proj1 (translate_word_unknown_unchanged
                    Examples.store_main_na "Pahad!" "hinglish_to_kumaoni"));
      try reflexivity.
    intros e r [I|[]]. injection I as <- <-. intros (stem & _ & E).
    vm_compute in E.
    destruct stem as [|c0 [|c1 [|c2 [|c3 stem]]]]; simpl in E;
      try discriminate E.
    injection E as _ _ _ _ E.
    destruct stem as [|c4 [|c5 stem]]; simpl in E; discriminate E.
  - apply (proj2 (translate_word_unknown_unchanged
                    Examples.store_main_na "Pahad!" "kumaoni_to_hinglish"));
      [discriminate|].
    intros h k I. simpl in I. destruct I as [I|[]]. injection I as <- <-.
    vm_compute. discriminate.
Defined.

Section PhrasePassIdle.
Variable text : string.

Lemma phrase_step_reverse_absent (hinglish kumaoni : string) :
  ~ occurs_in (lower kumaoni) (lower text) ->
  Chatbot.phrase_step_reverse text (hinglish, kumaoni) = text.
Proof.
  intros A. unfold Chatbot.phrase_step_reverse.
  destruct (contains (lower kumaoni) (lower text)) eqn:C; [|reflexivity].
  exfalso. apply A. now apply contains_occurs.
Qed.

Lemma phrase_loop_forward_idle (l : dict string) :
  (forall p k, In (p, k) l -> ~ occurs_in (lower p) (lower text)) ->
  fold_left Chatbot.phrase_step_forward l text = text.
Proof.
  induction l as [|[p k] rest IH]; intros A; cbn [fold_left]; [reflexivity|].
  rewrite phrase_step_forward_absent by (apply (A p k); now left).
  apply IH. intros p' k' I. apply (A p' k'). now right.
Qed.

Lemma phrase_loop_reverse_idle (l : dict string) :
  (forall p k, In (p, k) l -> ~ occurs_in (lower k) (lower text)) ->
  fold_left Chatbot.phrase_step_reverse l text = text.
Proof.
  induction l as [|[p k] rest IH]; intros A; cbn [fold_left]; [reflexivity|].
  rewrite phrase_step_reverse_absent by (apply (A p k); now left).
  apply IH. intros p' k' I. apply (A p' k'). now right.
Qed.
End PhrasePassIdle.

(** X2.  On a text in which no registered phrase occurs, [translate_phrase]
    and [translate] give the same result: forward when no phrase key,
    lowercased, occurs in the lowercased text, and in any other direction
    when no phrase value, lowercased, occurs in it. *)
Theorem translate_phrase_is_translate_without_phrases :
  forall d text direction,
    (direction = "hinglish_to_kumaoni" ->
     (forall p k, In (p, k) (Chatbot.phrases d) ->
                  ~ occurs_in (lower p) (lower text)) ->
     Chatbot.translate_phrase d text direction
     = Chatbot.translate d text direction)
    /\ (direction <> "hinglish_to_kumaoni" ->
        (forall p k, In (p, k) (Chatbot.phrases d) ->
                     ~ occurs_in (lower k) (lower text)) ->
        Chatbot.translate_phrase d text direction
        = Chatbot.translate d text direction).
Proof.
  intros d text direction. split.
  - intros -> A.
    unfold Chatbot.translate_phrase, Chatbot.translate, Chatbot.phrase_pass.
    simpl String.eqb. cbv iota. rewrite phrase_loop_forward_idle by exact A.
    destruct (get (Chatbot.phrases d) (lower text)) as [k|] eqn:G;
      [|reflexivity].
    exfalso. apply get_some_in in G. apply (A _ _ G).
    rewrite lower_idempotent. apply occurs_in_refl.
  - intros N A. apply String.eqb_neq in N.
    unfold Chatbot.translate_phrase, Chatbot.translate, Chatbot.phrase_pass.
    rewrite N. rewrite phrase_loop_reverse_idle by exact A.
    rewrite reverse_lookup_none; [reflexivity|].
    intros h k I E. apply (A h k I). rewrite E. apply occurs_in_refl.
Qed.

Lemma translate_phrase_is_translate_witness :
  Chatbot.translate_phrase Examples.store_kaise_ho "Namaste dajyu"
    "hinglish_to_kumaoni"
  = Chatbot.translate Examples.store_kaise_ho "Namaste dajyu"
      "hinglish_to_kumaoni".
Proof.
  apply (proj1 (translate_phrase_is_translate_without_phrases
                  Examples.store_kaise_ho "Namaste dajyu"
                  "hinglish_to_kumaoni")); [reflexivity|].
  intros p k [I|[]]. injection I as <- <-.
  intros O. apply contains_occurs in O. vm_compute in O. discriminate O.
Defined.

(** X3.  A phrase stored under a lowercase key translates forward to its
    value with [translate_phrase], and the value translates back to the
    phrase, when no other phrase has a value equal to it once both are
    lowercased.  Punctuation in the phrase or in its value does not
    matter: the whole-phrase lookup strips nothing. *)
Theorem translate_phrase_round_trip :
  forall d p k,
    get (Chatbot.phrases d) p = Some k ->
    lower p = p ->
    (forall p' k', In (p', k') (Chatbot.phrases d) ->
                   lower k' = lower k -> p' = p) ->
    Chatbot.translate_phrase d p "hinglish_to_kumaoni" = k
    /\ Chatbot.translate_phrase d k "kumaoni_to_hinglish" = p.
Proof.
  intros d p k G L U. unfold Chatbot.translate_phrase. simpl String.eqb.
  cbv iota. split.
  - now rewrite L, G.
  - rewrite (reverse_lookup_unique (Chatbot.phrases d) (lower k) p U);
      [reflexivity|].
    exists k. split; [now apply get_some_in | reflexivity].
Qed.

Lemma translate_phrase_round_trip_witness :
  Chatbot.translate_phrase Examples.store_overlap "ho gaya"
    "hinglish_to_kumaoni" = "hai go"
  /\ Chatbot.translate_phrase Examples.store_overlap "hai go"
       "kumaoni_to_hinglish" = "ho gaya".
Proof.
  apply (translate_phrase_round_trip Examples.store_overlap "ho gaya" "hai go");
    try reflexivity.
  intros p' k' I E. simpl in I.
  destruct I as [I|[I|[]]]; injection I as <- <-;
    solve [reflexivity | vm_compute in E; discriminate E].
Defined.

(** ** What the chatbot learns *)

(** X4.  After [learn_new_word(hinglish, kumaoni)] every word whose
    cleaned form is the normalised key translates forward to [kumaoni] as
    given (untrimmed), unless the key is a pronoun, a question word or a
    postposition, which go first.  The other vocabulary entries, the
    phrases and the grammar stay as they were, and the vocabulary written
    to its document is the new one. *)
Theorem learn_new_word_then_translate :
  forall d docs hinglish kumaoni,
    let d' := fst (Chatbot.learn_new_word d docs hinglish kumaoni) in
    let docs' := snd (Chatbot.learn_new_word d docs hinglish kumaoni) in
    let key := normal_key hinglish in
    (forall word,
        clean word = key ->
        get (Chatbot.pronouns (Chatbot.grammar d)) key = None ->
        get (Chatbot.question_words (Chatbot.grammar d)) key = None ->
        get (Chatbot.postpositions (Chatbot.grammar d)) key = None ->
        Chatbot.translate_word d' word "hinglish_to_kumaoni" = kumaoni)
    /\ (forall other, other <> key ->
          get (Chatbot.vocab d') other = get (Chatbot.vocab d) other)
    /\ Chatbot.phrases d' = Chatbot.phrases d
    /\ Chatbot.grammar d' = Chatbot.grammar d
    /\ (Chatbot.can_write docs = true ->
        Chatbot.vocab_document docs' = Some (Chatbot.vocab d')).
Proof.
  intros d docs hinglish kumaoni d' docs' key.
  split; [|split; [|split; [|split]]]; try reflexivity.
  - intros word C P Q O. unfold Chatbot.translate_word.
    fold (clean word). rewrite C. simpl String.eqb. cbv iota.
    subst d'. unfold Chatbot.learn_new_word. simpl.
    fold (normal_key hinglish). fold key.
    now rewrite P, Q, O, get_set_same.
  - intros other N. subst d'. unfold Chatbot.learn_new_word. simpl.
    now apply get_set_other.
  - intros W. subst docs' d'. unfold Chatbot.learn_new_word. simpl.
    now rewrite W.
Qed.

Lemma learn_new_word_then_translate_witness :
  Chatbot.translate_word
    (fst (Chatbot.learn_new_word Examples.store_kaise_ho
            Examples.blank_documents " Ghar " "Kud"))
    "GHAR?" "hinglish_to_kumaoni" = "Kud".
Proof.
  apply (proj1 (learn_new_word_then_translate Examples.store_kaise_ho
                  Examples.blank_documents " Ghar " "Kud"));
    reflexivity.
Defined.

(** X5.  After [learn_new_phrase(hinglish, kumaoni)] the phrase, in any
    capitalisation, translates forward to [kumaoni] with [translate_phrase];
    the vocabulary, the grammar and the other phrases stay as they were. *)
Theorem learn_new_phrase_then_translate :
  forall d docs hinglish kumaoni,
    let d' := fst (Chatbot.learn_new_phrase d docs hinglish kumaoni) in
    let key := normal_key hinglish in
    (forall phrase,
        lower phrase = key ->
        Chatbot.translate_phrase d' phrase "hinglish_to_kumaoni" = kumaoni)
    /\ (forall other, other <> key ->
          get (Chatbot.phrases d') other = get (Chatbot.phrases d) other)
    /\ Chatbot.vocab d' = Chatbot.vocab d
    /\ Chatbot.grammar d' = Chatbot.grammar d.
Proof.
  intros d docs hinglish kumaoni d' key.
  split; [|split; [|split]]; try reflexivity.
  - intros phrase L. unfold Chatbot.translate_phrase. simpl String.eqb.
    cbv iota. rewrite L. subst d'. unfold Chatbot.learn_new_phrase. simpl.
    fold (normal_key hinglish). fold key. now rewrite get_set_same.
  - intros other N. subst d'. unfold Chatbot.learn_new_phrase. simpl.
    now apply get_set_other.
Qed.

Lemma learn_new_phrase_then_translate_witness :
  Chatbot.translate_phrase
    (fst (Chatbot.learn_new_phrase Examples.store_kaise_ho
            Examples.blank_documents " Kya Haal Hai " "kas chal cha"))
    "KYA haal hai" "hinglish_to_kumaoni" = "kas chal cha".
Proof.
  apply (proj1 (learn_new_phrase_then_translate Examples.store_kaise_ho
                  Examples.blank_documents " Kya Haal Hai " "kas chal cha")).
  reflexivity.
Defined.

(** X6.  A phrase learnt from a blank text gets the empty key, and the
    empty string occurs in every text: from then on the forward phrase
    pass of [translate] lowercases what the other phrases leave of any
    text and puts the translation of the blank phrase before each of its
    characters and at its end. *)
Theorem blank_phrase_matches_every_text :
  forall d docs blank kumaoni text,
    normal_key blank = EmptyString ->
    get (Chatbot.phrases d) EmptyString = None ->
    let d' := fst (Chatbot.learn_new_phrase d docs blank kumaoni) in
    Chatbot.phrase_pass d' text "hinglish_to_kumaoni"
    = replace_empty kumaoni
        (lower (Chatbot.phrase_pass d text "hinglish_to_kumaoni")).
Proof.
  intros d docs blank kumaoni text B G d'. subst d'.
  unfold Chatbot.phrase_pass, Chatbot.learn_new_phrase. simpl String.eqb.
  cbv iota. cbn [fst Chatbot.phrases]. fold (normal_key blank). rewrite B.
  rewrite (set_absent _ _ _ G), fold_left_app. cbn [fold_left].
  unfold Chatbot.phrase_step_forward at 1. cbn [lower].
  now rewrite contains_empty.
Qed.

Lemma blank_phrase_matches_every_text_witness :
  Chatbot.phrase_pass
    (fst (Chatbot.learn_new_phrase Examples.store_main_na
            Examples.blank_documents "  " "x"))
    "Ab" "hinglish_to_kumaoni" = "xaxbx".
Proof.
  exact (blank_phrase_matches_every_text Examples.store_main_na
           Examples.blank_documents "  " "x" "Ab" eq_refl eq_refl).
Defined.

(** ** [detect_intent] *)

(** X7.  [detect_intent] looks for its keywords anywhere in the lowercased
    text, inside words too, and greetings go first: a text containing a
    string in which a greeting keyword occurs is a greeting, whatever else
    it says.  So nahi, which contains the keyword hi, makes any text a
    greeting. *)
Theorem detect_intent_greeting_inside_words :
  forall text keyword longer,
    In keyword Chatbot.greeting_words ->
    occurs_in keyword longer ->
    occurs_in longer (lower text) ->
    Chatbot.detect_intent text = "greeting".
Proof.
  intros text keyword longer I K L. unfold Chatbot.detect_intent.
  rewrite (any_in_occurs _ _ keyword I); [reflexivity|].
  now apply (occurs_in_trans keyword longer).
Qed.

Lemma detect_intent_greeting_inside_words_witness :
  Chatbot.detect_intent "Aaj mausam achha NAHI hai" = "greeting".
Proof.
  apply (detect_intent_greeting_inside_words
           "Aaj mausam achha NAHI hai" "hi" "nahi").
  - simpl. tauto.
  - now exists "na", EmptyString.
  - now exists "aaj mausam achha ", " hai".
Defined.

(** X8.  [detect_intent] answers one of six names, reads the text only
    through its lowercased form, and answers unknown only when none of the
    greeting, weather, food and culture keywords occurs in it. *)
Theorem detect_intent_answers :
  forall text,
    In (Chatbot.detect_intent text) intents
    /\ Chatbot.detect_intent (lower text) = Chatbot.detect_intent text
    /\ (Chatbot.detect_intent text = "unknown" ->
        forall keyword,
          In keyword (Chatbot.greeting_words ++ Chatbot.weather_words
                      ++ Chatbot.food_words ++ Chatbot.culture_words)%list ->
          ~ occurs_in keyword (lower text)).
Proof.
  intros text. split; [|split].
  - unfold Chatbot.detect_intent, intents.
    repeat match goal with
           | |- context [if ?b then _ else _] => destruct b
           end; simpl; tauto.
  - unfold Chatbot.detect_intent. now rewrite lower_idempotent.
  - unfold Chatbot.detect_intent. intros U keyword I O.
    destruct (Chatbot.any_in Chatbot.greeting_words (lower text)) eqn:G;
      [discriminate|].
    destruct (_ && _); [discriminate|].
    destruct (Chatbot.any_in Chatbot.weather_words (lower text)) eqn:W;
      [discriminate|].
    destruct (Chatbot.any_in Chatbot.food_words (lower text)) eqn:F;
      [discriminate|].
    destruct (Chatbot.any_in Chatbot.culture_words (lower text)) eqn:C;
      [discriminate|].
    rewrite !in_app_iff in I.
    destruct I as [I|[I|[I|I]]];
      [rewrite (any_in_occurs _ _ keyword I O) in G
      |rewrite (any_in_occurs _ _ keyword I O) in W
      |rewrite (any_in_occurs _ _ keyword I O) in F
      |rewrite (any_in_occurs _ _ keyword I O) in C]; discriminate.
Qed.

(** ** [save_conversation_history] *)

Section SaveHistory.
Variables (id : string) (current : list Chatbot.exchange).

Lemma update_first_session_ids (sessions : list Chatbot.session) :
  map Chatbot.saved_session_id (Chatbot.update_first_session sessions id current)
  = map Chatbot.saved_session_id sessions.
Proof.
  induction sessions as [|s rest IH]; simpl; [reflexivity|].
  destruct (String.eqb (Chatbot.saved_session_id s) id); simpl;
    [reflexivity | now rewrite IH].
Qed.

Lemma update_first_session_found (sessions : list Chatbot.session) :
  existsb (String.eqb id) (map Chatbot.saved_session_id sessions) = true ->
  exists s,
    find_session (Chatbot.update_first_session sessions id current) id = Some s
    /\ Chatbot.saved_exchanges s = current.
Proof.
  unfold find_session.
  induction sessions as [|s rest IH]; simpl; [discriminate|].
  rewrite (String.eqb_sym id). destruct (String.eqb (Chatbot.saved_session_id s) id) eqn:E; simpl.
  - intros _. rewrite E. eexists. split; reflexivity.
  - intros H. rewrite E. now apply IH.
Qed.

Lemma update_first_session_others (sessions : list Chatbot.session) :
  other_sessions (Chatbot.update_first_session sessions id current) id
  = other_sessions sessions id.
Proof.
  unfold other_sessions.
  induction sessions as [|s rest IH]; simpl; [reflexivity|].
  destruct (String.eqb (Chatbot.saved_session_id s) id) eqn:E; simpl;
    rewrite E; simpl; [reflexivity | now rewrite IH].
Qed.

Lemma update_first_session_again (sessions : list Chatbot.session) :
  Chatbot.update_first_session
    (Chatbot.update_first_session sessions id current) id current
  = Chatbot.update_first_session sessions id current.
Proof.
  induction sessions as [|s rest IH]; simpl; [reflexivity|].
  destruct (String.eqb (Chatbot.saved_session_id s) id) eqn:E; simpl;
    rewrite E; [reflexivity | now rewrite IH].
Qed.

Lemma update_first_session_last (sessions : list Chatbot.session)
  (start : string) :
  existsb (String.eqb id) (map Chatbot.saved_session_id sessions) = false ->
  Chatbot.update_first_session
    (sessions
     ++ [{| Chatbot.saved_session_id := id; Chatbot.start_time := start;
            Chatbot.saved_exchanges := current |}])%list id current
  = (sessions
     ++ [{| Chatbot.saved_session_id := id; Chatbot.start_time := start;
            Chatbot.saved_exchanges := current |}])%list.
Proof.
  induction sessions as [|s rest IH]; simpl.
  - now rewrite String.eqb_refl.
  - rewrite (String.eqb_sym id).
    destruct (String.eqb (Chatbot.saved_session_id s) id); simpl;
      [discriminate|]. intros H. now rewrite IH.
Qed.

Lemma find_session_last (sessions : list Chatbot.session) (s : Chatbot.session) :
  existsb (String.eqb id) (map Chatbot.saved_session_id sessions) = false ->
  Chatbot.saved_session_id s = id ->
  find_session (sessions ++ [s])%list id = Some s.
Proof.
  unfold find_session. intros H E.
  induction sessions as [|s0 rest IH]; simpl in *.
  - now rewrite E, String.eqb_refl.
  - rewrite (String.eqb_sym id) in H.
    destruct (String.eqb (Chatbot.saved_session_id s0) id); simpl in H;
      [discriminate|]. now apply IH.
Qed.
End SaveHistory.

(** X9.  After [save_conversation_history] the first saved session with
    the chatbot's id holds the current exchanges; the sessions of other
    ids are as before, in the same order; at most one session is added and
    none is removed; the history written is the history kept; and saving
    again at once, at whatever time, changes nothing. *)
Theorem save_conversation_history_keeps_session :
  forall sessions ctx id now later docs,
    let saved := Chatbot.save_conversation_history sessions ctx id now docs in
    (exists s,
        find_session (fst saved) id = Some s
        /\ Chatbot.saved_exchanges s = Chatbot.exchanges ctx)
    /\ other_sessions (fst saved) id = other_sessions sessions id
    /\ List.length sessions <= List.length (fst saved) <= S (List.length sessions)
    /\ (Chatbot.can_write docs = true ->
        Chatbot.history_document (snd saved) = Some (fst saved))
    /\ Chatbot.save_conversation_history (fst saved) ctx id later (snd saved)
       = saved.
Proof.
  intros sessions ctx id now later docs saved. subst saved.
  unfold Chatbot.save_conversation_history.
  destruct (existsb (String.eqb id) (map Chatbot.saved_session_id sessions))
    eqn:E; cbn [fst snd].
  - split; [now apply update_first_session_found|].
    split; [apply update_first_session_others|].
    split.
    { rewrite <- (length_map Chatbot.saved_session_id
                    (Chatbot.update_first_session _ _ _)).
      rewrite update_first_session_ids, length_map. lia. }
    split; [intros W; now rewrite W|].
    rewrite update_first_session_ids, E, update_first_session_again.
    destruct (Chatbot.can_write docs) eqn:W; simpl; try rewrite W; reflexivity.
  - split.
    { eexists. split; [apply find_session_last; [exact E | reflexivity]
                      | reflexivity]. }
    split.
    { unfold other_sessions. rewrite filter_app. simpl.
      rewrite String.eqb_refl. simpl. apply app_nil_r. }
    split; [rewrite length_app; simpl; lia|].
    split; [intros W; now rewrite W|].
    rewrite map_app, existsb_app. simpl. rewrite String.eqb_refl, orb_true_r.
    rewrite update_first_session_last by exact E.
    destruct (Chatbot.can_write docs) eqn:W; simpl; try rewrite W; reflexivity.
Qed.

(** ** The other teaching operations *)

Lemma filter_all_true {A : Type} (f : A -> bool) (l : list A) :
  (forall x, In x l -> f x = true) -> filter f l = l.
Proof.
  induction l as [|x l IH]; intros H; simpl; [reflexivity|].
  rewrite (H x (or_introl eq_refl)). f_equal. apply IH.
  intros y I. apply H. now right.
Qed.

Lemma has_example_iff (dataset : list PatternRecognizer.item)
  (hinglish kumaoni : string) :
  Trainer.has_example dataset hinglish kumaoni = true
  <-> In {| PatternRecognizer.hinglish := hinglish;
            PatternRecognizer.kumaoni := kumaoni |} dataset.
Proof.
  unfold Trainer.has_example. rewrite existsb_exists. split.
  - intros ([h k] & I & E). simpl in E. apply andb_true_iff in E.
    destruct E as [Eh Ek]. apply String.eqb_eq in Eh, Ek. now subst.
  - intros I. eexists. split; [exact I|]. simpl.
    now rewrite !String.eqb_refl.
Qed.

(** X10.  [add_example] trims the pair and refuses it, returning [False]
    and changing nothing, exactly when the trimmed pair is already in the
    dataset; otherwise it appends the trimmed pair.  Either way the pair
    is in the dataset afterwards, a dataset without repeated pairs stays
    without, a second call with the same arguments is refused, and the
    vocabulary, phrases, idioms, grammar and corrections are untouched. *)
Theorem add_example_no_duplicates :
  forall st hinglish kumaoni now later,
    let it := example_of hinglish kumaoni in
    let added := Trainer.add_example st hinglish kumaoni now in
    (fst added = false <-> In it (Trainer.dataset st))
    /\ (In it (Trainer.dataset st) -> snd added = st)
    /\ (~ In it (Trainer.dataset st) ->
        Trainer.dataset (snd added) = (Trainer.dataset st ++ [it])%list)
    /\ In it (Trainer.dataset (snd added))
    /\ (NoDup (Trainer.dataset st) -> NoDup (Trainer.dataset (snd added)))
    /\ Trainer.add_example (snd added) hinglish kumaoni later
       = (false, snd added)
    /\ Trainer.vocab (snd added) = Trainer.vocab st
    /\ Trainer.phrases (snd added) = Trainer.phrases st
    /\ Trainer.idioms (snd added) = Trainer.idioms st
    /\ Trainer.grammar (snd added) = Trainer.grammar st
    /\ Trainer.corrections (snd added) = Trainer.corrections st.
Proof.
  intros st hinglish kumaoni now later it added. subst added.
  unfold Trainer.add_example. fold (example_of hinglish kumaoni). fold it.
  destruct (Trainer.has_example (Trainer.dataset st) (strip hinglish)
              (strip kumaoni)) eqn:H.
  - pose proof (proj1 (has_example_iff _ _ _) H) as I.
    fold (example_of hinglish kumaoni) in I. fold it in I. cbn [fst snd].
    rewrite H. repeat split; auto. intros N. contradiction.
  - assert (N : ~ In it (Trainer.dataset st)).
    { intros I. apply (has_example_iff _ (strip hinglish) (strip kumaoni)) in I.
      congruence. }
    cbn [fst snd Trainer.dataset Trainer.vocab Trainer.phrases Trainer.idioms
         Trainer.grammar Trainer.corrections].
    assert (I : In it (Trainer.dataset st ++ [it])%list)
      by (apply in_or_app; right; now left).
    rewrite (proj2 (has_example_iff _ (strip hinglish) (strip kumaoni)) I).
    repeat split; auto; try discriminate; try contradiction.
    intros D. apply NoDup_app; [exact D | repeat constructor; simpl; tauto|].
    intros x Ix [<-|[]]. contradiction.
Qed.

Section AddPhrase.
Variables (st : Trainer.state) (hinglish kumaoni : string).
Variables (now_correction now_entry : string).

Lemma add_phrase_known :
  get (Trainer.phrases st) (normal_key hinglish) = Some (strip kumaoni) ->
  Trainer.add_phrase st hinglish kumaoni now_correction now_entry = (false, st).
Proof.
  unfold Trainer.add_phrase, normal_key. intros ->.
  now rewrite String.eqb_refl.
Qed.

Lemma add_phrase_stores :
  get (Trainer.phrases
         (snd (Trainer.add_phrase st hinglish kumaoni now_correction now_entry)))
      (normal_key hinglish) = Some (strip kumaoni).
Proof.
  unfold Trainer.add_phrase, normal_key.
  destruct (get (Trainer.phrases st) (strip (lower hinglish))) as [e|] eqn:G.
  - destruct (String.eqb e (strip kumaoni)) eqn:E; simpl.
    + apply String.eqb_eq in E. now subst e.
    + apply get_set_same.
  - simpl. apply get_set_same.
Qed.
End AddPhrase.

(** X11.  [add_phrase] treats phrases as [add_word] treats words.  It
    stores the trimmed translation under the lowercased, trimmed phrase; a
    second call with the same pair returns [False] and changes nothing;
    a call that replaces another value returns [True] and adds exactly one
    record, old value to new, to the corrections of that phrase; a call on
    a new phrase, or with the stored value, leaves the corrections alone.
    It never touches the vocabulary or the corrections of words. *)
Theorem add_phrase_records_and_repeats :
  forall st hinglish kumaoni t1 t2 t3 t4,
    let key := normal_key hinglish in
    let first := Trainer.add_phrase st hinglish kumaoni t1 t2 in
    get (Trainer.phrases (snd first)) key = Some (strip kumaoni)
    /\ Trainer.add_phrase (snd first) hinglish kumaoni t3 t4
       = (false, snd first)
    /\ (forall existing,
          get (Trainer.phrases st) key = Some existing ->
          existing <> strip kumaoni ->
          fst first = true
          /\ get (Training.phrases_corrections (Trainer.corrections (snd first)))
                 key
             = Some (stored (Training.phrases_corrections (Trainer.corrections st))
                            key
                     ++ [{| Training.old := existing;
                            Training.new := strip kumaoni;
                            Training.timestamp := t1 |}])%list)
    /\ (get (Trainer.phrases st) key = None
        \/ get (Trainer.phrases st) key = Some (strip kumaoni) ->
        Trainer.corrections (snd first) = Trainer.corrections st)
    /\ Trainer.vocab (snd first) = Trainer.vocab st
    /\ Training.words (Trainer.corrections (snd first))
       = Training.words (Trainer.corrections st).
Proof.
  intros st hinglish kumaoni t1 t2 t3 t4 key first.
  split; [apply add_phrase_stores|].
  split; [apply add_phrase_known, add_phrase_stores|].
  subst first. unfold Trainer.add_phrase. fold (normal_key hinglish). fold key.
  destruct (get (Trainer.phrases st) key) as [e|] eqn:G.
  - destruct (String.eqb_spec e (strip kumaoni)) as [->|N]; cbn [fst snd].
    + split; [|split; [|split]]; try reflexivity.
      intros e0 Ge D. injection Ge as <-. congruence.
    + split; [|split; [|split]]; try reflexivity.
      * intros e0 Ge _. injection Ge as <-. split; [reflexivity|].
        unfold stored. simpl. apply get_set_same.
      * intros [D|D]; [discriminate | congruence].
  - cbn [fst snd]. split; [|split; [|split]]; try reflexivity.
    intros e0 Ge. discriminate Ge.
Qed.

Lemma add_phrase_records_and_repeats_witness :
  fst (Trainer.add_phrase Examples.trainer_taught " Kaise Ho" "kas chha "
         "t1" "t2") = true
  /\ get (Training.phrases_corrections
            (Trainer.corrections
               (snd (Trainer.add_phrase Examples.trainer_taught
                       " Kaise Ho" "kas chha " "t1" "t2")))) "kaise ho"
     = Some [{| Training.old := "kas cha"; Training.new := "kas chha";
                Training.timestamp := "t1" |}].
Proof.
  apply (proj1 (proj2 (proj2 (add_phrase_records_and_repeats
                                Examples.trainer_taught " Kaise Ho" "kas chha "
                                "t1" "t2" "t3" "t4"))) "kas cha").
  - reflexivity.
  - vm_compute. discriminate.
Defined.

(** X12.  [add_idiom] has no memory of earlier meanings: taught twice,
    an idiom keeps the second meaning, trimmed, under its trimmed text (in
    the capitals given, since the key is not lowercased); both calls return
    [True]; no correction is recorded and nothing else is touched. *)
Theorem add_idiom_last_meaning_wins :
  forall st kumaoni meaning1 meaning2 t1 t2,
    let first := Trainer.add_idiom st kumaoni meaning1 t1 in
    let second := Trainer.add_idiom (snd first) kumaoni meaning2 t2 in
    fst first = true /\ fst second = true
    /\ get (Trainer.idioms (snd second)) (strip kumaoni) = Some (strip meaning2)
    /\ (forall other, other <> strip kumaoni ->
          get (Trainer.idioms (snd second)) other
          = get (Trainer.idioms st) other)
    /\ Trainer.corrections (snd second) = Trainer.corrections st
    /\ Trainer.vocab (snd second) = Trainer.vocab st
    /\ Trainer.phrases (snd second) = Trainer.phrases st
    /\ Trainer.dataset (snd second) = Trainer.dataset st.
Proof.
  intros st kumaoni meaning1 meaning2 t1 t2 first second.
  subst second first. unfold Trainer.add_idiom. simpl.
  repeat split.
  - apply get_set_same.
  - intros other N. now rewrite !get_set_other.
Qed.

(** X13.  After [add_grammar_rule(category, hinglish, kumaoni)] the
    grammar gives the trimmed Kumaoni form for the lowercased, trimmed
    Hinglish form of that category, and for every other category or form
    what it gave before; a category that was missing is created, at the
    end, and the categories that were there keep their order. *)
Theorem add_grammar_rule_then_lookup :
  forall st category hinglish kumaoni now,
    let st' := snd (Trainer.add_grammar_rule st category hinglish kumaoni now) in
    grammar_rule (Trainer.grammar st') category (normal_key hinglish)
    = Some (strip kumaoni)
    /\ (forall category' form,
          category' <> category \/ form <> normal_key hinglish ->
          grammar_rule (Trainer.grammar st') category' form
          = grammar_rule (Trainer.grammar st) category' form)
    /\ keys (Trainer.grammar st')
       = (if mem (Trainer.grammar st) category
          then keys (Trainer.grammar st)
          else keys (Trainer.grammar st) ++ [category])%list.
Proof.
  intros st category hinglish kumaoni now st'. subst st'.
  unfold Trainer.add_grammar_rule, grammar_rule. cbn [snd Trainer.grammar].
  fold (normal_key hinglish). split; [|split].
  - rewrite get_set_same. apply get_set_same.
  - intros category' form D.
    destruct (String.eqb_spec category' category) as [->|N].
    + rewrite get_set_same. destruct D as [D|D]; [congruence|].
      rewrite get_set_other by exact D.
      now destruct (get (Trainer.grammar st) category).
    + now rewrite get_set_other.
  - destruct (mem (Trainer.grammar st) category) eqn:M.
    + now apply keys_set_present.
    + now apply keys_set_absent.
Qed.

(** X14.  A pronoun taught with [add_grammar_rule] is what the chatbot
    answers once it reads the grammar document: with the four categories
    in the document, every word whose cleaned form is the taught form
    translates forward to the taught Kumaoni form, whatever the vocabulary
    and the other tables hold, since pronouns go first.  Teaching a rule
    does not remove any of the four categories. *)
Theorem taught_pronoun_is_translated :
  forall st hinglish kumaoni now,
    let st' :=
      snd (Trainer.add_grammar_rule st "pronouns" hinglish kumaoni now) in
    (forall g' vocab phrases word,
        chatbot_grammar (Trainer.grammar st') = Some g' ->
        clean word = normal_key hinglish ->
        Chatbot.translate_word
          {| Chatbot.vocab := vocab; Chatbot.phrases := phrases;
             Chatbot.grammar := g' |}
          word "hinglish_to_kumaoni" = strip kumaoni)
    /\ (chatbot_grammar (Trainer.grammar st) <> None ->
        chatbot_grammar (Trainer.grammar st') <> None).
Proof.
  intros st hinglish kumaoni now st'. subst st'.
  unfold Trainer.add_grammar_rule. cbn [snd Trainer.grammar].
  fold (normal_key hinglish).
  set (rules := match get (Trainer.grammar st) "pronouns" with
                | Some rules => rules
                | None => []
                end).
  split.
  - intros g' vocab phrases word G C. unfold chatbot_grammar in G.
    rewrite get_set_same in G.
    destruct (get (set (Trainer.grammar st) "pronouns"
                     (set rules (normal_key hinglish) (strip kumaoni)))
                "verb_endings"); [|discriminate].
    destruct (get (set (Trainer.grammar st) "pronouns"
                     (set rules (normal_key hinglish) (strip kumaoni)))
                "postpositions"); [|discriminate].
    destruct (get (set (Trainer.grammar st) "pronouns"
                     (set rules (normal_key hinglish) (strip kumaoni)))
                "question_words"); [|discriminate].
    injection G as <-. unfold Chatbot.translate_word. fold (clean word).
    rewrite C. simpl String.eqb. cbv iota. cbn [Chatbot.grammar Chatbot.pronouns].
    now rewrite get_set_same.
  - unfold chatbot_grammar. rewrite get_set_same.
    rewrite !get_set_other by discriminate.
    destruct (get (Trainer.grammar st) "verb_endings"); [|tauto].
    destruct (get (Trainer.grammar st) "postpositions"); [|tauto].
    destruct (get (Trainer.grammar st) "pronouns"); [|tauto].
    destruct (get (Trainer.grammar st) "question_words"); [|tauto].
    discriminate.
Qed.

Lemma taught_pronoun_is_translated_witness :
  Chatbot.translate_word
    {| Chatbot.vocab := [("hum", "ham log")]; Chatbot.phrases := [];
       Chatbot.grammar :=
         {| Chatbot.verb_endings := [("na", "no")];
            Chatbot.postpositions := [("ka", "ko")];
            Chatbot.pronouns := [("main", "ma"); ("hum", "hami")];
            Chatbot.question_words := [("kya", "ke")] |} |}
    "Hum," "hinglish_to_kumaoni" = "hami".
Proof.
  apply (proj1 (taught_pronoun_is_translated Examples.trainer_taught
                  " Hum" "hami " "t")
           {| Chatbot.verb_endings := [("na", "no")];
              Chatbot.postpositions := [("ka", "ko")];
              Chatbot.pronouns := [("main", "ma"); ("hum", "hami")];
              Chatbot.question_words := [("kya", "ke")] |}
           [("hum", "ham log")] [] "Hum,"); reflexivity.
Defined.

(** X15.  [search] lowercases and trims the query and reports, for each
    store and in the order of the store, the entries whose lowercased key
    or lowercased value contains it.  A blank query is contained in
    everything: it reports every word, phrase and idiom. *)
Theorem search_reports_matches :
  forall st query,
    let q := normal_key query in
    let results := Trainer.search st query in
    (forall h k,
        In (h, k) (Trainer.found_words results)
        <-> In (h, k) (Trainer.vocab st)
            /\ (occurs_in q (lower h) \/ occurs_in q (lower k)))
    /\ (forall h k,
          In (h, k) (Trainer.found_phrases results)
          <-> In (h, k) (Trainer.phrases st)
              /\ (occurs_in q (lower h) \/ occurs_in q (lower k)))
    /\ (forall h k,
          In (h, k) (Trainer.found_idioms results)
          <-> In (h, k) (Trainer.idioms st)
              /\ (occurs_in q (lower h) \/ occurs_in q (lower k)))
    /\ (q = EmptyString ->
        Trainer.found_words results = Trainer.vocab st
        /\ Trainer.found_phrases results = Trainer.phrases st
        /\ Trainer.found_idioms results = Trainer.idioms st).
Proof.
  intros st query q results.
  assert (M : forall d h k,
             In (h, k) (Trainer.matching q d)
             <-> In (h, k) d
                 /\ (occurs_in q (lower h) \/ occurs_in q (lower k))).
  { intros d h k. unfold Trainer.matching. rewrite filter_In. simpl.
    rewrite orb_true_iff, !contains_occurs. tauto. }
  assert (B : q = EmptyString -> forall d, Trainer.matching q d = d).
  { intros -> d. apply filter_all_true. intros e _.
    now rewrite contains_empty. }
  subst results. unfold Trainer.search. fold (normal_key query). fold q.
  cbn [Trainer.found_words Trainer.found_phrases Trainer.found_idioms].
  split; [apply M|]. split; [apply M|]. split; [apply M|].
  intros E. now rewrite !(B E).
Qed.

Lemma search_reports_matches_witness :
  Trainer.found_words (Trainer.search Examples.trainer_taught "   ")
  = Trainer.vocab Examples.trainer_taught
  /\ Trainer.found_phrases (Trainer.search Examples.trainer_taught "   ")
     = Trainer.phrases Examples.trainer_taught
  /\ Trainer.found_idioms (Trainer.search Examples.trainer_taught "   ")
     = Trainer.idioms Examples.trainer_taught.
Proof.
  exact (proj2 (proj2 (proj2 (search_reports_matches
                                Examples.trainer_taught "   "))) eq_refl).
Defined.

(** ** [extract_expressions]: the categories *)

Lemma key_get_some {V : Type} (d : dict V) (k : string) :
  In k (keys d) -> exists v, get d k = Some v.
Proof.
  intros I. destruct (get d k) as [v|] eqn:G; [now exists v|].
  now apply get_none_not_key in G.
Qed.

Section Expressions.
Import PatternRecognizer.

Lemma category_of_named (it : item) (c : string) :
  category_of it = Some c -> In c expression_categories.
Proof.
  unfold category_of, expression_categories.
  repeat match goal with
         | |- (if ?b then _ else _) = _ -> _ => destruct b
         end; intros [= <-]; simpl; tauto.
Qed.

Lemma mentions_occurs (words : list string) (hinglish_lower kumaoni_lower : string)
  (keyword : string) :
  In keyword words ->
  occurs_in keyword hinglish_lower \/ occurs_in keyword kumaoni_lower ->
  mentions words hinglish_lower kumaoni_lower = true.
Proof.
  intros I O. unfold mentions. apply orb_true_iff.
  destruct O as [O|O]; [left|right]; apply existsb_exists; exists keyword;
    (split; [exact I | now apply contains_occurs]).
Qed.

Lemma file_under_keys (e : dict (list item)) (c : string) (it : item) :
  keys (file_under e c it) = keys e.
Proof.
  unfold file_under. destruct (get e c) as [l|] eqn:G; [|reflexivity].
  apply keys_set_present. unfold mem. now rewrite G.
Qed.

Lemma stored_file_under (e : dict (list item)) (c q : string) (it : item) :
  In c (keys e) ->
  stored (file_under e c it) q
  = (stored e q ++ (if String.eqb c q then [it] else []))%list.
Proof.
  intros I. destruct (key_get_some _ _ I) as [l G].
  unfold file_under, stored. rewrite G.
  destruct (String.eqb_spec c q) as [<-|D].
  - now rewrite get_set_same, G.
  - rewrite get_set_other by congruence. now rewrite app_nil_r.
Qed.

Lemma stored_no_expressions (q : string) : stored no_expressions q = [].
Proof.
  unfold stored, no_expressions. cbn [get].
  repeat match goal with
         | |- context [String.eqb q ?s] => destruct (String.eqb q s)
         end; reflexivity.
Qed.

(** The loop of [extract_expressions] from any [expressions] with the
    seven categories: each list grows by the pairs filed under it. *)
Lemma extract_expressions_loop (dataset : list item) : forall e,
  keys e = expression_categories ->
  let e' :=
    fold_left
      (fun expressions it =>
         match category_of it with
         | Some category => file_under expressions category it
         | None => expressions
         end)
      dataset e in
  keys e' = expression_categories
  /\ forall q, stored e' q = (stored e q ++ filed_under dataset q)%list.
Proof.
  induction dataset as [|it rest IH]; intros e K; cbn [fold_left].
  - split; [exact K|]. intros q. simpl. now rewrite app_nil_r.
  - destruct (category_of it) as [c|] eqn:C.
    + assert (K' : keys (file_under e c it) = expression_categories)
        by now rewrite file_under_keys.
      destruct (IH _ K') as [Keys Stored]. split; [exact Keys|].
      intros q. rewrite Stored, stored_file_under.
      * unfold filed_under. cbn [filter]. rewrite C.
        rewrite <- app_assoc. now destruct (String.eqb c q).
      * rewrite K. now apply (category_of_named it).
    + destruct (IH _ K) as [Keys Stored]. split; [exact Keys|].
      intros q. rewrite Stored. unfold filed_under. cbn [filter].
      now rewrite C.
Qed.

Lemma extract_expressions_stored (dataset : list item) (q : string) :
  stored (extract_expressions dataset) q = filed_under dataset q.
Proof.
  destruct (extract_expressions_loop dataset no_expressions eq_refl) as [_ S].
  unfold extract_expressions. rewrite S. now rewrite stored_no_expressions.
Qed.

Lemma filed_under_category (dataset : list item) (q : string) (it : item) :
  In it (filed_under dataset q) <-> In it dataset /\ category_of it = Some q.
Proof.
  unfold filed_under. rewrite filter_In.
  destruct (category_of it) as [c|]; [|intuition discriminate].
  destruct (String.eqb_spec c q) as [->|D]; [tauto|].
  split; intros [I E]; [discriminate | congruence].
Qed.
Lemma extract_expressions_keys_and_lists (dataset : list item) :
  keys (extract_expressions dataset) = expression_categories
  /\ forall q, stored (extract_expressions dataset) q = filed_under dataset q.
Proof.
  split; [|intros q; apply extract_expressions_stored].
  exact (proj1 (extract_expressions_loop dataset no_expressions eq_refl)).
Qed.
End Expressions.

(** X16.  [extract_expressions] returns the seven categories, in the
    order the code lists them, whatever the corpus; the list of a category
    holds, in corpus order, the pairs for which that category is the first
    of the chain whose test holds.  So a pair of the corpus is in the list
    of at most one category, and a list holds pairs of the corpus only. *)
Theorem extract_expressions_files_each_pair_once :
  forall dataset,
    let expressions := PatternRecognizer.extract_expressions dataset in
    keys expressions = expression_categories
    /\ (forall category,
          In category expression_categories ->
          get expressions category = Some (filed_under dataset category))
    /\ (forall category,
          ~ In category expression_categories ->
          get expressions category = None)
    /\ (forall it c1 c2,
          In it (stored expressions c1) -> In it (stored expressions c2) ->
          c1 = c2)
    /\ (forall it category,
          In it (stored expressions category) -> In it dataset).
Proof.
  intros dataset expressions. subst expressions.
  destruct (extract_expressions_loop dataset PatternRecognizer.no_expressions
              eq_refl) as [K _].
  fold (PatternRecognizer.extract_expressions dataset) in K.
  split; [exact K|]. split; [|split; [|split]].
  - intros category I. rewrite <- K in I.
    destruct (key_get_some _ _ I) as [l G].
    pose proof (extract_expressions_stored dataset category) as S.
    unfold stored in S. rewrite G in S. now rewrite G, S.
  - intros category N. apply not_key_get_none. now rewrite K.
  - intros it c1 c2. rewrite !extract_expressions_stored.
    rewrite !filed_under_category. intros [_ E1] [_ E2]. congruence.
  - intros it category. rewrite extract_expressions_stored.
    rewrite filed_under_category. tauto.
Qed.

(** X17.  The greeting test comes first and looks for its keywords
    anywhere in the text, inside words too.  A pair of the corpus one of
    whose two texts, lowercased, has a word containing a greeting keyword
    is filed under greetings and under no other category: [hi] is in
    [nahi], so a sentence with [nahi] is never a negation; [kaise] and
    [kas] never make a question, nor [shubh] a farewell. *)
Theorem greeting_keywords_shadow_later_categories :
  forall dataset it keyword w,
    In it dataset ->
    In keyword PatternRecognizer.greeting_words ->
    occurs_in keyword w ->
    occurs_in w (lower (PatternRecognizer.hinglish it))
    \/ occurs_in w (lower (PatternRecognizer.kumaoni it)) ->
    forall category,
      In it (stored (PatternRecognizer.extract_expressions dataset) category)
      <-> category = "greetings".
Proof.
  intros dataset it keyword w I G O T category.
  assert (C : PatternRecognizer.category_of it = Some "greetings").
  { unfold PatternRecognizer.category_of.
    rewrite (mentions_occurs PatternRecognizer.greeting_words _ _ keyword G);
      [reflexivity|].
    destruct T as [T|T]; [left|right]; exact (occurs_in_trans _ _ _ O T). }
  rewrite extract_expressions_stored, filed_under_category. split.
  - intros [_ E]. congruence.
  - intros ->. now split.
Qed.

Lemma greeting_keywords_shadow_witness :
  In Examples.refusal
     (stored (PatternRecognizer.extract_expressions [Examples.refusal])
             "greetings")
  /\ ~ In Examples.refusal
          (stored (PatternRecognizer.extract_expressions [Examples.refusal])
                  "negations").
Proof.
  set (it := Examples.refusal).
  assert (S : forall category,
             In it (stored (PatternRecognizer.extract_expressions [it]) category)
             <-> category = "greetings").
  { apply (greeting_keywords_shadow_later_categories [it] it "hi" "nahi").
    - now left.
    - simpl. tauto.
    - now exists "na", EmptyString.
    - left. now exists "main ", " aaunga". }
  split.
  - now apply S.
  - intros N. apply S in N. discriminate N.
Defined.

(** ** [extract_collocations]: what is counted and what is kept *)

Lemma fold_left_map_arg {A B C : Type} (f : A -> B -> A) (g : C -> B)
  (l : list C) : forall a,
  fold_left f (map g l) a = fold_left (fun a x => f a (g x)) l a.
Proof. induction l as [|x l IH]; intros a; simpl; auto. Qed.

Lemma get_filter_values {V : Type} (keep : V -> bool) (d : dict V) (k : string) :
  wf d ->
  get (filter (fun entry => keep (snd entry)) d) k
  = match get d k with
    | Some v => if keep v then Some v else None
    | None => None
    end.
Proof.
  unfold wf. induction d as [|[k0 v0] rest IH]; intros W; [reflexivity|].
  simpl in W. inversion W as [|? ? Fresh W']; subst.
  cbn [filter snd get]. destruct (String.eqb_spec k k0) as [->|D].
  - destruct (keep v0) eqn:K; cbn [get].
    + now rewrite String.eqb_refl.
    + rewrite (IH W'). now rewrite (not_key_get_none _ _ Fresh).
  - destruct (keep v0) eqn:K; cbn [get].
    + apply String.eqb_neq in D. rewrite D. now apply IH.
    + now apply IH.
Qed.

Lemma two_keys_length {V : Type} (d : dict V) (k1 k2 : string) (v1 v2 : V) :
  get d k1 = Some v1 -> get d k2 = Some v2 -> k1 <> k2 -> 2 <= List.length d.
Proof.
  destruct d as [|[a va] [|[b vb] rest]]; simpl; try lia; [discriminate|].
  destruct (String.eqb_spec k1 a) as [->|]; [|discriminate].
  destruct (String.eqb_spec k2 a) as [->|]; [|discriminate]. congruence.
Qed.

Section Collocations.
Import PatternRecognizer.

Lemma kept_counts_nil : kept_counts [].
Proof. split; [constructor | discriminate]. Qed.

Lemma bump_count_one (c : dict (dict nat)) (w n : string) :
  bump c w n
  = set c w (count_one (match get c w with Some co => co | None => [] end) n).
Proof. reflexivity. Qed.

Lemma pair_count_bump (c : dict (dict nat)) (w n w' n' : string) :
  pair_count (bump c w n) w' n'
  = pair_count c w' n'
    + (if String.eqb w w' && String.eqb n n' then 1 else 0).
Proof.
  rewrite bump_count_one. unfold pair_count.
  destruct (String.eqb_spec w w') as [<-|D].
  - rewrite get_set_same, counted_count_one. cbn [andb].
    now destruct (get c w).
  - rewrite get_set_other by congruence. cbn [andb]. lia.
Qed.

Lemma kept_pairs_bump (c : dict (dict nat)) (w n : string) :
  kept_pairs c -> kept_pairs (bump c w n).
Proof.
  intros [W K]. rewrite bump_count_one. split; [now apply wf_set|].
  intros w' co. destruct (String.eqb_spec w' w) as [->|D].
  - rewrite get_set_same. intros [= <-]. apply kept_counts_count_one.
    destruct (get c w) as [co0|] eqn:G;
      [exact (K _ _ G) | exact kept_counts_nil].
  - rewrite get_set_other by exact D. apply K.
Qed.

(** The index loop visits the pairs of neighbouring words. *)
Lemma neighbours_by_index (words : list string) :
  map (fun i => (nth i words EmptyString, nth (i + 1) words EmptyString))
      (seq 0 (List.length words - 1))
  = neighbours words.
Proof.
  unfold neighbours. induction words as [|a rest IH]; [reflexivity|].
  destruct rest as [|b rest']; [reflexivity|].
  change (List.length (a :: b :: rest') - 1) with (S (List.length rest')).
  replace (List.length (b :: rest') - 1) with (List.length rest') in IH
    by (simpl; lia).
  cbn [tl] in IH.
  cbn [seq map tl]. change (combine (a :: b :: rest') (b :: rest'))
    with ((a, b) :: combine (b :: rest') rest').
  f_equal. rewrite <- IH, <- seq_shift, map_map.
  apply map_ext. intros i. reflexivity.
Qed.

Lemma pair_count_pairs (pairs : list (string * string)) (w n : string) :
  forall c,
    pair_count (fold_left (fun c p => bump c (fst p) (snd p)) pairs c) w n
    = pair_count c w n
      + List.length
          (filter (fun p => String.eqb (fst p) w && String.eqb (snd p) n)
                  pairs).
Proof.
  induction pairs as [|p rest IH]; intros c; cbn [fold_left filter].
  - simpl. lia.
  - rewrite IH, pair_count_bump.
    destruct (String.eqb (fst p) w && String.eqb (snd p) n); simpl; lia.
Qed.

Lemma collect_pairs_neighbours (c : dict (dict nat)) (it : item) :
  collect_pairs c it
  = fold_left (fun c p => bump c (fst p) (snd p))
      (neighbours (split (lower (kumaoni it)))) c.
Proof.
  unfold collect_pairs. cbv zeta. rewrite <- neighbours_by_index.
  rewrite fold_left_map_arg. cbn [fst snd].
  destruct (2 <=? List.length (split (lower (kumaoni it)))) eqn:L;
    [reflexivity|].
  apply Nat.leb_gt in L.
  replace (List.length (split (lower (kumaoni it))) - 1) with 0 by lia.
  reflexivity.
Qed.

Lemma pair_count_collect (dataset : list item) (w n : string) : forall c,
  pair_count (fold_left collect_pairs dataset c) w n
  = pair_count c w n + follows dataset w n.
Proof.
  induction dataset as [|it rest IH]; intros c; cbn [fold_left].
  - unfold follows. simpl. lia.
  - rewrite IH, collect_pairs_neighbours, pair_count_pairs.
    unfold follows. cbn [map list_sum fold_right].
    rewrite <- Nat.add_assoc. reflexivity.
Qed.

Lemma kept_pairs_collect (dataset : list item) :
  kept_pairs (fold_left collect_pairs dataset []).
Proof.
  apply fold_left_invariant.
  - intros c it K. rewrite collect_pairs_neighbours.
    apply fold_left_invariant; [|exact K].
    intros c' p K'. now apply kept_pairs_bump.
  - split; [constructor | discriminate].
Qed.

(** What the first loop leaves under a word: the followers of the word,
    each with the number of times it follows. *)
Lemma collected_followers (dataset : list item) (w : string) :
  match get (fold_left collect_pairs dataset []) w with
  | Some co =>
      kept_counts co
      /\ forall n, get co n = match follows dataset w n with
                              | 0 => None
                              | S k => Some (S k)
                              end
  | None => forall n, follows dataset w n = 0
  end.
Proof.
  pose proof (pair_count_collect dataset w) as P.
  destruct (kept_pairs_collect dataset) as [_ K].
  destruct (get (fold_left collect_pairs dataset []) w) as [co|] eqn:G.
  - specialize (K w co G). split; [exact K|]. intros n.
    specialize (P n []). unfold pair_count in P. rewrite G in P. simpl in P.
    unfold counted in P. destruct K as [_ Pos].
    destruct (get co n) as [k|] eqn:Gn.
    + specialize (Pos n k Gn). rewrite <- P. destruct k; [lia | reflexivity].
    + now rewrite <- P.
  - intros n. specialize (P n []). unfold pair_count in P. rewrite G in P.
    simpl in P. lia.
Qed.

Lemma insert_by_count_in (x y : string * nat) (l : list (string * nat)) :
  In y (insert_by_count x l) <-> x = y \/ In y l.
Proof.
  induction l as [|z l IH]; simpl; [tauto|].
  destruct (snd z <=? snd x); simpl; [tauto | rewrite IH; tauto].
Qed.

Lemma sorted_by_count_in (c : dict nat) (y : string * nat) :
  In y (sorted_by_count c) <-> In y c.
Proof.
  unfold sorted_by_count. induction c as [|x c IH]; simpl; [tauto|].
  rewrite insert_by_count_in, IH. tauto.
Qed.

Lemma insert_by_count_descending (x : string * nat) (l : list (string * nat)) :
  descending l -> descending (insert_by_count x l).
Proof.
  induction l as [|z l IH]; simpl; intros D.
  - split; [intros y [] | exact I].
  - destruct (snd z <=? snd x) eqn:L.
    + apply Nat.leb_le in L. simpl. split; [|exact D].
      intros y [<-|Iy]; [exact L|]. destruct D as [M _].
      specialize (M y Iy). lia.
    + apply Nat.leb_gt in L. destruct D as [M D']. simpl.
      split; [|now apply IH].
      intros y Iy. apply (proj1 (insert_by_count_in x y l)) in Iy.
      destruct Iy as [<-|Iy]; [lia | now apply M].
Qed.

Lemma sorted_by_count_descending (c : dict nat) :
  descending (sorted_by_count c).
Proof.
  unfold sorted_by_count. induction c as [|x c IH]; simpl; [exact I|].
  now apply insert_by_count_descending.
Qed.

Lemma insert_by_count_keys (x : string * nat) (l : list (string * nat)) :
  ~ In (fst x) (map fst l) -> NoDup (map fst l) ->
  NoDup (map fst (insert_by_count x l)).
Proof.
  induction l as [|z l IH]; simpl; intros N D.
  - constructor; [tauto | constructor].
  - destruct (snd z <=? snd x); simpl.
    + constructor; [simpl; tauto | exact D].
    + inversion D as [|? ? Nz D']; subst. constructor.
      * intros Iz. apply in_map_iff in Iz. destruct Iz as (y & E & Iy).
        apply (proj1 (insert_by_count_in x y l)) in Iy.
        destruct Iy as [<-|Iy].
        -- apply N. now left.
        -- apply Nz. rewrite <- E. now apply in_map.
      * apply IH; [tauto | exact D'].
Qed.

Lemma sorted_by_count_keys (c : dict nat) :
  wf c -> NoDup (map fst (sorted_by_count c)).
Proof.
  unfold wf, keys.
  induction c as [|x c IH]; intros W; [constructor|].
  cbn [map] in W. inversion W as [|? ? N W']; subst.
  change (sorted_by_count (x :: c))
    with (insert_by_count x (sorted_by_count c)).
  apply insert_by_count_keys; [|now apply IH].
  intros Ix. apply N. apply in_map_iff in Ix. destruct Ix as (y & E & Iy).
  apply (proj1 (sorted_by_count_in c y)) in Iy. rewrite <- E.
  now apply in_map.
Qed.

Lemma descending_app (l1 l2 : list (string * nat)) :
  descending (l1 ++ l2)%list ->
  descending l1
  /\ forall x y, In x l1 -> In y l2 -> snd y <= snd x.
Proof.
  induction l1 as [|a l1 IH]; simpl; intros D.
  - split; [exact I | intros x y []].
  - destruct D as [M D]. destruct (IH D) as [D1 C]. split.
    + split; [|exact D1]. intros y Iy. apply M. apply in_or_app. now left.
    + intros x y [<-|Ix] Iy; [|now apply C].
      apply M. apply in_or_app. now right.
Qed.

Lemma descending_filter (f : string * nat -> bool) (l : list (string * nat)) :
  descending l -> descending (filter f l).
Proof.
  induction l as [|a l IH]; simpl; intros D; [exact I|].
  destruct D as [M D]. destruct (f a); simpl; [|now apply IH].
  split; [|now apply IH]. intros y Iy. apply filter_In in Iy. now apply M.
Qed.

Lemma keys_filter_NoDup (f : string * nat -> bool) (l : list (string * nat)) :
  NoDup (map fst l) -> NoDup (map fst (filter f l)).
Proof.
  induction l as [|a l IH]; simpl; intros D; [constructor|].
  inversion D as [|? ? N D']; subst. destruct (f a); simpl; [|now apply IH].
  constructor; [|now apply IH].
  intros Ia. apply N. apply in_map_iff in Ia. destruct Ia as (y & E & Iy).
  apply filter_In in Iy. rewrite <- E. now apply in_map.
Qed.

Lemma keys_firstn_NoDup (n : nat) (l : list (string * nat)) :
  NoDup (map fst l) -> NoDup (map fst (firstn n l)).
Proof.
  intros D. rewrite <- (firstn_skipn n l), map_app in D.
  now apply NoDup_app_remove_r in D.
Qed.

(** The first [top] entries by count, of those the entries with a count
    of two or more. *)
Lemma top_kept (co : dict nat) (top : nat) :
  wf co -> 1 <= top ->
  let l := filter (fun wc => 2 <=? snd wc) (firstn top (sorted_by_count co)) in
  List.length l <= top
  /\ descending l
  /\ NoDup (map fst l)
  /\ (forall n k, In (n, k) l -> get co n = Some k /\ 2 <= k)
  /\ (forall n k e,
        get co n = Some k -> ~ In n (map fst l) -> In e l -> k <= snd e)
  /\ (forall n k, get co n = Some k -> 2 <= k -> l <> []).
Proof.
  intros W T l. subst l.
  set (s := sorted_by_count co).
  pose proof (sorted_by_count_descending co) as D. fold s in D.
  rewrite <- (firstn_skipn top s) in D. apply descending_app in D.
  destruct D as [D Top].
  assert (A : forall n k,
             get co n = Some k -> 2 <= k ->
             In (n, k) (filter (fun wc => 2 <=? snd wc) (firstn top s))
             \/ (forall e, In e (firstn top s) -> k <= snd e)
                /\ firstn top s <> []).
  { intros n k G K. apply get_some_in in G.
    apply (proj2 (sorted_by_count_in co (n, k))) in G. fold s in G.
    rewrite <- (firstn_skipn top s) in G. apply in_app_or in G.
    destruct G as [G|G].
    - left. apply filter_In. split; [exact G|]. now apply Nat.leb_le.
    - right. split.
      + intros e Ie. exact (Top e (n, k) Ie G).
      + destruct top as [|top']; [lia|].
        destruct s as [|a s']; [destruct G | discriminate]. }
  split; [|split; [|split; [|split; [|split]]]].
  - apply (Nat.le_trans _ (List.length (firstn top s)));
      [apply filter_length_le | exact (firstn_le_length top s)].
  - now apply descending_filter.
  - exact (keys_filter_NoDup _ _
             (keys_firstn_NoDup top s (sorted_by_count_keys co W))).
  - intros n k Ink. apply filter_In in Ink. destruct Ink as [Ink K].
    apply Nat.leb_le in K. cbn [snd] in K. split; [|exact K].
    apply (in_wf_get _ _ _ W). apply (proj1 (sorted_by_count_in co (n, k))).
    fold s. rewrite <- (firstn_skipn top s). apply in_or_app. now left.
  - intros n k e G N Ie. apply filter_In in Ie. destruct Ie as [Ie Ke].
    apply Nat.leb_le in Ke.
    destruct (Nat.le_gt_cases 2 k) as [K|K]; [|lia].
    destruct (A n k G K) as [Ink|[Max _]]; [|now apply Max].
    exfalso. apply N. change n with (fst (n, k)). now apply in_map.
  - intros n k G K E. destruct (A n k G K) as [Ink|[Max NE]].
    + rewrite E in Ink. destruct Ink.
    + destruct (firstn top s) as [|a t] eqn:F; [congruence|].
      assert (Ka : 2 <= snd a) by (specialize (Max a (or_introl eq_refl)); lia).
      cbn [filter] in E. apply Nat.leb_le in Ka. rewrite Ka in E.
      discriminate E.
Qed.

(** What the second loop keeps for one word. *)
Lemma ranked_kept (co : dict nat) (l : list (string * nat)) :
  wf co -> ranked co = Some l ->
  2 <= List.length co
  /\ List.length l <= 3
  /\ descending l
  /\ NoDup (map fst l)
  /\ (forall n k, In (n, k) l -> get co n = Some k /\ 2 <= k)
  /\ (forall n k e,
        get co n = Some k -> ~ In n (map fst l) -> In e l -> k <= snd e)
  /\ (forall n k, get co n = Some k -> 2 <= k -> l <> []).
Proof.
  intros W R. unfold ranked, most_common in R.
  destruct (2 <=? List.length co) eqn:L; [|discriminate].
  apply Nat.leb_le in L. split; [exact L|].
  assert (E : l = filter (fun wc => 2 <=? snd wc)
                         (firstn 3 (sorted_by_count co))) by congruence.
  rewrite E. apply (top_kept co 3 W). lia.
Qed.

Lemma ranked_some (co : dict nat) :
  2 <= List.length co -> exists l, ranked co = Some l.
Proof.
  intros L. unfold ranked. apply Nat.leb_le in L. rewrite L. eexists.
  reflexivity.
Qed.

Lemma keep_collocations_ranked (result : dict (list (string * nat)))
  (w : string) (co : dict nat) :
  keep_collocations result (w, co)
  = match ranked co with
    | Some l => set result w l
    | None => result
    end.
Proof.
  unfold keep_collocations, ranked. now destruct (2 <=? List.length co).
Qed.

Lemma get_keep_collocations (entries : dict (dict nat)) :
  wf entries ->
  forall result q,
    get (fold_left keep_collocations entries result) q
    = match get entries q with
      | Some co =>
          match ranked co with
          | Some l => Some l
          | None => get result q
          end
      | None => get result q
      end.
Proof.
  unfold wf.
  induction entries as [|[p co] rest IH]; intros W result q; [reflexivity|].
  simpl in W. inversion W as [|? ? Fresh W']; subst.
  cbn [fold_left]. rewrite (IH W'). rewrite keep_collocations_ranked.
  cbn [get]. destruct (String.eqb_spec q p) as [->|D].
  - rewrite (not_key_get_none _ _ Fresh).
    destruct (ranked co); [apply get_set_same | reflexivity].
  - destruct (get rest q) as [co'|]; [destruct (ranked co'); [reflexivity|]|];
      (destruct (ranked co); [now apply get_set_other | reflexivity]).
Qed.

Lemma wf_keep_collocations (entries : dict (dict nat)) :
  wf (fold_left keep_collocations entries []).
Proof.
  apply fold_left_invariant; [|constructor].
  intros result [w co] W. rewrite keep_collocations_ranked.
  destruct (ranked co); [now apply wf_set | exact W].
Qed.

(** [extract_collocations] keeps under a word what [ranked] decides for
    the followers counted, unless that is the empty list. *)
Lemma extract_collocations_get (dataset : list item) (w : string) :
  get (extract_collocations dataset) w
  = match get (fold_left collect_pairs dataset []) w with
    | Some co =>
        match ranked co with
        | Some (x :: l) => Some (x :: l)
        | _ => None
        end
    | None => None
    end.
Proof.
  unfold extract_collocations. cbv zeta.
  rewrite (get_filter_values
             (fun l : list (string * nat) =>
                match l with [] => false | _ => true end)
             _ w (wf_keep_collocations _)).
  rewrite (get_keep_collocations _ (proj1 (kept_pairs_collect dataset))).
  destruct (get (fold_left collect_pairs dataset []) w) as [co|];
    [|reflexivity].
  destruct (ranked co) as [[|x l]|]; reflexivity.
Qed.
End Collocations.

(** X18.  [extract_collocations] lists, under a word, followers of that
    word in the lowercased Kumaoni sentences: at most three, each once,
    each with the number of times it comes right after the word, which is
    two or more, in descending order of that number; a follower left out
    follows the word no more often than any follower listed.  A word is
    listed exactly when it has two different followers or more and one of
    its followers follows it twice or more. *)
Theorem extract_collocations_top_followers :
  forall dataset word,
    let result := PatternRecognizer.extract_collocations dataset in
    (forall l,
        get result word = Some l ->
        l <> [] /\ List.length l <= 3 /\ descending l /\ NoDup (map fst l)
        /\ (forall n c, In (n, c) l -> c = follows dataset word n /\ 2 <= c)
        /\ (forall n e,
              ~ In n (map fst l) -> In e l -> follows dataset word n <= snd e))
    /\ (get result word <> None
        <-> (exists n1 n2,
                n1 <> n2 /\ 1 <= follows dataset word n1
                /\ 1 <= follows dataset word n2)
            /\ (exists n, 2 <= follows dataset word n)).
Proof.
  intros dataset word result. subst result.
  rewrite extract_collocations_get.
  pose proof (collected_followers dataset word) as F.
  destruct (get (fold_left PatternRecognizer.collect_pairs dataset []) word)
    as [co|].
  - destruct F as [K Fo].
    assert (Known : forall n k, get co n = Some k -> follows dataset word n = k).
    { intros n k G. rewrite Fo in G.
      destruct (follows dataset word n); [discriminate | congruence]. }
    assert (Seen : forall n, 1 <= follows dataset word n ->
                             get co n = Some (follows dataset word n)).
    { intros n P. rewrite Fo. destruct (follows dataset word n); [lia|].
      reflexivity. }
    split.
    + intros l H. destruct (ranked co) as [[|x l']|] eqn:R; try discriminate.
      injection H as <-.
      destruct (ranked_kept co _ (proj1 K) R)
        as (_ & Len & D & ND & Cnt & Top & _).
      split; [discriminate|]. split; [exact Len|]. split; [exact D|].
      split; [exact ND|]. split.
      * intros n c Inc. destruct (Cnt n c Inc) as [G C].
        split; [symmetry; now apply Known | exact C].
      * intros n e N Ie. destruct (get co n) as [k|] eqn:G.
        -- rewrite (Known n k G). exact (Top n k e G N Ie).
        -- rewrite Fo in G.
           destruct (follows dataset word n); [lia | discriminate].
    + split.
      * intros H. destruct (ranked co) as [[|[n k] l']|] eqn:R; try congruence.
        destruct (ranked_kept co _ (proj1 K) R)
          as (L & _ & _ & _ & Cnt & _ & _).
        split.
        -- destruct K as [W Pos].
           destruct co as [|[a ka] [|[b kb] rest]]; simpl in L; try lia.
           assert (Ga : get ((a, ka) :: (b, kb) :: rest) a = Some ka)
             by (apply (in_wf_get _ _ _ W); now left).
           assert (Gb : get ((a, ka) :: (b, kb) :: rest) b = Some kb)
             by (apply (in_wf_get _ _ _ W); right; now left).
           exists a, b. split.
           ++ unfold wf in W. simpl in W. inversion W as [|? ? N _]; subst.
              intros E. apply N. left. now symmetry.
           ++ rewrite (Known a ka Ga), (Known b kb Gb).
              split; [exact (Pos a ka Ga) | exact (Pos b kb Gb)].
        -- exists n. destruct (Cnt n k (or_introl eq_refl)) as [G C].
           now rewrite (Known n k G).
      * intros [(n1 & n2 & Dn & F1 & F2) (n & Fn)].
        assert (L : 2 <= List.length co)
          by exact (two_keys_length co n1 n2 _ _ (Seen n1 F1) (Seen n2 F2) Dn).
        destruct (ranked_some co L) as [l R]. rewrite R.
        destruct (ranked_kept co l (proj1 K) R)
          as (_ & _ & _ & _ & _ & _ & NE).
        assert (Fn' : 1 <= follows dataset word n) by lia.
        specialize (NE n _ (Seen n Fn') Fn).
        destruct l; [congruence | discriminate].
  - split; [discriminate|]. split; [congruence|].
    intros [_ [n Fn]]. rewrite F in Fn. lia.
Qed.

(** ** [recognize_patterns] on what was extracted *)

Lemma expression_categories_once : NoDup expression_categories.
Proof.
  unfold expression_categories.
  repeat constructor; simpl; intuition discriminate.
Qed.

Lemma is_collocation_listed (r : PatternRecognizer.recognizer)
  (w n : string) :
  PatternRecognizer.is_collocation r w n = true
  <-> exists l c,
        get (PatternRecognizer.collocations r) w = Some l /\ In (n, c) l.
Proof.
  unfold PatternRecognizer.is_collocation.
  destruct (get (PatternRecognizer.collocations r) w) as [l|].
  - rewrite existsb_exists. split.
    + intros ([n' c] & Il & E). apply String.eqb_eq in E. simpl in E. subst n'.
      now exists l, c.
    + intros (l' & c & [= <-] & Il). exists (n, c). split; [exact Il|].
      apply String.eqb_refl.
  - split; [discriminate|]. intros (l & c & G & _). discriminate G.
Qed.

(** X19.  A recognizer that has loaded what [extract_idioms],
    [extract_expressions] and [extract_collocations] returned for a corpus
    reports, for a text: the idioms kept whose lowercased words occur in
    the lowercased text; for every pair of the corpus filed under a
    category whose lowercased Kumaoni occurs in the lowercased text, that
    pair with its category, and no other expression; the neighbouring
    words of the lowercased text of which the second is listed under the
    first, and no other pair of words. *)
Theorem recognize_patterns_finds_extracted :
  forall dataset text,
    let r :=
      {| PatternRecognizer.idioms := PatternRecognizer.extract_idioms dataset;
         PatternRecognizer.expressions :=
           PatternRecognizer.extract_expressions dataset;
         PatternRecognizer.collocations :=
           PatternRecognizer.extract_collocations dataset |} in
    let found := PatternRecognizer.recognize_patterns r text in
    (forall hit,
        In hit (PatternRecognizer.found_idioms found)
        <-> In (PatternRecognizer.idiom hit, PatternRecognizer.meaning hit)
               (PatternRecognizer.extract_idioms dataset)
            /\ occurs_in (lower (PatternRecognizer.idiom hit)) (lower text))
    /\ (forall hit,
          In hit (PatternRecognizer.found_expressions found)
          <-> exists it,
                In it dataset
                /\ PatternRecognizer.category_of it
                   = Some (PatternRecognizer.category hit)
                /\ PatternRecognizer.expression hit
                   = PatternRecognizer.kumaoni it
                /\ PatternRecognizer.expression_hinglish hit
                   = PatternRecognizer.hinglish it
                /\ occurs_in (lower (PatternRecognizer.kumaoni it))
                             (lower text))
    /\ (forall hit,
          In hit (PatternRecognizer.found_collocations found)
          <-> In (PatternRecognizer.word hit, PatternRecognizer.collocate hit)
                 (neighbours (split (lower text)))
              /\ exists l c,
                   get (PatternRecognizer.extract_collocations dataset)
                       (PatternRecognizer.word hit) = Some l
                   /\ In (PatternRecognizer.collocate hit, c) l).
Proof.
  intros dataset text r found. subst found.
  unfold PatternRecognizer.recognize_patterns.
  cbn [PatternRecognizer.found_idioms PatternRecognizer.found_expressions
       PatternRecognizer.found_collocations].
  split; [|split].
  - intros [p m]. cbn [PatternRecognizer.idiom PatternRecognizer.meaning].
    rewrite in_flat_map. subst r. cbn [PatternRecognizer.idioms]. split.
    + intros ([p' m'] & Ie & H). cbn [fst snd] in H.
      destruct (contains (lower p') (lower text)) eqn:C; [|destruct H].
      destruct H as [H|[]]. injection H as <- <-.
      split; [exact Ie | now apply contains_occurs].
    + intros [Ie O]. exists (p, m). split; [exact Ie|]. cbn [fst snd].
      apply contains_occurs in O. rewrite O. now left.
  - intros [e h c].
    cbn [PatternRecognizer.expression PatternRecognizer.expression_hinglish
         PatternRecognizer.category].
    rewrite in_flat_map. subst r. cbn [PatternRecognizer.expressions].
    destruct (extract_expressions_keys_and_lists dataset) as [K S].
    split.
    + intros ([cat l] & Ie & H). cbn [fst snd] in H.
      apply in_flat_map in H. destruct H as (it & Il & H).
      destruct (contains (lower (PatternRecognizer.kumaoni it)) (lower text))
        eqn:C; [|destruct H].
      destruct H as [H|[]]. injection H as <- <- <-.
      assert (W : wf (PatternRecognizer.extract_expressions dataset)).
      { unfold wf. rewrite K. exact expression_categories_once. }
      apply (in_wf_get _ _ _ W) in Ie.
      pose proof (S cat) as St. unfold stored in St. rewrite Ie in St.
      rewrite St in Il. apply filed_under_category in Il.
      exists it. destruct Il as [Id Cat].
      repeat (split; [assumption || reflexivity|]).
      now apply contains_occurs.
    + intros (it & Id & Cat & -> & -> & O).
      assert (Ic : In c (keys (PatternRecognizer.extract_expressions dataset))).
      { rewrite K. exact (category_of_named it c Cat). }
      destruct (key_get_some _ _ Ic) as [l G].
      exists (c, l). split; [now apply get_some_in|]. cbn [fst snd].
      apply in_flat_map. exists it. split.
      * pose proof (S c) as St. unfold stored in St. rewrite G in St.
        rewrite St. apply filed_under_category. now split.
      * apply contains_occurs in O. rewrite O. now left.
  - intros [w n]. cbn [PatternRecognizer.word PatternRecognizer.collocate].
    rewrite in_flat_map. rewrite <- neighbours_by_index, in_map_iff.
    change (PatternRecognizer.extract_collocations dataset)
      with (PatternRecognizer.collocations r).
    rewrite <- (is_collocation_listed r w n). split.
    + intros (i & Ii & H). cbv zeta in H.
      destruct (PatternRecognizer.is_collocation r _ _) eqn:C; [|destruct H].
      destruct H as [H|[]]. injection H as <- <-. split; [|exact C].
      now exists i.
    + intros [(i & E & Ii) C]. injection E as <- <-. exists i.
      split; [exact Ii|]. cbv zeta. rewrite C. now left.
Qed.

(** ** [bulk_import] and [export_data] *)

Lemma training_add_word_lookup (tm : Training.TrainingModule)
  (h k t1 t2 key : string) :
  get (Training.vocab (snd (Training.add_word tm h k t1 t2))) key
  = if String.eqb key (normal_key h) then Some (strip k)
    else get (Training.vocab tm) key.
Proof.
  destruct (String.eqb_spec key (normal_key h)) as [->|D].
  - apply add_word_stores.
  - unfold Training.add_word, normal_key in *. cbv zeta.
    destruct (get (Training.vocab tm) (strip (lower h))) as [e|].
    + destruct (String.eqb e (strip k)); [reflexivity|].
      cbn [snd Training.vocab]. now apply get_set_other.
    + cbn [snd Training.vocab]. now apply get_set_other.
Qed.

Section TrainerSteps.
Variables (st : Trainer.state) (h k : string).

Lemma trainer_add_word_known (t1 t2 : string) :
  get (Trainer.vocab st) (normal_key h) = Some (strip k) ->
  Trainer.add_word st h k t1 t2 = (false, st).
Proof.
  intros G. unfold Trainer.add_word.
  rewrite (add_word_known (Trainer.words_view st) h k t1 t2 G).
  destruct st as [v p g i c d e f]. destruct f as [wd pj ij gj dj].
  cbn. now rewrite app_nil_r.
Qed.

Lemma trainer_add_word_lookup (t1 t2 key : string) :
  get (Trainer.vocab (snd (Trainer.add_word st h k t1 t2))) key
  = if String.eqb key (normal_key h) then Some (strip k)
    else get (Trainer.vocab st) key.
Proof.
  unfold Trainer.add_word.
  pose proof (training_add_word_lookup (Trainer.words_view st) h k t1 t2 key)
    as L.
  destruct (Training.add_word (Trainer.words_view st) h k t1 t2) as [w tm].
  exact L.
Qed.

Lemma trainer_add_word_frame (t1 t2 : string) :
  Trainer.phrases (snd (Trainer.add_word st h k t1 t2)) = Trainer.phrases st
  /\ Trainer.dataset (snd (Trainer.add_word st h k t1 t2)) = Trainer.dataset st
  /\ Trainer.idioms (snd (Trainer.add_word st h k t1 t2)) = Trainer.idioms st
  /\ Trainer.grammar (snd (Trainer.add_word st h k t1 t2)) = Trainer.grammar st.
Proof.
  unfold Trainer.add_word.
  destruct (Training.add_word (Trainer.words_view st) h k t1 t2) as [w tm].
  cbn [snd Trainer.phrases Trainer.dataset Trainer.idioms Trainer.grammar].
  repeat split.
Qed.

Lemma add_phrase_lookup (t1 t2 key : string) :
  get (Trainer.phrases (snd (Trainer.add_phrase st h k t1 t2))) key
  = if String.eqb key (normal_key h) then Some (strip k)
    else get (Trainer.phrases st) key.
Proof.
  destruct (String.eqb_spec key (normal_key h)) as [->|D].
  - apply add_phrase_stores.
  - unfold Trainer.add_phrase, normal_key in *. cbv zeta.
    destruct (get (Trainer.phrases st) (strip (lower h))) as [e|].
    + destruct (String.eqb e (strip k)); [reflexivity|].
      cbn [snd Trainer.store_phrase Trainer.phrases]. now apply get_set_other.
    + cbn [snd Trainer.store_phrase Trainer.phrases]. now apply get_set_other.
Qed.

Lemma add_phrase_frame (t1 t2 : string) :
  Trainer.vocab (snd (Trainer.add_phrase st h k t1 t2)) = Trainer.vocab st
  /\ Trainer.dataset (snd (Trainer.add_phrase st h k t1 t2)) = Trainer.dataset st
  /\ Trainer.idioms (snd (Trainer.add_phrase st h k t1 t2)) = Trainer.idioms st
  /\ Trainer.grammar (snd (Trainer.add_phrase st h k t1 t2)) = Trainer.grammar st.
Proof.
  unfold Trainer.add_phrase. cbv zeta.
  destruct (get (Trainer.phrases st) (strip (lower h))) as [e|];
    [destruct (String.eqb e (strip k))|]; cbn; repeat split.
Qed.

Lemma add_example_known (t : string) :
  In (example_of h k) (Trainer.dataset st) ->
  Trainer.add_example st h k t = (false, st).
Proof.
  intros I. unfold Trainer.add_example. cbv zeta.
  apply (has_example_iff _ (strip h) (strip k)) in I. now rewrite I.
Qed.

Lemma add_example_grows (t : string) (it : PatternRecognizer.item) :
  In it (Trainer.dataset st) \/ it = example_of h k ->
  In it (Trainer.dataset (snd (Trainer.add_example st h k t))).
Proof.
  unfold Trainer.add_example. cbv zeta.
  destruct (Trainer.has_example (Trainer.dataset st) (strip h) (strip k))
    eqn:H; cbn [snd Trainer.dataset].
  - intros [I| ->]; [exact I|]. now apply has_example_iff in H.
  - intros [I| ->]; apply in_or_app; [now left | right; now left].
Qed.

Lemma add_example_frame (t : string) :
  Trainer.vocab (snd (Trainer.add_example st h k t)) = Trainer.vocab st
  /\ Trainer.phrases (snd (Trainer.add_example st h k t)) = Trainer.phrases st
  /\ Trainer.idioms (snd (Trainer.add_example st h k t)) = Trainer.idioms st
  /\ Trainer.grammar (snd (Trainer.add_example st h k t)) = Trainer.grammar st.
Proof.
  unfold Trainer.add_example. cbv zeta.
  destruct (Trainer.has_example (Trainer.dataset st) (strip h) (strip k));
    cbn; repeat split.
Qed.
End TrainerSteps.

(** The loops of [bulk_import] over an object of strings, for an [add]
    that stores under the normalised name and returns early on a pair it
    knows, as [add_word] does with the vocabulary and [add_phrase] with
    the phrases. *)
Section ImportPairs.
Import Trainer.
Variable add : state -> string -> string -> string -> string -> bool * state.
Variable store : state -> dict string.
Hypothesis add_known : forall st h k t1 t2,
  get (store st) (normal_key h) = Some (strip k) ->
  add st h k t1 t2 = (false, st).
Hypothesis add_lookup : forall st h k t1 t2 key,
  get (store (snd (add st h k t1 t2))) key
  = if String.eqb key (normal_key h) then Some (strip k)
    else get (store st) key.

Lemma import_pairs_cons (clock : nat -> string) (h k : string)
  (rest : dict string) (st : state) (a t : nat) :
  import_pairs add clock ((h, k) :: rest) (st, a, t)
  = import_pairs add clock rest
      (snd (add st h k (clock t) (clock (S t))),
       (if fst (add st h k (clock t) (clock (S t))) then S a else a),
       t + 2).
Proof.
  unfold import_pairs. cbn [fold_left fst snd].
  now destruct (add st h k (clock t) (clock (S t))).
Qed.

Lemma import_pairs_lookup (clock : nat -> string) (d : dict string) :
  NoDup (map normal_key (keys d)) ->
  forall st a t,
    all_stored d (store (fst (fst (import_pairs add clock d (st, a, t)))))
    /\ forall key,
         ~ In key (map normal_key (keys d)) ->
         get (store (fst (fst (import_pairs add clock d (st, a, t))))) key
         = get (store st) key.
Proof.
  induction d as [|[h k] rest IH]; intros N st a t.
  - split; [intros h k [] | reflexivity].
  - change (NoDup (normal_key h :: map normal_key (keys rest))) in N.
    inversion N as [|? ? Fresh N']; subst. rewrite import_pairs_cons.
    destruct (IH N' (snd (add st h k (clock t) (clock (S t))))
                 (if fst (add st h k (clock t) (clock (S t))) then S a else a)
                 (t + 2)) as [S O].
    split.
    + intros h' k' [E|I]; [|now apply S]. injection E as <- <-.
      rewrite (O _ Fresh), add_lookup. now rewrite String.eqb_refl.
    + intros key NI. rewrite O; [|intros I; apply NI; now right].
      rewrite add_lookup.
      destruct (String.eqb_spec key (normal_key h)) as [->|D]; [|reflexivity].
      exfalso. apply NI. now left.
Qed.

Lemma import_pairs_idle (clock : nat -> string) (d : dict string) :
  forall st a t,
    all_stored d (store st) ->
    exists t', import_pairs add clock d (st, a, t) = (st, a, t').
Proof.
  induction d as [|[h k] rest IH]; intros st a t S.
  - now exists t.
  - rewrite import_pairs_cons.
    rewrite (add_known st h k _ _ (S h k (or_introl eq_refl))).
    cbn [fst snd]. apply IH. intros h' k' I. apply S. now right.
Qed.

Lemma import_pairs_keeps {X : Type} (other : state -> X) :
  (forall st h k t1 t2, other (snd (add st h k t1 t2)) = other st) ->
  forall clock d st a t,
    other (fst (fst (import_pairs add clock d (st, a, t)))) = other st.
Proof.
  intros Keep clock d. induction d as [|[h k] rest IH]; intros st a t.
  - reflexivity.
  - rewrite import_pairs_cons, IH. apply Keep.
Qed.

(** The words or the phrases of a document, imported a second time. *)
Lemma import_strings_stored (clock : nat -> string) (f : option field)
  (start result : state * nat * nat) (d : dict string) :
  normal_keys_once f ->
  import_strings add clock f start = Some result ->
  f = Some (strings_field d) ->
  all_stored d (store (fst (fst result))).
Proof.
  intros N R ->. cbn in N, R. injection R as <-.
  destruct start as [[st a] t]. now apply import_pairs_lookup.
Qed.

Lemma import_strings_again (clock clock' : nat -> string) (f : option field)
  (start result : state * nat * nat) (st : state) (a t : nat) :
  import_strings add clock f start = Some result ->
  (forall d, f = Some (strings_field d) -> all_stored d (store st)) ->
  exists t', import_strings add clock' f (st, a, t) = Some (st, a, t').
Proof.
  intros R S. destruct f as [[d|l|[|rule g]]|]; try discriminate R.
  - destruct (import_pairs_idle clock' d st a t (S d eq_refl)) as [t' E].
    exists t'. cbn. now rewrite E.
  - now exists t.
  - now exists t.
Qed.

Lemma import_strings_keeps {X : Type} (other : state -> X) :
  (forall st h k t1 t2, other (snd (add st h k t1 t2)) = other st) ->
  forall clock f st a t result,
    import_strings add clock f (st, a, t) = Some result ->
    other (fst (fst result)) = other st.
Proof.
  intros Keep clock f st a t result R.
  destruct f as [[d|l|[|rule g]]|]; try discriminate R;
    injection R as <-; [|reflexivity|reflexivity].
  now apply import_pairs_keeps.
Qed.
End ImportPairs.

Section ImportExamples.
Import Trainer.

Lemma import_examples_stores (clock : nat -> string) (l : list (dict string)) :
  forall st a t,
    examples_stored l
      (dataset (fst (fst (import_examples clock l (st, a, t)))))
    /\ forall it,
         In it (dataset st) ->
         In it (dataset (fst (fst (import_examples clock l (st, a, t))))).
Proof.
  induction l as [|example rest IH]; intros st a t.
  - split; [intros example h k [] | auto].
  - unfold import_examples. cbn [fold_left].
    destruct (get example "hinglish") as [h|] eqn:Gh;
      [destruct (get example "kumaoni") as [k|] eqn:Gk|].
    + destruct (add_example st h k (clock t)) as [w st1] eqn:E.
      fold (import_examples clock rest (st1, (if w then S a else a), t + 1)).
      destruct (IH st1 (if w then S a else a) (t + 1)) as [S G].
      assert (E1 : st1 = snd (add_example st h k (clock t))) by now rewrite E.
      split.
      * intros example' h' k' [<-|I] Gh' Gk'; [|exact (S _ _ _ I Gh' Gk')].
        assert (h' = h) by congruence. assert (k' = k) by congruence.
        subst h' k'. apply G. rewrite E1. apply add_example_grows. now right.
      * intros it I. apply G. rewrite E1. apply add_example_grows. now left.
    + fold (import_examples clock rest (st, a, t)).
      destruct (IH st a t) as [S G]. split; [|exact G].
      intros example' h' k' [<-|I] Gh' Gk'; [congruence|].
      exact (S _ _ _ I Gh' Gk').
    + fold (import_examples clock rest (st, a, t)).
      destruct (IH st a t) as [S G]. split; [|exact G].
      intros example' h' k' [<-|I] Gh' Gk'; [congruence|].
      exact (S _ _ _ I Gh' Gk').
Qed.

Lemma import_examples_idle (clock : nat -> string) (l : list (dict string)) :
  forall st a t,
    examples_stored l (dataset st) ->
    exists t', import_examples clock l (st, a, t) = (st, a, t').
Proof.
  induction l as [|example rest IH]; intros st a t S.
  - now exists t.
  - assert (S' : examples_stored rest (dataset st)).
    { intros example' h' k' I. apply S. now right. }
    unfold import_examples. cbn [fold_left].
    destruct (get example "hinglish") as [h|] eqn:Gh;
      [destruct (get example "kumaoni") as [k|] eqn:Gk|].
    + rewrite (add_example_known st h k (clock t)
                 (S example h k (or_introl eq_refl) Gh Gk)).
      exact (IH st a (t + 1) S').
    + exact (IH st a t S').
    + exact (IH st a t S').
Qed.

Lemma import_examples_keeps {X : Type} (other : state -> X) :
  (forall st h k t, other (snd (add_example st h k t)) = other st) ->
  forall clock l st a t,
    other (fst (fst (import_examples clock l (st, a, t)))) = other st.
Proof.
  intros Keep clock l. induction l as [|example rest IH]; intros st a t.
  - reflexivity.
  - unfold import_examples. cbn [fold_left].
    destruct (get example "hinglish") as [h|];
      [destruct (get example "kumaoni") as [k|]|].
    + destruct (add_example st h k (clock t)) as [w st1] eqn:E.
      fold (import_examples clock rest (st1, (if w then S a else a), t + 1)).
      rewrite IH. rewrite <- (Keep st h k (clock t)). now rewrite E.
    + exact (IH st a t).
    + exact (IH st a t).
Qed.

Lemma import_objects_again (clock clock' : nat -> string) (f : option field)
  (start : state * nat * nat) (st : state) (e a t t3 : nat) :
  import_objects clock f start = Some (st, e, t3) ->
  exists t', import_objects clock' f (st, a, t) = Some (st, a, t').
Proof.
  intros R. destruct f as [[d|l|g]|]; cbn in R |- *.
  - destruct (existsb both_names (keys d)); [discriminate R | now exists t].
  - injection R as R. destruct start as [[st0 a0] t0].
    pose proof (proj1 (import_examples_stores clock l st0 a0 t0)) as S.
    rewrite R in S. cbn [fst] in S.
    destruct (import_examples_idle clock' l st a t S) as [t' E].
    exists t'. now rewrite E.
  - destruct (existsb both_names (keys g)); [discriminate R | now exists t].
  - now exists t.
Qed.

Lemma import_objects_keeps {X : Type} (other : state -> X) :
  (forall st h k t, other (snd (add_example st h k t)) = other st) ->
  forall clock f st a t result,
    import_objects clock f (st, a, t) = Some result ->
    other (fst (fst result)) = other st.
Proof.
  intros Keep clock f st a t result R.
  destruct f as [[d|l|g]|]; cbn in R.
  - destruct (existsb both_names (keys d)); [discriminate R|].
    now injection R as <-.
  - injection R as <-. now apply import_examples_keeps.
  - destruct (existsb both_names (keys g)); [discriminate R|].
    now injection R as <-.
  - now injection R as <-.
Qed.
End ImportExamples.

(** X20.  Importing a document a second time adds nothing: when the names
    of its words, and those of its phrases, differ once lowercased and
    trimmed, and [bulk_import] has completed on it, a second [bulk_import]
    of the same document, at whatever time, completes as well, prints three
    zeros and leaves the state as the first import left it: vocabulary,
    phrases, dataset, corrections, session log and documents. *)
Theorem bulk_import_twice_adds_nothing :
  forall st import_data clock clock' st' words_added phrases_added
         examples_added,
    normal_keys_once (get import_data "words") ->
    normal_keys_once (get import_data "phrases") ->
    Trainer.bulk_import st import_data clock
    = Trainer.completed st' words_added phrases_added examples_added ->
    Trainer.bulk_import st' import_data clock' = Trainer.completed st' 0 0 0.
Proof.
  intros st import_data clock clock' st' words_added phrases_added
         examples_added Nw Np H.
  unfold Trainer.bulk_import in H.
  destruct (Trainer.import_strings Trainer.add_word clock
              (get import_data "words") (st, 0, 0))
    as [[[st1 w1] t1]|] eqn:W; [|discriminate H].
  destruct (Trainer.import_strings Trainer.add_phrase clock
              (get import_data "phrases") (st1, 0, t1))
    as [[[st2 p2] t2]|] eqn:P; [|discriminate H].
  destruct (Trainer.import_objects clock (get import_data "examples")
              (st2, 0, t2))
    as [[[st3 e3] t3]|] eqn:E; [|discriminate H].
  injection H as Es Ew Ep Ee. subst st3.
  pose proof (import_objects_keeps Trainer.vocab
                (fun st h k t => proj1 (add_example_frame st h k t))
                _ _ _ _ _ _ E) as V3.
  pose proof (import_strings_keeps Trainer.add_phrase Trainer.vocab
                (fun st h k t1 t2 => proj1 (add_phrase_frame st h k t1 t2))
                _ _ _ _ _ _ P) as V2.
  pose proof (import_objects_keeps Trainer.phrases
                (fun st h k t => proj1 (proj2 (add_example_frame st h k t)))
                _ _ _ _ _ _ E) as Ph.
  pose proof (fun d =>
                import_strings_stored Trainer.add_word Trainer.vocab
                  trainer_add_word_lookup _ _ _ _ d Nw W) as Sw.
  pose proof (fun d =>
                import_strings_stored Trainer.add_phrase Trainer.phrases
                  add_phrase_lookup _ _ _ _ d Np P) as Sp.
  cbn [fst] in V3, V2, Ph, Sw, Sp.
  rewrite <- V2, <- V3 in Sw. rewrite <- Ph in Sp.
  destruct (import_strings_again Trainer.add_word Trainer.vocab
              trainer_add_word_known clock clock' _ _ _ st' 0 0 W Sw)
    as [t1' W'].
  destruct (import_strings_again Trainer.add_phrase Trainer.phrases
              add_phrase_known clock clock' _ _ _ st' 0 t1' P Sp)
    as [t2' P'].
  destruct (import_objects_again clock clock' _ _ st' e3 0 t2' t3 E)
    as [t3' E'].
  unfold Trainer.bulk_import. now rewrite W', P', E'.
Qed.

Lemma bulk_import_twice_witness :
  Trainer.bulk_import
    (Examples.after_import
       (Trainer.bulk_import Examples.trainer_start Examples.import_file
          Examples.first_clock))
    Examples.import_file Examples.later_clock
  = Trainer.completed
      (Examples.after_import
         (Trainer.bulk_import Examples.trainer_start Examples.import_file
            Examples.first_clock))
      0 0 0.
Proof.
  apply (bulk_import_twice_adds_nothing Examples.trainer_start
           Examples.import_file Examples.first_clock Examples.later_clock
           _ 2 1 1).
  - vm_compute. constructor; [intros [E|[]]; discriminate E|].
    constructor; [intros []|]. constructor.
  - vm_compute. constructor; [intros []|]. constructor.
  - reflexivity.
Defined.

(** X21.  [export_data] and [bulk_import] do not name the stores alike:
    the export has the vocabulary under vocab and the dataset under
    dataset, the import reads words and examples.  So importing an
    exported document always completes and brings the phrases only: no
    word and no example is added, and the vocabulary, dataset, idioms and
    grammar of the importing state stay as they were; the phrases of the
    export are all stored afterwards when their names differ once
    lowercased and trimmed. *)
Theorem bulk_import_of_export_brings_phrases_only :
  forall exported importing clock,
    exists st' phrases_added,
      Trainer.bulk_import importing (Trainer.export_data exported) clock
      = Trainer.completed st' 0 phrases_added 0
      /\ Trainer.vocab st' = Trainer.vocab importing
      /\ Trainer.dataset st' = Trainer.dataset importing
      /\ Trainer.idioms st' = Trainer.idioms importing
      /\ Trainer.grammar st' = Trainer.grammar importing
      /\ (NoDup (map normal_key (keys (Trainer.phrases exported))) ->
          all_stored (Trainer.phrases exported) (Trainer.phrases st')).
Proof.
  intros exported importing clock. unfold Trainer.bulk_import.
  change (get (Trainer.export_data exported) "words")
    with (@None Trainer.field).
  change (get (Trainer.export_data exported) "phrases")
    with (Some (Trainer.strings_field (Trainer.phrases exported))).
  change (get (Trainer.export_data exported) "examples")
    with (@None Trainer.field).
  cbn [Trainer.import_strings Trainer.import_objects].
  pose proof (fun X (other : Trainer.state -> X) Keep =>
                import_pairs_keeps Trainer.add_phrase other Keep clock
                  (Trainer.phrases exported) importing 0 0) as Keeps.
  pose proof (fun N => proj1 (import_pairs_lookup Trainer.add_phrase
                                Trainer.phrases add_phrase_lookup clock
                                (Trainer.phrases exported) N importing 0 0))
    as Stored.
  destruct (Trainer.import_pairs Trainer.add_phrase clock
              (Trainer.phrases exported) (importing, 0, 0))
    as [[st2 p2] t2].
  cbn [fst] in Keeps, Stored. exists st2, p2.
  split; [reflexivity|].
  split; [exact (Keeps _ Trainer.vocab
                   (fun st h k t1 t2 => proj1 (add_phrase_frame st h k t1 t2)))|].
  split; [exact (Keeps _ Trainer.dataset
                   (fun st h k t1 t2 =>
                      proj1 (proj2 (add_phrase_frame st h k t1 t2))))|].
  split; [exact (Keeps _ Trainer.idioms
                   (fun st h k t1 t2 =>
                      proj1 (proj2 (proj2 (add_phrase_frame st h k t1 t2)))))|].
  split; [exact (Keeps _ Trainer.grammar
                   (fun st h k t1 t2 =>
                      proj2 (proj2 (proj2 (add_phrase_frame st h k t1 t2)))))|].
  exact Stored.
Qed.
